(** * veDOLO dashboard: fetch / cache / aggregate scripts

    A shallow embedding of the data-fetching scripts of the dashboard
    (update_data.py, fetch_early_exits.py, update_exercised_usd.py,
    calculate_avg_lock.py, generate_dolo_holders.py) and the properties
    of their pagination, caching, decoding and aggregation code. *)

From Stdlib Require Import ZArith QArith Qround String Ascii List Lia.
From stdpp Require Import gmap strings list sorting pretty.

Local Open Scope string_scope.
Local Open Scope list_scope.

(** ** Python floats

    The scripts compute with Python floats ([int / 1e18], [+=], [round]).
    The operations they use are collected in an interface; every
    definition below is generic in it, so a theorem stated for all
    instances holds for IEEE binary64 as well. *)

Class PyFloat (F : Type) := {
  of_int : Z -> F;                 (* float(n), also an int used as a float *)
  fadd : F -> F -> F;              (* a + b *)
  fmul : F -> F -> F;              (* a * b *)
  fdiv : F -> F -> F;              (* a / b, b non-zero at every call site *)
  fltb : F -> F -> bool;           (* a < b *)
  py_round : nat -> F -> F;        (* round(a, n) *)
}.

Definition fgtb `{PyFloat F} (a b : F) : bool := fltb b a.

(** Exact rational arithmetic, kept in lowest terms: the instance at
    which concrete runs are evaluated. *)
Module Exact.

Definition lt (a b : Q) : bool :=
  match Qcompare a b with Lt => true | _ => false end.

(** round-half-even to [n] decimals, as Python's [round(x, n)] does on
    the value it is given *)
Definition round (n : nat) (x : Q) : Q :=
  let p := inject_Z (10 ^ Z.of_nat n) in
  let s := Qred (x * p) in
  let fl := Qfloor s in
  let r := Qred (s - inject_Z fl) in
  let q := match Qcompare r (1 # 2) with
           | Lt => fl
           | Gt => (fl + 1)%Z
           | Eq => if Z.even fl then fl else (fl + 1)%Z
           end in
  Qred (inject_Z q / p).

#[global] Instance float : PyFloat Q := {|
  of_int := inject_Z;
  fadd a b := Qred (a + b);
  fmul a b := Qred (a * b);
  fdiv a b := Qred (a / b);
  fltb := lt;
  py_round := round;
|}.

End Exact.

(** ** calculate_avg_lock.py *)

Module AvgLock.

Section Distribution.
Context `{PyFloat F}.

(** the [if/elif] chain of the bucket loop: the key that is
    incremented for a duration [d] in seconds *)
Definition bucket_of (d : Z) : string :=
  let days := fdiv (of_int d) (of_int 86400) in
  if fltb days (of_int 30) then "< 1 month"
  else if fltb days (of_int 90) then "1-3 months"
  else if fltb days (of_int 180) then "3-6 months"
  else if fltb days (of_int 365) then "6-12 months"
  else "1-2 years".

Definition empty_buckets : gmap string nat :=
  <["< 1 month" := 0]> (<["1-3 months" := 0]> (<["3-6 months" := 0]>
    (<["6-12 months" := 0]> (<["1-2 years" := 0]> ∅)))).

(** [buckets[k] += 1] *)
Definition incr (k : string) (b : gmap string nat) : gmap string nat :=
  <[k := S (default 0 (b !! k))]> b.

(** [for d in durations: ...] *)
Definition distribution (durations : list Z) : gmap string nat :=
  fold_left (fun b d => incr (bucket_of d) b) durations empty_buckets.
End Distribution.

Definition days (n : Z) : Z := (n * 86400)%Z.

Definition expected (a b c d e : nat) : gmap string nat :=
  <["< 1 month" := a]> (<["1-3 months" := b]> (<["3-6 months" := c]>
    (<["6-12 months" := d]> (<["1-2 years" := e]> ∅)))).

End AvgLock.

(** ** Python strings and JSON objects *)

Module Py.

(** [s.lower()] on ASCII *)
Definition lower_ascii (c : ascii) : ascii :=
  let n := nat_of_ascii c in
  if (65 <=? n)%nat && (n <=? 90)%nat then ascii_of_nat (n + 32) else c.

Fixpoint lower (s : string) : string :=
  match s with
  | EmptyString => EmptyString
  | String c s' => String (lower_ascii c) (lower s')
  end.

(** [s[a:b]] and [s[a:]] for non-negative indices *)
Definition slice (a b : nat) (s : string) : string := substring a (b - a) s.
Definition slice_from (a : nat) (s : string) : string :=
  substring a (String.length s - a) s.

Definition digit_of (base : Z) (c : ascii) : option Z :=
  let n := Z.of_nat (nat_of_ascii c) in
  let d := if (48 <=? n)%Z && (n <=? 57)%Z then Some (n - 48)%Z
           else if (97 <=? n)%Z && (n <=? 102)%Z then Some (n - 87)%Z
           else if (65 <=? n)%Z && (n <=? 70)%Z then Some (n - 55)%Z
           else None in
  match d with
  | Some v => if (v <? base)%Z then Some v else None
  | None => None
  end.

Fixpoint digits (base : Z) (acc : Z) (s : string) : option Z :=
  match s with
  | EmptyString => Some acc
  | String c s' =>
      match digit_of base c with
      | Some d => digits base (acc * base + d)%Z s'
      | None => None
      end
  end.

(** [int(s)] on a string of decimal digits; [None] is [ValueError] *)
Definition int10 (s : string) : option Z :=
  match s with
  | EmptyString => None
  | _ => digits 10 0 s
  end.

(** [int(s, 16)] on hexadecimal digits with an optional [0x] prefix;
    [None] is [ValueError] *)
Definition int16 (s : string) : option Z :=
  let body := if String.prefix "0x" s || String.prefix "0X" s
              then slice_from 2 s else s in
  match body with
  | EmptyString => None
  | _ => digits 16 0 body
  end.

(** a JSON object whose values are strings, as the explorer API
    returns transactions and transfers *)
Abbreviation obj := (gmap string string).

(** [o.get(k, "")] *)
Definition get_str (o : obj) (k : string) : string := default "" (o !! k).

End Py.

(** ** Page-number pagination: update_exercised_usd.py and
    calculate_avg_lock.py *)

Module Paged.
Import Py.

Definition EXERCISE_METHOD_ID : string := "0xa88f8139".
Definition PAGE_SIZE : nat := 100.

(** the decoded JSON body of one [txlist] response *)
Record response := { status : string; result : list obj }.

(** the explorer API of one run: the response to a request with the
    given [startblock] and [page] *)
Definition api := Z -> nat -> response.

(** [data["status"] != "1" or not data["result"]] *)
Definition stop (data : response) : bool :=
  negb (String.eqb (status data) "1") ||
  match result data with [] => true | _ => false end.

(** [tx.get("methodId") == EXERCISE_METHOD_ID and tx.get("isError") == "0"
    and tx.get("txreceipt_status") == "1"] *)
Definition is_exercise (tx : obj) : bool :=
  bool_decide (tx !! "methodId" = Some EXERCISE_METHOD_ID) &&
  bool_decide (tx !! "isError" = Some "0") &&
  bool_decide (tx !! "txreceipt_status" = Some "1").

(** update_exercised_usd.get_new_transactions: the [while True] loop,
    one iteration per unit of fuel.  [reqs] records the page numbers
    requested so far. *)
Fixpoint get_new_transactions_loop (fuel : nat) (src : api) (start_block : Z)
    (page : nat) (all_txs : list obj) (reqs : list nat)
    : option (list obj * list nat) :=
  match fuel with
  | O => None
  | S fuel' =>
      let data := src (start_block + 1)%Z page in
      let reqs := reqs ++ [page] in
      if stop data then Some (all_txs, reqs)
      else
        let txs := result data in
        let all_txs := all_txs ++ txs in
        if (length txs <? PAGE_SIZE)%nat then Some (all_txs, reqs)
        else get_new_transactions_loop fuel' src start_block (S page) all_txs reqs
  end.

Definition get_new_transactions (fuel : nat) (src : api) (start_block : Z) :=
  get_new_transactions_loop fuel src start_block 1 [] [].

(** calculate_avg_lock.get_all_exercise_txs: same loop, keeping only
    the successful exercise transactions of each page *)
Fixpoint get_all_exercise_txs_loop (fuel : nat) (src : api)
    (page : nat) (all_txs : list obj) (reqs : list nat)
    : option (list obj * list nat) :=
  match fuel with
  | O => None
  | S fuel' =>
      let data := src 0%Z page in
      let reqs := reqs ++ [page] in
      if stop data then Some (all_txs, reqs)
      else
        let txs := result data in
        let exercise := List.filter is_exercise txs in
        let all_txs := all_txs ++ exercise in
        if (length txs <? PAGE_SIZE)%nat then Some (all_txs, reqs)
        else get_all_exercise_txs_loop fuel' src (S page) all_txs reqs
  end.

Definition get_all_exercise_txs (fuel : nat) (src : api) :=
  get_all_exercise_txs_loop fuel src 1 [] [].

(** The synthetic source of the pagination property: it holds [items]
    and serves them in pages of [PAGE_SIZE], with status "0" and an
    empty result past the last item. *)
Definition paged_source (items : list obj) : api := fun _ page =>
  let chunk := take PAGE_SIZE (drop ((page - 1) * PAGE_SIZE) items) in
  {| status := match chunk with [] => "0" | _ => "1" end; result := chunk |}.

(** ceil(n / p) *)
Definition ceil_div (n p : nat) : nat := (n + p - 1) / p.

End Paged.

(** ** Block-range pagination: update_data.fetch_all_nft_transfers and
    generate_dolo_holders.fetch_erc20_transfers *)

Module BlockRange.
Import Py.

(** What one request to the explorer yields, by the branch of the
    [try] body it selects. *)
Inductive response :=
| Page (results : list obj)  (* status "1" and a list result *)
| RateLimited                (* "rate" in the result or "max rate" in the message *)
| NoTransactions             (* the "No transactions found" body *)
| ApiError                   (* any other body *)
| Failed.                    (* requests.get or resp.json() raises *)

(** the explorer seen from one run: the response to the [n]-th request
    of the run, asked with the given [startblock] *)
Definition api := nat -> Z -> response.

(** "offset": 10000 *)
Definition PAGE_CAP : Z := 10000.

Record state := {
  all_txs : list obj;
  seen : gset string;
  start_block : Z;
  consecutive_errors : nat;          (* fetch_erc20_transfers only *)
  trace : list (Z * response);       (* requests made so far, oldest first *)
}.


(** the pages received so far, concatenated in the order of arrival *)
Definition received (tr : list (Z * response)) : list obj :=
  concat (omap (fun e => match e.2 with Page rs => Some rs | _ => None end) tr).

(** [tx.get("hash", "") + tx.get(sub, "")] *)
Definition tx_key (sub : string) (tx : obj) : string :=
  String.append (get_str tx "hash") (get_str tx sub).

(** the deduplicating [for tx in results] loop *)
Definition absorb (sub : string) (results : list obj)
    (acc : list obj * gset string) : list obj * gset string :=
  fold_left (fun a tx =>
               let k := tx_key sub tx in
               if decide (k ∈ a.2) then a else (a.1 ++ [tx], {[k]} ∪ a.2))
            results acc.

(** [int(results[-1].get("blockNumber", start_block))]; [None] when it
    raises *)
Definition last_block_of (results : list obj) (start_block : Z) : option Z :=
  match last results with
  | None => None
  | Some tx =>
      match tx !! "blockNumber" with
      | None => Some start_block
      | Some s => int10 s
      end
  end.

(** how one iteration of the [while True] body ends *)
Inductive control :=
| Return (st : state)    (* return all_txs *)
| Exit (st : state)      (* sys.exit(1) *)
| Next (st : state).     (* break out of the retry loop; loop again *)

Definition request (src : api) (st : state) : response :=
  src (length (trace st)) (start_block st).

Definition logged (st : state) (r : response) : state :=
  {| all_txs := all_txs st; seen := seen st; start_block := start_block st;
     consecutive_errors := consecutive_errors st;
     trace := trace st ++ [(start_block st, r)] |}.

Definition with_txs (st : state) (a : list obj * gset string) : state :=
  {| all_txs := a.1; seen := a.2; start_block := start_block st;
     consecutive_errors := consecutive_errors st; trace := trace st |}.

Definition with_start (st : state) (b : Z) : state :=
  {| all_txs := all_txs st; seen := seen st; start_block := b;
     consecutive_errors := consecutive_errors st; trace := trace st |}.

Definition with_errors (st : state) (n : nat) : state :=
  {| all_txs := all_txs st; seen := seen st; start_block := start_block st;
     consecutive_errors := n; trace := trace st |}.

(** *** update_data.fetch_all_nft_transfers *)

(** [for retry in range(3)], with [retries] attempts left; running out
    of attempts is the loop's [else], which leaves the [while] *)
Fixpoint nft_attempts (retries : nat) (src : api) (st : state) : control :=
  match retries with
  | O => Return st
  | S retries' =>
      let resp := request src st in
      let st := logged st resp in
      match resp with
      | Page results =>
          let st := with_txs st (absorb "tokenID" results (all_txs st, seen st)) in
          if (Z.of_nat (length results) <? PAGE_CAP)%Z then Return st
          else
            match last_block_of results (start_block st) with
            | None => nft_attempts retries' src st
            | Some last_block =>
                if (last_block =? start_block st)%Z
                then Next (with_start st (last_block + 1))
                else Next (with_start st last_block)
            end
      | RateLimited => nft_attempts retries' src st
      | NoTransactions => Return st
      | ApiError =>
          match all_txs st with
          | [] => Exit st
          | _ => Return st
          end
      | Failed => nft_attempts retries' src st
      end
  end.

(** what the caller gets: the list, or the exit of the process *)
Inductive result := Returned (txs : list obj) | Exited.

Definition finish (c : control) : option (result * list (Z * response)) :=
  match c with
  | Return st => Some (Returned (all_txs st), trace st)
  | Exit st => Some (Exited, trace st)
  | Next _ => None
  end.



(** *** generate_dolo_holders.fetch_erc20_transfers *)

(** [for retry in range(5)]; its [else] counts an error and either
    leaves the [while] or tries the next block range *)
Fixpoint erc20_attempts (retries : nat) (src : api) (st : state) : control :=
  match retries with
  | O =>
      let st := with_errors st (S (consecutive_errors st)) in
      if (3 <=? consecutive_errors st)%nat then Return st
      else Next (with_start st (start_block st + 10000))
  | S retries' =>
      let resp := request src st in
      let st := logged st resp in
      match resp with
      | Page results =>
          let st := with_txs st (absorb "logIndex" results (all_txs st, seen st)) in
          let st := with_errors st 0 in
          if (Z.of_nat (length results) <? PAGE_CAP)%Z then Return st
          else
            match last_block_of results (start_block st) with
            | None => erc20_attempts retries' src st
            | Some last_block =>
                Next (with_start st
                        (if (last_block =? start_block st)%Z
                         then last_block + 1 else last_block))
            end
      | RateLimited => erc20_attempts retries' src st
      | NoTransactions => Return st
      | ApiError =>
          let st := with_errors st (S (consecutive_errors st)) in
          if (3 <=? consecutive_errors st)%nat then Return st
          else erc20_attempts retries' src st
      | Failed => erc20_attempts retries' src st
      end
  end.



(** the two fetchers side by side *)
Inductive fetcher := NftTransfers | Erc20Transfers.

(** the field that completes the hash in the dedup key *)
Definition sub_index (f : fetcher) : string :=
  match f with
  | NftTransfers => "tokenID"
  | Erc20Transfers => "logIndex"
  end.

(** one iteration of the fetcher's [while True] body *)
Definition iteration (f : fetcher) : api -> state -> control :=
  match f with
  | NftTransfers => nft_attempts 3
  | Erc20Transfers => erc20_attempts 5
  end.


(** the claim's reading of the output: the first occurrence of every
    key, in order of arrival *)
Fixpoint first_by_key (sub : string) (seen : gset string) (l : list obj) : list obj :=
  match l with
  | [] => []
  | tx :: l' =>
      if decide (tx_key sub tx ∈ seen) then first_by_key sub seen l'
      else tx :: first_by_key sub ({[tx_key sub tx]} ∪ seen) l'
  end.

(** the keys of a list of items *)
Definition keys (sub : string) (l : list obj) : gset string :=
  list_to_set (map (tx_key sub) l).

(** the invariant of both loops: the list is the first occurrence of
    every key that arrived, the set holds the keys *)
Definition inv (sub : string) (st : state) : Prop :=
  all_txs st = first_by_key sub ∅ (received (trace st))
  /\ seen st = keys sub (received (trace st)).


Definition control_state (c : control) : state :=
  match c with Return st | Exit st | Next st => st end.




End BlockRange.

(** ** Exceptions and common list operations *)

(** the value of a Python expression that may raise *)
Inductive py (A : Type) : Type :=
| Ok (a : A)
| Raised.
Arguments Ok {A} a.
Arguments Raised {A}.

#[global] Instance py_eq_dec {A} `{EqDecision A} : EqDecision (py A).
Proof. solve_decision. Defined.

Definition py_bind {A B} (m : py A) (k : A -> py B) : py B :=
  match m with
  | Ok a => k a
  | Raised => Raised
  end.

Definition of_option {A} (o : option A) : py A :=
  match o with
  | Some a => Ok a
  | None => Raised
  end.

#[global] Instance py_mbind : MBind py := fun A B k m => py_bind m k.
#[global] Instance py_mret : MRet py := fun A a => Ok a.
#[global] Instance py_fmap : FMap py := fun A B f m =>
  match m with
  | Ok a => Ok (f a)
  | Raised => Raised
  end.

(** [[l[i:i+n] for i in range(0, len(l), n)]] *)
Fixpoint chunks_aux {A} (fuel n : nat) (l : list A) : list (list A) :=
  match fuel with
  | O => []
  | S fuel' =>
      match l with
      | [] => []
      | _ => take n l :: chunks_aux fuel' n (drop n l)
      end
  end.

Definition chunks {A} (n : nat) (l : list A) : list (list A) :=
  chunks_aux (length l) n l.

(** ** Receipts and their Transfer logs *)

Module Receipt.

Record log := {
  address : string;
  topics : list string;
  data : option string;
}.

(** a transaction receipt, by its [logs] ([[]] when the key is absent) *)
Record receipt := { logs : list log }.

Definition TRANSFER_TOPIC : string :=
  "0xddf252ad1be2c89b69c2b068fc378daa952ba7f163c4a11628f55a4df523b3ef".

(** ["0x" + log["topics"][i][26:]] *)
Definition topic_address (l : log) (i : nat) : option string :=
  (fun t => String.append "0x" (Py.slice_from 26 t)) <$> (topics l !! i).

End Receipt.

(** ** fetch_early_exits.py *)

Module EarlyExits.
Import Py Receipt.

Definition VEDOLO_CONTRACT : string := "0xCB86B75EE6133d179a12D550b09FB3cdB1e141D4".
Definition DOLO_TOKEN : string := "0x0F81001eF0A83ecCE5ccebf63EB302c70a39a654".
Definition ODOLO_VESTER : string := "0x3E9b9A16743551DA49b5e136C716bBa7932d2cEc".
Definition ZERO_ADDR : string := "0x0000000000000000000000000000000000000000".
Definition MAX_WORKERS : nat := 8.

(** a log that matches the Transfer signature and the DOLO token: the
    three [continue] tests of the receipt loop *)
Definition dolo_transfer (l : log) : bool :=
  String.eqb (lower (address l)) (lower DOLO_TOKEN)
  && bool_decide (head (topics l) = Some TRANSFER_TOPIC)
  && (3 <=? length (topics l))%nat.

Section WithFloat.
Context `{PyFloat F}.

(** the record [fetch_receipt_and_calc_penalty] returns *)
Record penalty := {
  burn_fee : F;
  recoup_fee : F;
  total_penalty : F;
  original_locked : F;
  user_received : F;
  penalty_pct : F;
  is_early_exit : bool;
}.

(** the running sums of the receipt loop *)
Record sums := {
  burn_amount : F;
  recoup_amount : F;
  user_amount : F;
  user_addr : option string;
}.

(** the body of [for log in receipt.get("logs", [])] *)
Definition scan_log (acc : sums) (l : log) : py sums :=
  if negb (String.eqb (lower (address l)) (lower DOLO_TOKEN)) then Ok acc
  else if negb (bool_decide (head (topics l) = Some TRANSFER_TOPIC)) then Ok acc
  else if (length (topics l) <? 3)%nat then Ok acc
  else
    from_addr ← of_option (topic_address l 1);
    to_addr ← of_option (topic_address l 2);
    raw ← of_option (int16 (default "0x0" (data l)));
    let amount := fdiv (of_int raw) (of_int (10 ^ 18)) in
    let from_addr_l := lower from_addr in
    let to_addr_l := lower to_addr in
    if String.eqb from_addr_l (lower VEDOLO_CONTRACT) then
      if String.eqb to_addr_l (lower ZERO_ADDR) then
        Ok {| burn_amount := fadd (burn_amount acc) amount;
              recoup_amount := recoup_amount acc;
              user_amount := user_amount acc; user_addr := user_addr acc |}
      else if String.eqb to_addr_l (lower ODOLO_VESTER) then
        Ok {| burn_amount := burn_amount acc;
              recoup_amount := fadd (recoup_amount acc) amount;
              user_amount := user_amount acc; user_addr := user_addr acc |}
      else if String.prefix "0xcfc30d38" to_addr_l then
        Ok {| burn_amount := burn_amount acc;
              recoup_amount := fadd (recoup_amount acc) amount;
              user_amount := user_amount acc; user_addr := user_addr acc |}
      else
        Ok {| burn_amount := burn_amount acc;
              recoup_amount := recoup_amount acc;
              user_amount := fadd (user_amount acc) amount;
              user_addr := Some to_addr_l |}
    else Ok acc.

Fixpoint scan_logs (acc : sums) (ls : list log) : py sums :=
  match ls with
  | [] => Ok acc
  | l :: ls' => acc' ← scan_log acc l; scan_logs acc' ls'
  end.

(** [fetch_receipt_and_calc_penalty], from the answer of
    [rpc_call("eth_getTransactionReceipt", [tx_hash])] on *)
Definition calc_penalty (receipt : option receipt) : py (option penalty) :=
  match receipt with
  | None => Ok None
  | Some rc =>
      s ← scan_logs {| burn_amount := of_int 0; recoup_amount := of_int 0;
                       user_amount := of_int 0; user_addr := None |} (logs rc);
      let total := fadd (burn_amount s) (recoup_amount s) in
      let original := fadd (fadd (burn_amount s) (recoup_amount s)) (user_amount s) in
      Ok (Some {|
        burn_fee := py_round 4 (burn_amount s);
        recoup_fee := py_round 4 (recoup_amount s);
        total_penalty := py_round 4 total;
        original_locked := py_round 4 original;
        user_received := py_round 4 (user_amount s);
        penalty_pct :=
          py_round 2 (if fgtb original (of_int 0)
                      then fmul (fdiv total original) (of_int 100)
                      else of_int 0);
        is_early_exit := fgtb total (of_int 0);
      |})
  end.


Definition fetch_receipt_and_calc_penalty
    (rpc : string -> option receipt) (tx_hash : string) : py (option penalty) :=
  calc_penalty (rpc tx_hash).

(** a decoded Withdraw event *)
Record event := {
  provider : string;
  token_id : Z;
  value : F;
  timestamp : Z;
  block : Z;
  tx_hash : string;
}.

(** an entry [{**ev, **penalty}]; its "date" is a function of the
    event's timestamp *)
Definition entry : Type := event * penalty.

Record stats := {
  total_early_exits : nat;
  total_normal_exits : nat;
  total_withdrawals : nat;
  total_burn_fee_dolo : F;
  total_recoup_fee_dolo : F;
  total_penalty_dolo : F;
  total_original_locked : F;
  avg_penalty_pct : F;
  last_updated : string;
}.

Record output := { out_stats : stats; out_early_exits : list entry }.

(** *** Phase 3: receipts of the uncached transactions *)

(** the state of the pool loop: the cache, the error count, the
    hashes handed to the resolver (in submission order) and the
    caches written to the cache file *)
Record pool := {
  cache : gmap string penalty;
  errors : nat;
  calls : list string;
  flushes : list (gmap string penalty);
}.

(** [for future in as_completed(futures)]: the results of one chunk,
    taken in the order [done] in which the workers finished *)
Fixpoint collect (resolver : string -> py (option penalty))
    (done : list string) (p : pool) : py pool :=
  match done with
  | [] => Ok p
  | th :: done' =>
      r ← resolver th;
      collect resolver done'
        match r with
        | Some pen => {| cache := <[th := pen]> (cache p); errors := errors p;
                         calls := calls p; flushes := flushes p |}
        | None => {| cache := cache p; errors := S (errors p);
                     calls := calls p; flushes := flushes p |}
        end
  end.

(** how the pool loop ends: with its state, or with an exception of
    a worker leaving [main] after the hashes [submitted] so far were
    handed to the resolver *)
Inductive resolution :=
| Resolved (p : pool)
| Aborted (submitted : list string).

(** [for chunk_idx, chunk in enumerate(chunks)]; [completion] is the
    order in which the pool finishes the futures of a chunk *)
Fixpoint resolve_chunks (resolver : string -> py (option penalty))
    (completion : list string -> list string)
    (n_chunks : nat) (chunk_idx : nat) (cs : list (list string)) (p : pool)
    : resolution :=
  match cs with
  | [] => Resolved p
  | chunk :: cs' =>
      let p := {| cache := cache p; errors := errors p;
                  calls := calls p ++ chunk; flushes := flushes p |} in
      match collect resolver (completion chunk) p with
      | Raised => Aborted (calls p)
      | Ok p =>
          let p :=
            if (Nat.eqb ((chunk_idx + 1) mod 10) 0
                || Nat.eqb (chunk_idx + 1) n_chunks)
            then {| cache := cache p; errors := errors p; calls := calls p;
                    flushes := flushes p ++ [cache p] |}
            else p in
          resolve_chunks resolver completion n_chunks (S chunk_idx) cs' p
      end
  end.

Definition tx_hashes_needed (c : gmap string penalty) (events : list event)
    : list string :=
  List.filter (fun h => bool_decide (c !! h = None)) (map tx_hash events).

Definition phase3 (resolver : string -> py (option penalty))
    (completion : list string -> list string)
    (c : gmap string penalty) (events : list event) : resolution :=
  let p0 := {| cache := c; errors := 0; calls := []; flushes := [] |} in
  match tx_hashes_needed c events with
  | [] => Resolved p0
  | needed =>
      let cs := chunks MAX_WORKERS needed in
      match resolve_chunks resolver completion (length cs) 0 cs p0 with
      | Aborted s => Aborted s
      | Resolved p =>
          Resolved {| cache := cache p; errors := errors p; calls := calls p;
                      flushes := flushes p ++ [cache p] |}
      end
  end.

(** *** Phase 4: statistics *)

Record totals := {
  early_exits : list entry;
  normal_exits : list entry;
  total_burn : F;
  total_recoup : F;
  total_penalty_sum : F;
  total_original : F;
}.

Definition totals0 : totals :=
  {| early_exits := []; normal_exits := []; total_burn := of_int 0;
     total_recoup := of_int 0; total_penalty_sum := of_int 0;
     total_original := of_int 0 |}.

(** the body of [for ev in events] *)
Definition tally (c : gmap string penalty) (t : totals) (ev : event) : totals :=
  match c !! tx_hash ev with
  | None => t
  | Some pen =>
      if is_early_exit pen then
        {| early_exits := early_exits t ++ [(ev, pen)];
           normal_exits := normal_exits t;
           total_burn := fadd (total_burn t) (burn_fee pen);
           total_recoup := fadd (total_recoup t) (recoup_fee pen);
           total_penalty_sum := fadd (total_penalty_sum t) (total_penalty pen);
           total_original := fadd (total_original t) (original_locked pen) |}
      else
        {| early_exits := early_exits t;
           normal_exits := normal_exits t ++ [(ev, pen)];
           total_burn := total_burn t; total_recoup := total_recoup t;
           total_penalty_sum := total_penalty_sum t;
           total_original := total_original t |}
  end.

(** [early_exits.sort(key=lambda x: x["timestamp"], reverse=True)]: a
    stable sort, entries of equal timestamp keep their order *)
Fixpoint insert_desc (x : entry) (l : list entry) : list entry :=
  match l with
  | [] => [x]
  | y :: l' =>
      if (timestamp y.1 <=? timestamp x.1)%Z then x :: y :: l'
      else y :: insert_desc x l'
  end.

Definition sort_desc (l : list entry) : list entry :=
  fold_right insert_desc [] l.

Definition make_stats (n_events : nat) (t : totals) (now : string) : stats :=
  {| total_early_exits := length (early_exits t);
     total_normal_exits := length (normal_exits t);
     total_withdrawals := n_events;
     total_burn_fee_dolo := py_round 2 (total_burn t);
     total_recoup_fee_dolo := py_round 2 (total_recoup t);
     total_penalty_dolo := py_round 2 (total_penalty_sum t);
     total_original_locked := py_round 2 (total_original t);
     avg_penalty_pct :=
       py_round 2 (if fgtb (total_original t) (of_int 0)
                   then fmul (fdiv (total_penalty_sum t) (total_original t))
                             (of_int 100)
                   else of_int 0);
     last_updated := now |}.

Definition phase4 (c : gmap string penalty) (events : list event) (now : string)
    : output :=
  let t := fold_left (tally c) events totals0 in
  {| out_stats := make_stats (length events) t now;
     out_early_exits := sort_desc (early_exits t) |}.

(** *** main, from the decoded events on

    [c] is the content of the cache file at start-up, [events] the
    decoded Withdraw logs, [now] the clock at the end of the run. *)
Inductive run :=
| NoEvents                                (* sys.exit(0) *)
| Crashed (submitted : list string)       (* an exception leaves main *)
| Finished (p : pool) (o : output).

Definition main (resolver : string -> py (option penalty))
    (completion : list string -> list string)
    (c : gmap string penalty) (events : list event) (now : string) : run :=
  match events with
  | [] => NoEvents
  | _ =>
      match phase3 resolver completion c events with
      | Aborted s => Crashed s
      | Resolved p => Finished p (phase4 (cache p) events now)
      end
  end.


(** the hashes a run handed to the resolver *)
Definition resolver_calls (r : run) : list string :=
  match r with
  | NoEvents => []
  | Crashed s => s
  | Finished p _ => calls p
  end.




(** The aggregate in the words of the specification: a fold from
    scratch over the full item set, each item with its decoded
    record. *)
Definition resolved (c : gmap string penalty) (events : list event) : list entry :=
  omap (fun ev => (fun pen => (ev, pen)) <$> c !! tx_hash ev) events.

Definition sum_from (f : penalty -> F) (l : list entry) (a : F) : F :=
  fold_left (fun a e => fadd a (f e.2)) l a.

Definition sum_of (f : penalty -> F) (l : list entry) : F :=
  sum_from f l (of_int 0).

Definition aggregate_from_scratch (c : gmap string penalty)
    (events : list event) (now : string) : output :=
  let early := List.filter (fun e : entry => is_early_exit e.2) (resolved c events) in
  let normal := List.filter (fun e : entry => negb (is_early_exit e.2)) (resolved c events) in
  {| out_stats :=
       make_stats (length events)
         {| early_exits := early; normal_exits := normal;
            total_burn := sum_of burn_fee early;
            total_recoup := sum_of recoup_fee early;
            total_penalty_sum := sum_of total_penalty early;
            total_original := sum_of original_locked early |} now;
     out_early_exits := sort_desc early |}.

End WithFloat.

Arguments penalty F : clear implicits.
Arguments event F : clear implicits.
Arguments output F : clear implicits.
Arguments run F : clear implicits.

End EarlyExits.

(** ** update_exercised_usd.py *)

Module UpdateExercised.
Import Py Receipt.

Definition VESTER_CONTRACT : string := "0x3E9b9A16743551DA49b5e136C716bBa7932d2cEc".
Definition USDC_E_CONTRACT : string := lower "0x549943e04f40284185054145c6e4e9568c1d3241".
Definition USDC_DECIMALS : Z := 6.

(** [s.split(sep)[0]] *)
Fixpoint before (sep s : string) : string :=
  match s with
  | EmptyString => EmptyString
  | String c s' => if String.prefix sep s then EmptyString else String c (before sep s')
  end.

(** a log that matches the Transfer signature, the USDC.e token and
    the vester as receiver *)
Definition usdc_payment (l : log) : bool :=
  String.eqb (lower (address l)) USDC_E_CONTRACT
  && (3 <=? length (topics l))%nat
  && bool_decide (head (topics l) = Some TRANSFER_TOPIC)
  && match topics l !! 2 with
     | Some t => String.eqb (String.append "0x" (lower (slice_from 26 t)))
                            (lower VESTER_CONTRACT)
     | None => false
     end.

Section WithFloat.
Context `{PyFloat F}.

(** the content of exercised_usd.json *)
Record exercised := {
  total_usdc : F;
  total_txs : Z;
  last_block : Z;
  period : option string;
}.

(** [load_existing], from the parsed file (if it exists) on *)
Definition load_existing (file : option exercised) : exercised :=
  match file with
  | Some d => d
  | None => {| total_usdc := of_int 0; total_txs := 0; last_block := 0;
               period := None |}
  end.

(** the [for log in ...] loop of [get_usdc_from_receipt] *)
Fixpoint find_payment (ls : list log) : py (option F) :=
  match ls with
  | [] => Ok None
  | l :: ls' =>
      if String.eqb (lower (address l)) USDC_E_CONTRACT
         && (3 <=? length (topics l))%nat
         && bool_decide (head (topics l) = Some TRANSFER_TOPIC)
      then
        t ← of_option (topics l !! 2);
        let to_addr := String.append "0x" (lower (slice_from 26 t)) in
        if String.eqb to_addr (lower VESTER_CONTRACT) then
          d ← of_option (data l);
          raw ← of_option (int16 d);
          Ok (Some (fdiv (of_int raw) (of_int (10 ^ USDC_DECIMALS))))
        else find_payment ls'
      else find_payment ls'
  end.

(** [get_usdc_from_receipt], from the "result" of the proxy answer on
    ([None] when it is absent or null) *)
Definition get_usdc_from_receipt (result : option receipt) : py (option F) :=
  match result with
  | None => Ok None
  | Some rc => find_payment (logs rc)
  end.

(** the state of the loop over the exercise transactions *)
Record acc := { new_usdc : F; txs_count : Z; max_block : Z }.

(** the body of [for i, tx in enumerate(exercise_txs)] *)
Definition process (receipts : string -> option receipt) (a : acc) (tx : obj)
    : py acc :=
  h ← of_option (tx !! "hash");
  amount ← get_usdc_from_receipt (receipts h);
  block ← of_option ((tx !! "blockNumber") ≫= int10);
  let mb := Z.max (max_block a) block in
  match amount with
  | Some x => Ok {| new_usdc := fadd (new_usdc a) x;
                    txs_count := (txs_count a + 1)%Z; max_block := mb |}
  | None => Ok {| new_usdc := new_usdc a; txs_count := txs_count a;
                  max_block := mb |}
  end.

Fixpoint process_all (receipts : string -> option receipt) (a : acc)
    (txs : list obj) : py acc :=
  match txs with
  | [] => Ok a
  | tx :: txs' => a' ← process receipts a tx; process_all receipts a' txs'
  end.


(** [for tx in new_txs: max_block = max(max_block, int(tx["blockNumber"]))] *)
Fixpoint scan_blocks (mb : Z) (txs : list obj) : py Z :=
  match txs with
  | [] => Ok mb
  | tx :: txs' =>
      block ← of_option ((tx !! "blockNumber") ≫= int10);
      scan_blocks (Z.max mb block) txs'
  end.

(** [main], from the result [new_txs] of
    [get_new_transactions(last_block)] on: the data it saves, or
    [None] when it returns without saving.  [today] is the date of
    the run. *)
Definition main (file : option exercised) (new_txs : list obj)
    (receipts : string -> option receipt) (today : string) : py (option exercised) :=
  let existing := load_existing file in
  let exercise_txs := List.filter Paged.is_exercise new_txs in
  match exercise_txs, new_txs with
  | [], [] => Ok None
  | _, _ =>
      a ← process_all receipts
            {| new_usdc := of_int 0; txs_count := total_txs existing;
               max_block := last_block existing |} exercise_txs;
      mb ← scan_blocks (max_block a) new_txs;
      let total := fadd (total_usdc existing) (new_usdc a) in
      Ok (Some {|
        total_usdc := py_round 2 total;
        total_txs := txs_count a;
        last_block := mb;
        period := Some (String.append
                          (before " to " (default "2025-06-26" (period existing)))
                          (String.append " to " today));
      |})
  end.

End WithFloat.

Arguments exercised F : clear implicits.

End UpdateExercised.

(** ** update_data.py *)

Module UpdateData.
Import Py.

Definition ZERO : string := "0x0000000000000000000000000000000000000000".
Definition BATCH_SIZE : nat := 50.
Definition MAX_WORKERS : nat := 4.

(** *** Phase 1: ownership *)

(** an insertion-ordered [dict] *)
Fixpoint dict_set {K V} `{EqDecision K} (k : K) (v : V) (d : list (K * V))
    : list (K * V) :=
  match d with
  | [] => [(k, v)]
  | (k', v') :: d' =>
      if decide (k = k') then (k, v) :: d' else (k', v') :: dict_set k v d'
  end.

Fixpoint dict_get {K V} `{EqDecision K} (k : K) (d : list (K * V)) : option V :=
  match d with
  | [] => None
  | (k', v') :: d' => if decide (k = k') then Some v' else dict_get k d'
  end.

(** [int(t.get(k, dflt))] *)
Definition int_field (t : obj) (k : string) (dflt : Z) : py Z :=
  match t !! k with
  | None => Ok dflt
  | Some s => of_option (int10 s)
  end.

(** [(int(t.get("blockNumber", 0)), int(t.get("transactionIndex", 0)))] *)
Definition sort_key (t : obj) : py (Z * Z) :=
  b ← int_field t "blockNumber" 0;
  i ← int_field t "transactionIndex" 0;
  Ok (b, i).

(** tuple comparison [a <= b] *)
Definition key_le (a b : Z * Z) : bool :=
  (a.1 <? b.1)%Z || ((a.1 =? b.1)%Z && (a.2 <=? b.2)%Z).

Fixpoint keyed (txs : list obj) : py (list ((Z * Z) * obj)) :=
  match txs with
  | [] => Ok []
  | t :: txs' => k ← sort_key t; r ← keyed txs'; Ok ((k, t) :: r)
  end.

(** [list.sort(key=...)] is stable: among equal keys the earlier
    element stays first *)
Fixpoint insert_key (x : (Z * Z) * obj) (l : list ((Z * Z) * obj))
    : list ((Z * Z) * obj) :=
  match l with
  | [] => [x]
  | y :: l' => if key_le x.1 y.1 then x :: y :: l' else y :: insert_key x l'
  end.

Definition sort_txs (txs : list obj) : py (list obj) :=
  ks ← keyed txs; Ok (map snd (fold_right insert_key [] ks)).

(** the body of [for tx in txs] *)
Definition record_transfer (st : list (Z * string) * gset Z) (tx : obj)
    : py (list (Z * string) * gset Z) :=
  token_id ← int_field tx "tokenID" 0;
  let from_addr := lower (get_str tx "from") in
  let to_addr := lower (get_str tx "to") in
  let minted := if String.eqb from_addr (lower ZERO)
                then {[token_id]} ∪ st.2 else st.2 in
  Ok (dict_set token_id to_addr st.1, minted).

Fixpoint record_transfers (st : list (Z * string) * gset Z) (txs : list obj)
    : py (list (Z * string) * gset Z) :=
  match txs with
  | [] => Ok st
  | tx :: txs' => st' ← record_transfer st tx; record_transfers st' txs'
  end.

(** the body of [for tid, owner in ownership.items()] *)
Definition add_owner (active : list (string * list Z)) (e : Z * string)
    : list (string * list Z) :=
  if String.eqb e.2 (lower ZERO) then active
  else dict_set e.2 (default [] (dict_get e.2 active) ++ [e.1]) active.

Record holder := {
  address : string;
  nft_count : nat;
  token_ids : list Z;
}.

Record stats := {
  total_minted : nat;
  total_burned : nat;
  active_nfts : Z;
  unique_holders : nat;
}.

Definition build_ownership (txs : list obj) : py (list holder * stats) :=
  sorted ← sort_txs txs;
  st ← record_transfers ([], ∅) sorted;
  let ownership := st.1 in
  let all_minted := st.2 in
  let burned := length (List.filter (fun e => String.eqb e.2 (lower ZERO)) ownership) in
  let active_owners := fold_left add_owner ownership [] in
  let stats := {| total_minted := size all_minted;
                  total_burned := burned;
                  active_nfts := (Z.of_nat (size all_minted) - Z.of_nat burned)%Z;
                  unique_holders := length active_owners |} in
  let holders := map (fun e => {| address := e.1; nft_count := length e.2;
                                  token_ids := merge_sort Z.le e.2 |})
                     active_owners in
  Ok (holders, stats).

(** the transfers of [tid] in [txs]: the "to" address of the last one *)
Definition transfers_of (tid : Z) (txs : list obj) : list obj :=
  List.filter (fun tx => bool_decide (int_field tx "tokenID" 0 = Ok tid)) txs.

Definition current_owner (tid : Z) (sorted : list obj) : option string :=
  (fun tx => lower (get_str tx "to")) <$> last (transfers_of tid sorted).

(** the lower-cased zero address the loops compare with *)
Definition zero : string := lower ZERO.

(** the tokens that [ownership] gives to [addr], in its order *)
Definition owned (ownership : list (Z * string)) (addr : string) : list Z :=
  map fst (List.filter (fun e => String.eqb e.2 addr) ownership).



(** *** Phase 2: locked amounts *)

Section WithFloat.
Context `{PyFloat F}.

(** a value of the cache: [{"amount": ..., "end": ...}], with
    ["error": True] when the batch failed *)
Record locked := { amount : F; lock_end : Z; error : bool }.

(** the integer the amount is scaled from *)
Definition signed_amount (amount_raw : Z) : Z :=
  if (2 ^ 127 <=? amount_raw)%Z then (amount_raw - 2 ^ 128)%Z else amount_raw.

(** the decoding of one result word, lines 213-218 *)
Definition decode_locked (raw : string) : py locked :=
  amount_raw ← of_option (int16 (slice 2 66 raw));
  let amount_raw := signed_amount amount_raw in
  end_raw ← of_option (int16 (slice 66 130 raw));
  Ok {| amount := fdiv (of_int amount_raw) (of_int (10 ^ 18));
        lock_end := end_raw; error := false |}.

Definition zero_locked : locked :=
  {| amount := of_int 0; lock_end := 0; error := false |}.
Definition error_locked : locked :=
  {| amount := of_int 0; lock_end := 0; error := true |}.

(** one element of a JSON-RPC batch answer; [rpc_result] is [None]
    when the element has no "result" *)
Record rpc_item := { rpc_id : nat; rpc_result : option string }.

(** ["result" in r and r["result"] and len(r["result"]) >= 66] *)
Definition usable (r : rpc_item) : option string :=
  match rpc_result r with
  | Some raw => if (66 <=? String.length raw)%nat then Some raw else None
  | None => None
  end.

(** [for r in results]; the flag tells whether the loop ran to its
    end, [out] keeps what was stored before an exception *)
Fixpoint store_results (token_ids : list Z) (results : list rpc_item)
    (out : gmap Z locked) : gmap Z locked * bool :=
  match results with
  | [] => (out, true)
  | r :: rs =>
      match token_ids !! rpc_id r with
      | None => (out, false)
      | Some tid =>
          match usable r with
          | Some raw =>
              match decode_locked raw with
              | Ok e => store_results token_ids rs (<[tid := e]> out)
              | Raised => (out, false)
              end
          | None => store_results token_ids rs (<[tid := zero_locked]> out)
          end
      end
  end.

(** the answer to one POST of the batch *)
Inductive http :=
| TooManyRequests                   (* status 429 *)
| Broken                            (* any exception *)
| Results (rs : list rpc_item).

Definition fill_errors (token_ids : list Z) (out : gmap Z locked) : gmap Z locked :=
  fold_left (fun o tid => match o !! tid with
                          | None => <[tid := error_locked]> o
                          | Some _ => o
                          end) token_ids out.

(** [for retry in range(3)], and the loop after it *)
Fixpoint batch_attempts (retries retry : nat) (post : nat -> http)
    (token_ids : list Z) (out : gmap Z locked) : gmap Z locked :=
  match retries with
  | O => fill_errors token_ids out
  | S retries' =>
      match post retry with
      | Results rs =>
          let r := store_results token_ids rs out in
          if r.2 then r.1
          else batch_attempts retries' (S retry) post token_ids r.1
      | _ => batch_attempts retries' (S retry) post token_ids out
      end
  end.

(** [post retry] is the answer to the POST of attempt [retry] *)
Definition make_batch_call (post : nat -> http) (token_ids : list Z)
    : gmap Z locked :=
  batch_attempts 3 0 post token_ids ∅.

(** *** fetch_locked_dolo *)

(** [str(tid)] *)
Definition str (tid : Z) : string := pretty tid.

(** [{int(k) for k in cache.keys()}] *)
Definition cached_ids (c : gmap string locked) : py (gset Z) :=
  match mapM int10 (map fst (map_to_list c)) with
  | Some ids => Ok (list_to_set ids)
  | None => Raised
  end.

(** the state of the window loop: the cache, the error count, the
    batches handed to [make_batch_call] and the caches saved *)
Record progress := {
  cache : gmap string locked;
  errors : nat;
  batches : list (list Z);
  saves : list (gmap string locked);
}.

(** [for tid, data_item in future.result().items()]: the result of
    one batch goes into the cache under the keys [str(tid)] *)
Definition store_batch (call : list Z -> gmap Z locked) (p : progress)
    (chunk : list Z) : progress :=
  let out := call chunk in
  {| cache := kmap str out ∪ cache p;
     errors := errors p + size (filter (fun kv => error kv.2 = true) out);
     batches := batches p; saves := saves p |}.

(** the [while chunk_idx < len(chunks)] loop, by its windows
    [chunks[chunk_idx:chunk_idx + MAX_WORKERS]]; [call] is
    [make_batch_call] with the answers of this run, [completion] the
    order in which the pool finishes the batches of a window *)
Fixpoint run_windows (call : list Z -> gmap Z locked)
    (completion : list (list Z) -> list (list Z))
    (n_chunks chunk_idx : nat) (windows : list (list (list Z))) (p : progress)
    : progress :=
  match windows with
  | [] => p
  | window :: windows' =>
      let p := {| cache := cache p; errors := errors p;
                  batches := batches p ++ window; saves := saves p |} in
      let p := fold_left (store_batch call) (completion window) p in
      let chunk_idx := chunk_idx + length window in
      let p := if (Nat.eqb (chunk_idx mod 50) 0 || (n_chunks <=? chunk_idx))%nat
               then {| cache := cache p; errors := errors p;
                       batches := batches p; saves := saves p ++ [cache p] |}
               else p in
      run_windows call completion n_chunks chunk_idx windows' p
  end.

(** [file] is the parsed cache file, if it exists *)
Definition fetch_locked_dolo (call : list Z -> gmap Z locked)
    (completion : list (list Z) -> list (list Z))
    (file : option (gmap string locked)) (all_token_ids : list Z)
    : py progress :=
  let c := default ∅ file in
  ids ← cached_ids c;
  let missing := List.filter (fun tid => bool_decide (tid ∉ ids)) all_token_ids in
  let p0 := {| cache := c; errors := 0; batches := []; saves := [] |} in
  match missing with
  | [] => Ok p0
  | _ =>
      let cs := chunks BATCH_SIZE missing in
      let p := run_windows call completion (length cs) 0
                 (chunks MAX_WORKERS cs) p0 in
      Ok {| cache := cache p; errors := errors p; batches := batches p;
            saves := saves p ++ [cache p] |}
  end.

(** the batch resolver gives a token of a batch its record
    [record tid], if the answer carries one, and nothing else *)
Definition answers (record : Z -> option locked)
    (call : list Z -> gmap Z locked) : Prop :=
  forall chunk tid,
    call chunk !! tid = if decide (tid ∈ chunk) then record tid else None.

(** a batch resolver that answers from the table [record] *)
Definition call_of (record : Z -> option locked) (chunk : list Z)
    : gmap Z locked :=
  foldr (fun tid m => match record tid with
                      | Some v => <[tid := v]> m
                      | None => m
                      end) ∅ chunk.

(** the cache holds decoded records of tokens of [ids] under their
    keys *)
Definition populated (record : Z -> option locked) (c : gmap string locked)
    (ids : list Z) : Prop :=
  forall k v, c !! k = Some v ->
    exists tid, tid ∈ ids /\ k = str tid /\ record tid = Some v.

(** what resolving the tokens [L] makes of the cache of [p] *)
Definition stored (record : Z -> option locked) (p p' : progress) (L : list Z)
    : Prop :=
  (forall tid v, tid ∈ L -> record tid = Some v -> cache p' !! str tid = Some v)
  /\ (forall k, (forall tid, tid ∈ L -> k = str tid -> record tid = None) ->
        cache p' !! k = cache p !! k).

End WithFloat.

Arguments locked F : clear implicits.
Arguments progress F : clear implicits.

End UpdateData.

(** ** The cache files and their flushes *)

Module CacheFile.

(** the files of the data directory, by path *)
Abbreviation fs := (gmap string string).

(** the prefixes of a string, shortest first: what a file can hold
    while [json.dump] writes into it *)
Fixpoint prefixes (s : string) : list string :=
  match s with
  | EmptyString => [EmptyString]
  | String c s' => EmptyString :: map (String c) (prefixes s')
  end.

Section Flush.
Context {C : Type}.
(** the text [json.dump] produces *)
Variable dump : C -> string.

(** update_data.save_cache: the states of the file system from the
    call to the return, in order; a crash or a failed write leaves
    one of them behind.  [open(tmp, "w")] empties tmp, the dump
    fills it, [os.replace] moves it over the cache file. *)
Definition save_cache (cache_file : string) (cache : C) (files : fs) : list fs :=
  let tmp := String.append cache_file ".tmp" in
  files
  :: map (fun p => <[tmp := p]> files) (prefixes (dump cache))
  ++ [<[cache_file := dump cache]> (delete tmp files)].

(** fetch_early_exits.main, lines 246-247 and 252-253:
    [with open(CACHE_FILE, "w") as f: json.dump(cache, f)] *)
Definition write_cache (cache_file : string) (cache : C) (files : fs) : list fs :=
  files :: map (fun p => <[cache_file := p]> files) (prefixes (dump cache)).

End Flush.

End CacheFile.

(** ** Concrete runs *)

Module Scenarios.
Import Py.

(** *** update_exercised_usd.py: two runs against one *)

Definition exercise_tx (h blk : string) : obj :=
  <["hash" := h]> (<["blockNumber" := blk]>
    (<["methodId" := Paged.EXERCISE_METHOD_ID]>
      (<["isError" := "0"]> (<["txreceipt_status" := "1"]> ∅)))).

(** a receipt with one USDC.e Transfer of [raw] units to the vester *)
Definition payment (raw : string) : Receipt.receipt :=
  {| Receipt.logs :=
       [ {| Receipt.address := "0x549943e04f40284185054145c6e4e9568c1d3241";
            Receipt.topics :=
              [Receipt.TRANSFER_TOPIC;
               "0x000000000000000000000000aaaaaaaaaaaaaaaaaaaaaaaaaaaaaaaaaaaaaaaa";
               "0x0000000000000000000000003e9b9a16743551da49b5e136c716bba7932d2cec"];
            Receipt.data := Some raw |} ] |}.

(** every exercise pays 4000 units, 0.004 USDC *)
Definition small_payments : string -> option Receipt.receipt :=
  fun _ => Some (payment "0xfa0").

Definition tx_a : obj := exercise_tx "0xa" "11".
Definition tx_b : obj := exercise_tx "0xb" "12".



(** *** fetch_early_exits.py: a run that finds one receipt cached *)

Definition early : EarlyExits.penalty Q :=
  {| EarlyExits.burn_fee := 5%Q; EarlyExits.recoup_fee := 10%Q;
     EarlyExits.total_penalty := 15%Q; EarlyExits.original_locked := 100%Q;
     EarlyExits.user_received := 85%Q; EarlyExits.penalty_pct := 15%Q;
     EarlyExits.is_early_exit := true |}.

Definition matured : EarlyExits.penalty Q :=
  {| EarlyExits.burn_fee := 0%Q; EarlyExits.recoup_fee := 0%Q;
     EarlyExits.total_penalty := 0%Q; EarlyExits.original_locked := 40%Q;
     EarlyExits.user_received := 40%Q; EarlyExits.penalty_pct := 0%Q;
     EarlyExits.is_early_exit := false |}.

(** the receipt of "0xcc" cannot be fetched *)
Definition known_receipts : string -> py (option (EarlyExits.penalty Q)) :=
  fun h => if String.eqb h "0xaa" then Ok (Some early)
           else if String.eqb h "0xbb" then Ok (Some matured)
           else Ok None.

Definition withdrawal (h : string) (ts : Z) : EarlyExits.event Q :=
  {| EarlyExits.provider := "0x1111111111111111111111111111111111111111";
     EarlyExits.token_id := ts; EarlyExits.value := 1%Q;
     EarlyExits.timestamp := ts; EarlyExits.block := ts;
     EarlyExits.tx_hash := h |}.

Definition withdrawals : list (EarlyExits.event Q) :=
  [withdrawal "0xaa" 100; withdrawal "0xbb" 200; withdrawal "0xcc" 300;
   withdrawal "0xaa" 400].

Definition warm_cache : gmap string (EarlyExits.penalty Q) :=
  <["0xaa" := early]> ∅.

(** *** Resolvers that find nothing, and resolvers that find zero *)



Definition zeros (n : nat) : string := String.concat "" (repeat "0" n).





(** *** update_data.build_ownership: two mints, a sale and a burn,
    as the explorer may list them (not in chain order) *)

Definition nft (id from to blk idx : string) : obj :=
  <["tokenID" := id]> (<["from" := from]> (<["to" := to]>
    (<["blockNumber" := blk]> (<["transactionIndex" := idx]> ∅)))).

Definition alice : string := "0xAAaaaaaaaaaaaaaaaaaaaaaaaaaaaaaaaaaaaaaa".
Definition bob : string := "0xbbbbbbbbbbbbbbbbbbbbbbbbbbbbbbbbbbbbbbbb".

Definition nft_history : list obj :=
  [ nft "2" bob UpdateData.ZERO "40" "0";
    nft "1" alice bob "30" "5";
    nft "1" UpdateData.ZERO alice "10" "1";
    nft "2" UpdateData.ZERO bob "10" "2" ].

(** *** update_data.fetch_locked_dolo: a run that finds one token cached *)

(** token 3 gets no answer *)
Definition lock_of (tid : Z) : option (UpdateData.locked Q) :=
  if (tid =? 3)%Z then None
  else Some {| UpdateData.amount := inject_Z tid;
               UpdateData.lock_end := (1000 + tid)%Z;
               UpdateData.error := false |}.

Definition tokens : list Z := [1; 2; 3]%Z.

Definition warm_locks : gmap string (UpdateData.locked Q) :=
  <["1" := {| UpdateData.amount := 1%Q; UpdateData.lock_end := 1001%Z;
              UpdateData.error := false |}]> ∅.

(** *** Page-number fetchers: exactly one full page of items *)

Definition one_full_page : list obj := replicate Paged.PAGE_SIZE ∅.

(** *** Block-range fetchers *)





End Scenarios.

(** ** The call data of the batched [eth_call]s: update_data.py *)

Module Abi.
Import Py.

Definition VEDOLO_CONTRACT : string := "0xCB86B75EE6133d179a12D550b09FB3cdB1e141D4".
Definition LOCKED_SELECTOR : string := "0xb45a3c0e".
Definition BALANCE_OF_NFT_SELECTOR : string := "0xe7e242d4".

Definition hex_digit (d : Z) : ascii :=
  if (d <? 10)%Z then ascii_of_nat (Z.to_nat (48 + d))
  else ascii_of_nat (Z.to_nat (87 + d)).

(** the digits of [n], most significant first, in front of [acc];
    [fuel] bounds their number *)
Fixpoint hex_digits (fuel : nat) (n : Z) (acc : string) : string :=
  match fuel with
  | O => acc
  | S fuel' =>
      let acc := String (hex_digit (n mod 16)) acc in
      if (n / 16 =? 0)%Z then acc else hex_digits fuel' (n / 16) acc
  end.

(** [hex(n)] *)
Definition hex (n : Z) : string :=
  if (n <? 0)%Z
  then String.append "-0x" (hex_digits (S (Z.to_nat (Z.log2 (- n)))) (- n) "")
  else String.append "0x" (hex_digits (S (Z.to_nat (Z.log2 n))) n "").

Definition zeros (n : nat) : string := String.concat "" (repeat "0" n).

(** [s.zfill(width)]: the padding goes after a leading sign *)
Definition zfill (width : nat) (s : string) : string :=
  let pad := zeros (width - String.length s) in
  match s with
  | String c s' =>
      if Ascii.eqb c "+" || Ascii.eqb c "-"
      then String c (String.append pad s')
      else String.append pad s
  | EmptyString => pad
  end.

(** [hex(tid)[2:].zfill(64)] *)
Definition encoded (tid : Z) : string := zfill 64 (slice_from 2 (hex tid)).

(** one element of the JSON-RPC batch: its "id", and the "to" and
    "data" of its call object *)
Record call := { call_id : nat; call_to : string; call_data : string }.

(** [for i, tid in enumerate(token_ids): batch.append(...)] *)
Definition batch (selector : string) (token_ids : list Z) : list call :=
  imap (fun i tid => {| call_id := i; call_to := VEDOLO_CONTRACT;
                        call_data := String.append selector (encoded tid) |})
       token_ids.

(** the 32-byte argument word of a call *)
Definition argument (c : call) : string := slice_from 10 (call_data c).

End Abi.

(** ** fetch_early_exits.py: the RPC client and the Withdraw events *)

Module Withdraw.
Import Py.

(** What one POST to a provider yields, by the branch of the [try]
    body it selects. *)
Inductive answer (V : Type) :=
| Result (v : option V)   (* a body with a "result" key; [None] is null *)
| Error                   (* a body with an "error" key and no "result" *)
| Neither                 (* a body with neither key *)
| Raises.                 (* requests.post or resp.json() raises *)
Arguments Result {V} v.
Arguments Error {V}.
Arguments Neither {V}.
Arguments Raises {V}.

Definition is_result {V} (a : answer V) : bool :=
  match a with Result _ => true | _ => false end.

Definition payload {V} (a : answer V) : option V :=
  match a with Result v => v | _ => None end.

(** the number of RPC_URLS *)
Definition PROVIDERS : nat := 3.

(** [for attempt in range(retries)] against the provider [rpc_idx],
    with [left] attempts to go; [reqs] records the requests made, each
    by provider and attempt.  The outer [None] is the loop running
    out. *)
Fixpoint try_provider {V} (post : nat -> nat -> answer V) (rpc_idx : nat)
    (left attempt : nat) (reqs : list (nat * nat))
    : option (option V) * list (nat * nat) :=
  match left with
  | O => (None, reqs)
  | S left' =>
      let reqs := reqs ++ [(rpc_idx, attempt)] in
      match post rpc_idx attempt with
      | Result v => (Some v, reqs)
      | _ => try_provider post rpc_idx left' (S attempt) reqs
      end
  end.

(** [for rpc_idx, rpc_url in enumerate(RPC_URLS)], and the
    [return None] after it *)
Fixpoint try_providers {V} (post : nat -> nat -> answer V) (retries : nat)
    (urls : list nat) (reqs : list (nat * nat)) : option V * list (nat * nat) :=
  match urls with
  | [] => (None, reqs)
  | rpc_idx :: urls' =>
      match try_provider post rpc_idx retries 0 reqs with
      | (Some v, reqs) => (v, reqs)
      | (None, reqs) => try_providers post retries urls' reqs
      end
  end.

(** [post rpc_idx attempt] is the answer of provider [rpc_idx] to
    attempt [attempt] of this call *)
Definition rpc_call {V} (post : nat -> nat -> answer V) (retries : nat)
    : option V * list (nat * nat) :=
  try_providers post retries (seq 0 PROVIDERS) [].

(** the requests of a call that finds no result, in order *)
Definition schedule (retries : nat) : list (nat * nat) :=
  rpc_idx ← seq 0 PROVIDERS; (fun attempt => (rpc_idx, attempt)) <$> seq 0 retries.

(** *** fetch_withdraw_events *)

(** [step = 10000] *)
Definition STEP : Z := 10000.

(** the [while block <= latest_block] loop, one iteration per unit of
    fuel; [get_logs block to_block] is what [rpc_call("eth_getLogs", ...)]
    returns for the range, [ranges] records the ranges asked *)
Fixpoint withdraw_loop {L} (fuel : nat) (get_logs : Z -> Z -> option (list L))
    (latest_block block : Z) (all_logs : list L) (ranges : list (Z * Z))
    : option (list L * list (Z * Z)) :=
  match fuel with
  | O => None
  | S fuel' =>
      if (block <=? latest_block)%Z then
        let to_block := Z.min (block + STEP - 1) latest_block in
        let all_logs :=
          match get_logs block to_block with
          | Some ((_ :: _) as result) => all_logs ++ result
          | _ => all_logs
          end in
        withdraw_loop fuel' get_logs latest_block (to_block + 1) all_logs
          (ranges ++ [(block, to_block)])
      else Some (all_logs, ranges)
  end.

(** [block_number] is what [rpc_call("eth_blockNumber", [])] returns;
    [int(None, 16)] raises.  The outer [None] is the fuel running
    out. *)
Definition fetch_withdraw_events {L} (fuel : nat) (block_number : option string)
    (get_logs : Z -> Z -> option (list L))
    : option (py (list L * list (Z * Z))) :=
  match block_number ≫= int16 with
  | None => Some Raised
  | Some latest_block => Ok <$> withdraw_loop fuel get_logs latest_block 0 [] []
  end.

(** the logs a range contributes to the result: none when its call
    fails or finds nothing *)
Definition found {L} (get_logs : Z -> Z -> option (list L)) (r : Z * Z) : list L :=
  default [] (get_logs r.1 r.2).

(** the [i]-th range of a scan up to [latest_block] *)
Definition range (latest_block : Z) (i : nat) : Z * Z :=
  (Z.of_nat i * STEP, Z.min (Z.of_nat i * STEP + STEP - 1) latest_block)%Z.

(** *** decode_withdraw_event *)

(** a log of [eth_getLogs], by the keys the decoder reads *)
Record raw_log := {
  topics : list string;
  data : option string;
  blockNumber : option string;
  transactionHash : option string;
}.

Definition decode_withdraw_event `{PyFloat F} (log : raw_log)
    : py (EarlyExits.event F) :=
  t ← of_option (topics log !! 1);
  let provider := String.append "0x" (slice_from 26 t) in
  let data := slice_from 2 (default "0x" (data log)) in
  token_id ← of_option (int16 (slice 0 64 data));
  value_raw ← of_option (int16 (slice 64 128 data));
  ts ← of_option (int16 (slice 128 192 data));
  b ← of_option (blockNumber log ≫= int16);
  h ← of_option (transactionHash log);
  Ok {| EarlyExits.provider := lower provider;
        EarlyExits.token_id := token_id;
        EarlyExits.value := fdiv (of_int value_raw) (of_int (10 ^ 18));
        EarlyExits.timestamp := ts;
        EarlyExits.block := b;
        EarlyExits.tx_hash := h |}.

(** Phase 2 of [main]: [for log in logs: events.append(decode_withdraw_event(log))] *)
Fixpoint decode_all `{PyFloat F} (logs : list raw_log)
    : py (list (EarlyExits.event F)) :=
  match logs with
  | [] => Ok []
  | log :: logs' =>
      ev ← decode_withdraw_event log; evs ← decode_all logs'; Ok (ev :: evs)
  end.

(** the data of a Withdraw log that carries the three words *)
Definition withdraw_data (token_id value ts : Z) : string :=
  String.append "0x"
    (String.append (Abi.encoded token_id)
       (String.append (Abi.encoded value) (Abi.encoded ts))).

End Withdraw.

(** ** update_data.py: the batches of [fetch_locked_dolo] on the wire *)

Module Batches.
Import UpdateData.

(** a POST that brings no result list: a 429 or an exception *)
Definition unanswered `{PyFloat F} (h : http) : bool :=
  match h with Results _ => false | _ => true end.

(** [make_batch_call] against a network: [net chunk retry] is the
    answer to the POST of attempt [retry] for the batch [chunk] *)
Definition call_over `{PyFloat F} (net : list Z -> nat -> http) (chunk : list Z)
    : gmap Z (locked F) :=
  make_batch_call (net chunk) chunk.

(** the content of the cache file after a flush of [c]; no file when
    nothing was flushed *)
Definition on_disk `{PyFloat F} (p : progress F) : option (gmap string (locked F)) :=
  last (saves p).

End Batches.

(** ** update_data.py: vote weights *)

Module Votes.
Import Py.

(** [l[i]] with Python's negative indices; [None] is IndexError *)
Definition index {A} (l : list A) (i : Z) : option A :=
  if (0 <=? i)%Z then l !! Z.to_nat i
  else if (- Z.of_nat (length l) <=? i)%Z then l !! Z.to_nat (Z.of_nat (length l) + i)
  else None.

(** one element of a JSON-RPC batch answer: its "id" and "result",
    [None] when the key is absent *)
Record item := { item_id : option Z; item_result : option string }.

(** the answer to one POST of the batch *)
Inductive http :=
| TooManyRequests                   (* status 429 *)
| Broken                            (* any exception *)
| NotList                           (* a body that is not a list *)
| Results (rs : list item).

Definition is_results (h : http) : bool :=
  match h with Results _ => true | _ => false end.

(** the number of RPC_URLS *)
Definition ENDPOINTS : nat := 3.

Section WithFloat.
Context `{PyFloat F}.

(** the weight an element carries: lines 320-324 *)
Definition weight_of (r : item) : py F :=
  match item_result r with
  | Some raw =>
      if (2 <? String.length raw)%nat
      then val ← of_option (int16 raw); Ok (fdiv (of_int val) (of_int (10 ^ 18)))
      else Ok (of_int 0)
  | None => Ok (of_int 0)
  end.

(** [for r in results]; the flag tells whether the loop ran to its
    end, [out] keeps what was stored before an exception *)
Fixpoint store_votes (token_ids : list Z) (results : list item) (out : gmap Z F)
    : gmap Z F * bool :=
  match results with
  | [] => (out, true)
  | r :: rs =>
      let idx := default 0%Z (item_id r) in
      if (idx <? Z.of_nat (length token_ids))%Z then
        match index token_ids idx with
        | None => (out, false)
        | Some tid =>
            match weight_of r with
            | Ok w => store_votes token_ids rs (<[tid := w]> out)
            | Raised => (out, false)
            end
        end
      else store_votes token_ids rs out
  end.

(** [for tid in token_ids: if tid not in out: out[tid] = 0.0] *)
Definition fill_zeros (token_ids : list Z) (out : gmap Z F) : gmap Z F :=
  fold_left (fun o tid => match o !! tid with
                          | None => <[tid := of_int 0]> o
                          | Some _ => o
                          end) token_ids out.

(** [for retry in range(3)] against one endpoint; the flag tells
    whether the function returned from inside the loop *)
Fixpoint vote_attempts (retries retry : nat) (post : nat -> http)
    (token_ids : list Z) (out : gmap Z F) : gmap Z F * bool :=
  match retries with
  | O => (out, false)
  | S retries' =>
      match post retry with
      | Results rs =>
          let r := store_votes token_ids rs out in
          if r.2 then (fill_zeros token_ids r.1, true)
          else vote_attempts retries' (S retry) post token_ids r.1
      | _ => vote_attempts retries' (S retry) post token_ids out
      end
  end.

(** [for rpc_url in RPC_URLS], with its [if out: return out], and the
    final fallback after it *)
Fixpoint vote_endpoints (post : nat -> nat -> http) (urls : list nat)
    (token_ids : list Z) (out : gmap Z F) : gmap Z F :=
  match urls with
  | [] => fill_zeros token_ids out
  | url :: urls' =>
      let r := vote_attempts 3 0 (post url) token_ids out in
      if r.2 then r.1
      else if decide (r.1 = ∅) then vote_endpoints post urls' token_ids r.1
      else r.1
  end.

(** [post url retry] is the answer of endpoint [url] to the POST of
    attempt [retry] *)
Definition make_vote_batch_call (post : nat -> nat -> http) (token_ids : list Z)
    : gmap Z F :=
  vote_endpoints post (seq 0 ENDPOINTS) token_ids ∅.

(** *** fetch_vote_weights *)

(** the state of the window loop: the weights, the counter and the
    batches handed to [make_vote_batch_call] *)
Record weights := {
  vote_weights : gmap Z F;
  done : nat;
  vote_batches : list (list Z);
}.

(** [for tid, weight in future.result().items()] *)
Definition store_weights (call : list Z -> gmap Z F) (w : weights)
    (chunk : list Z) : weights :=
  let out := call chunk in
  {| vote_weights := out ∪ vote_weights w;
     done := done w + size out;
     vote_batches := vote_batches w |}.

(** the [while chunk_idx < len(chunks)] loop, by its windows *)
Fixpoint weigh_windows (call : list Z -> gmap Z F)
    (completion : list (list Z) -> list (list Z))
    (windows : list (list (list Z))) (w : weights) : weights :=
  match windows with
  | [] => w
  | window :: windows' =>
      let w := {| vote_weights := vote_weights w; done := done w;
                  vote_batches := vote_batches w ++ window |} in
      weigh_windows call completion windows'
        (fold_left (store_weights call) (completion window) w)
  end.

Definition fetch_vote_weights (call : list Z -> gmap Z F)
    (completion : list (list Z) -> list (list Z)) (all_token_ids : list Z)
    : weights :=
  weigh_windows call completion
    (chunks UpdateData.MAX_WORKERS (chunks UpdateData.BATCH_SIZE all_token_ids))
    {| vote_weights := ∅; done := 0; vote_batches := [] |}.

(** an element the result loop gets through: its id is no lower
    than [-len(token_ids)] and its result, if long enough to be
    read, is a hexadecimal number *)
Definition readable (token_ids : list Z) (r : item) : Prop :=
  (- Z.of_nat (length token_ids) <= default 0 (item_id r))%Z
  /\ exists w, weight_of r = Ok w.

(** every list the endpoints answer with holds readable elements *)
Definition orderly (post : nat -> nat -> http) (token_ids : list Z) : Prop :=
  forall url retry rs, post url retry = Results rs ->
    Forall (readable token_ids) rs.

(** [make_vote_batch_call] against a network: [net chunk url retry]
    is the answer of endpoint [url] to the POST of attempt [retry]
    for the batch [chunk] *)
Definition call_over (net : list Z -> nat -> nat -> http) (chunk : list Z)
    : gmap Z F :=
  make_vote_batch_call (net chunk) chunk.

End WithFloat.

Arguments weights F : clear implicits.

End Votes.

(** ** update_data.py: the merge of [main] *)

Module Merge.
Import Py UpdateData.

Section WithFloat.
Context `{PyFloat F}.

(** an element of "token_details" *)
Record detail := { d_id : Z; d_dolo : F; d_end : Z; d_vote_weight : F }.

(** a holder after the merge *)
Record merged := {
  m_address : string;
  m_nft_count : nat;
  m_token_ids : list Z;
  total_dolo : F;
  total_vote_weight : F;
  earliest_lock_end : Z;
  latest_lock_end : Z;
  token_details : list detail;
}.

(** the variables of the loop over the tokens of one holder;
    [earliest_end] is [None] while it is [float('inf')] *)
Record sums := {
  holder_dolo : F;
  holder_vote : F;
  details : list detail;
  earliest_end : option Z;
  latest_end : Z;
}.

(** the lock end the cache gives a token:
    [cache.get(str(tid), {"amount": 0, "end": 0}).get("end", 0)] *)
Definition end_of (cache : gmap string (locked F)) (tid : Z) : Z :=
  lock_end (default zero_locked (cache !! str tid)).

(** the body of [for tid in holder["token_ids"]] *)
Definition add_token (cache : gmap string (locked F)) (vote_weights : gmap Z F)
    (s : sums) (tid : Z) : sums :=
  let ld := default zero_locked (cache !! str tid) in
  let amt := amount ld in
  let end_ := lock_end ld in
  let vw := default (of_int 0) (vote_weights !! tid) in
  {| holder_dolo := fadd (holder_dolo s) amt;
     holder_vote := fadd (holder_vote s) vw;
     earliest_end :=
       if (0 <? end_)%Z
       then Some match earliest_end s with
                 | None => end_
                 | Some e => if (end_ <? e)%Z then end_ else e
                 end
       else earliest_end s;
     latest_end :=
       if (0 <? end_)%Z
       then (if (latest_end s <? end_)%Z then end_ else latest_end s)
       else latest_end s;
     details := details s ++ [ {| d_id := tid; d_dolo := py_round 2 amt;
                                  d_end := end_; d_vote_weight := py_round 4 vw |} ] |}.

Definition sums0 : sums :=
  {| holder_dolo := of_int 0; holder_vote := of_int 0; details := [];
     earliest_end := None; latest_end := 0 |}.

(** the body of [for holder in holders]: the holder with its new
    keys, and what it adds to the two totals *)
Definition merge_holder (cache : gmap string (locked F)) (vote_weights : gmap Z F)
    (h : holder) : merged * (F * F) :=
  let s := fold_left (add_token cache vote_weights) (token_ids h) sums0 in
  ({| m_address := address h; m_nft_count := nft_count h;
      m_token_ids := token_ids h;
      total_dolo := py_round 2 (holder_dolo s);
      total_vote_weight := py_round 4 (holder_vote s);
      earliest_lock_end := default 0%Z (earliest_end s);
      latest_lock_end := latest_end s;
      token_details := details s |},
   (holder_dolo s, holder_vote s)).

(** [holders.sort(key=lambda h: h["total_dolo"], reverse=True)]: a
    stable sort, holders of equal totals keep their order *)
Fixpoint insert_by_dolo (x : merged) (l : list merged) : list merged :=
  match l with
  | [] => [x]
  | y :: l' =>
      if fltb (total_dolo x) (total_dolo y) then y :: insert_by_dolo x l'
      else x :: y :: l'
  end.

Definition sort_by_dolo (l : list merged) : list merged :=
  fold_right insert_by_dolo [] l.

(** a holder with its "rank" *)
Record ranked := { rank : nat; ranked_holder : merged }.

(** [for i, h in enumerate(holders, 1): h["rank"] = i] *)
Definition assign_ranks (l : list merged) : list ranked :=
  imap (fun i h => {| rank := S i; ranked_holder := h |}) l.

(** [h["address"] = Web3.to_checksum_address(h["address"])], skipped
    when it raises or web3 is missing: [checksum] is what becomes of
    an address *)
Definition with_address (checksum : string -> string) (r : ranked) : ranked :=
  let h := ranked_holder r in
  {| rank := rank r;
     ranked_holder :=
       {| m_address := checksum (m_address h); m_nft_count := m_nft_count h;
          m_token_ids := m_token_ids h; total_dolo := total_dolo h;
          total_vote_weight := total_vote_weight h;
          earliest_lock_end := earliest_lock_end h;
          latest_lock_end := latest_lock_end h;
          token_details := token_details h |} |}.

(** the "stats" and "holders" of vedolo_holders.json *)
Record output := {
  out_stats : stats;
  total_locked_dolo : F;
  total_vote_weight_sum : F;
  out_holders : list ranked;
}.

(** the merge of [main], from the results of the three phases on *)
Definition merge (checksum : string -> string) (holders : list holder) (st : stats)
    (cache : gmap string (locked F)) (vote_weights : gmap Z F) : output :=
  let ms := map (merge_holder cache vote_weights) holders in
  let totals := fold_left (fun t m => (fadd t.1 m.2.1, fadd t.2 m.2.2)) ms
                  (of_int 0, of_int 0) in
  {| out_stats := st;
     total_locked_dolo := py_round 2 totals.1;
     total_vote_weight_sum := py_round 4 totals.2;
     out_holders :=
       map (with_address checksum) (assign_ranks (sort_by_dolo (map fst ms))) |}.

(** the lock ends of the tokens of a holder that count: those above
    zero *)
Definition counted_ends (cache : gmap string (locked F)) (tids : list Z) : list Z :=
  List.filter (fun e => (0 <? e)%Z) (map (end_of cache) tids).

(** what the loop over the tokens of a holder knows of the ends
    [ends] counted so far *)
Definition summary (s : sums) (ends : list Z) : Prop :=
  match ends with
  | [] => earliest_end s = None /\ latest_end s = 0%Z
  | _ => exists e, earliest_end s = Some e /\ e ∈ ends /\ latest_end s ∈ ends
           /\ Forall (fun x => (0 < x)%Z /\ (e <= x <= latest_end s)%Z) ends
  end.

(** a holder that may directly precede another in the sorted list:
    its total is not below the other's *)
Definition descending (a b : merged) : Prop :=
  fltb (total_dolo a) (total_dolo b) = false.

End WithFloat.

Arguments merged F : clear implicits.
Arguments ranked F : clear implicits.
Arguments output F : clear implicits.

End Merge.

(** ** fetch_early_exits.py and update_exercised_usd.py: reading what
    the runs persist *)

Module Exits.
Import EarlyExits.

(** the entries of the early exits, in the order of the events:
    what Phase 4 appends to [early_exits] *)
Definition early `{PyFloat F} (c : gmap string (penalty F))
    (events : list (event F)) : list (entry (F := F)) :=
  List.filter (fun e : entry => is_early_exit e.2) (resolved c events).

(** the entries of a list that carry the timestamp [t] *)
Definition at_time {F} (t : Z) (l : list (entry (F := F))) : list entry :=
  List.filter (fun e : entry => (timestamp e.1 =? t)%Z) l.

(** an entry that may precede another in the sorted list *)
Definition not_earlier {F} (a b : entry (F := F)) : Prop :=
  (timestamp b.1 <= timestamp a.1)%Z.

End Exits.

Module Exercised.
Import Py.




End Exercised.

(** ** calculate_avg_lock.py: the lock durations *)

Module Durations.
Import Py.

(** [3 * 365 * 86400], the sanity bound of three years *)
Definition MAX_DURATION : Z := 3 * 365 * 86400.

(** [extract_lock_duration(tx)]; [Raised] is the [KeyError] of a
    missing "input" or "timeStamp" or the [ValueError] of an [int] *)
Definition extract_lock_duration (tx : obj) : py (option Z) :=
  inp ← of_option (tx !! "input");
  if (String.length inp <? 266)%nat then Ok None
  else
    let params_hex := slice_from 10 inp in
    lock_end ← of_option (int16 (slice (2 * 64) (3 * 64) params_hex));
    tx_time ← of_option ((tx !! "timeStamp") ≫= int10);
    let duration_seconds := (lock_end - tx_time)%Z in
    if (duration_seconds <=? 0)%Z || (MAX_DURATION <? duration_seconds)%Z
    then Ok None
    else Ok (Some duration_seconds).

(** the loop of [main] that fills [durations] *)
Fixpoint collect (durations : list Z) (txs : list obj) : py (list Z) :=
  match txs with
  | [] => Ok durations
  | tx :: txs' =>
      dur ← extract_lock_duration tx;
      collect (match dur with
               | Some d => durations ++ [d]
               | None => durations
               end) txs'
  end.

(** the call data of an exercise: the selector and four words, the
    third of which is the end of the lock *)
Definition exercise_input (selector w0 w1 : string) (lock_end : Z) (rest : string)
    : string :=
  String.append selector
    (String.append w0 (String.append w1 (String.append (Abi.encoded lock_end) rest))).

(** a duration the script keeps *)
Definition in_window (d : Z) : Prop := (0 < d <= MAX_DURATION)%Z.

(** the count a key of the distribution holds *)
Definition count (b : gmap string nat) (k : string) : nat := default 0 (b !! k).

Definition BUCKETS : list string :=
  ["< 1 month"; "1-3 months"; "3-6 months"; "6-12 months"; "1-2 years"].

(** the sum of the five counts *)
Definition counted (b : gmap string nat) : nat :=
  count b "< 1 month" + count b "1-3 months" + count b "3-6 months"
  + count b "6-12 months" + count b "1-2 years".

End Durations.

(** ** generate_dolo_holders.py: balances and holders *)

(** The subtraction and the [>=] of floats, which only this script
    uses. *)
Class PyFloatOrd (F : Type) `{PyFloat F} := {
  fsub : F -> F -> F;              (* a - b *)
  fgeb : F -> F -> bool;           (* a >= b *)
}.

#[global] Instance exact_ord : PyFloatOrd Q := {|
  fsub a b := Qred (a - b);
  fgeb a b := negb (Exact.lt a b);
|}.

Module DoloHolders.
Import Py.

Definition ZERO : string := "0x0000000000000000000000000000000000000000".

(** [(int(t.get("blockNumber", 0)), int(t.get("logIndex", 0)))] *)
Definition sort_key (t : obj) : py (Z * Z) :=
  b ← UpdateData.int_field t "blockNumber" 0;
  i ← UpdateData.int_field t "logIndex" 0;
  Ok (b, i).

Fixpoint keyed (txs : list obj) : py (list ((Z * Z) * obj)) :=
  match txs with
  | [] => Ok []
  | t :: txs' => k ← sort_key t; r ← keyed txs'; Ok ((k, t) :: r)
  end.

(** [txs.sort(key=...)]: the keys are computed first, then the list
    is sorted, stably *)
Definition sort_txs (txs : list obj) : py (list obj) :=
  ks ← keyed txs; Ok (map snd (fold_right UpdateData.insert_key [] ks)).

Section WithFloat.
Context `{PyFloatOrd F}.

(** [MIN_BALANCE = 1.0] *)
Definition MIN_BALANCE : F := of_int 1.

(** [balances.get(addr, 0)] *)
Definition balance_of (balances : gmap string F) (addr : string) : F :=
  default (of_int 0) (balances !! addr).

(** the body of [for tx in txs] *)
Definition apply_transfer (balances : gmap string F) (tx : obj)
    : py (gmap string F) :=
  let from_addr := lower (get_str tx "from") in
  let to_addr := lower (get_str tx "to") in
  value_raw ← UpdateData.int_field tx "value" 0;
  let value := fdiv (of_int value_raw) (of_int (10 ^ 18)) in
  let balances :=
    if String.eqb from_addr (lower ZERO) then balances
    else <[from_addr := fsub (balance_of balances from_addr) value]> balances in
  let balances :=
    if String.eqb to_addr (lower ZERO) then balances
    else <[to_addr := fadd (balance_of balances to_addr) value]> balances in
  Ok balances.

Fixpoint apply_transfers (balances : gmap string F) (txs : list obj)
    : py (gmap string F) :=
  match txs with
  | [] => Ok balances
  | tx :: txs' => b ← apply_transfer balances tx; apply_transfers b txs'
  end.

(** the loop that fills [result]: the balances of at least
    [MIN_BALANCE], rounded *)
Definition above_minimum (balances : gmap string F) : gmap string F :=
  py_round 4 <$>
    filter (fun kv : string * F => fgeb kv.2 MIN_BALANCE = true) balances.

(** [build_balances(txs, chain_key)] *)
Definition build_balances (txs : list obj) : py (gmap string F) :=
  sorted ← sort_txs txs;
  balances ← apply_transfers ∅ sorted;
  Ok (above_minimum balances).

(** an element of "holders" *)
Record holder := {
  address : string;
  balance : F;
  balance_eth : F;
  balance_bera : F;
  chains : list string;
}.

(** the body of [for addr in all_addrs] *)
Definition holder_of (eth_balances bera_balances : gmap string F) (addr : string)
    : holder :=
  let bal_eth := balance_of eth_balances addr in
  let bal_bera := balance_of bera_balances addr in
  {| address := addr;
     balance := py_round 4 (fadd bal_eth bal_bera);
     balance_eth := if fgeb bal_eth MIN_BALANCE then py_round 4 bal_eth else of_int 0;
     balance_bera := if fgeb bal_bera MIN_BALANCE then py_round 4 bal_bera else of_int 0;
     chains := (if fgeb bal_eth MIN_BALANCE then ["eth"] else [])
               ++ (if fgeb bal_bera MIN_BALANCE then ["bera"] else []) |}.

(** [holders.sort(key=lambda h: h["balance"], reverse=True)]: a
    stable sort, holders of equal balance keep their order *)
Fixpoint insert_by_balance (x : holder) (l : list holder) : list holder :=
  match l with
  | [] => [x]
  | y :: l' =>
      if fltb (balance x) (balance y) then y :: insert_by_balance x l'
      else x :: y :: l'
  end.

Definition sort_by_balance (l : list holder) : list holder :=
  fold_right insert_by_balance [] l.

(** a holder with its "rank" *)
Record ranked := { rank : nat; ranked_holder : holder }.

(** [for i, h in enumerate(holders, 1): h["rank"] = i], then
    [h["address"] = Web3.to_checksum_address(h["address"])], skipped
    when it raises or web3 is missing: [checksum] is what becomes of
    an address *)
Definition finish (checksum : string -> string) (i : nat) (h : holder) : ranked :=
  {| rank := S i;
     ranked_holder :=
       {| address := checksum (address h); balance := balance h;
          balance_eth := balance_eth h; balance_bera := balance_bera h;
          chains := chains h |} |}.

(** [merge_holders(eth_balances, bera_balances)]; [all_addrs] is the
    order in which the set of the addresses is iterated *)
Definition merge_holders (checksum : string -> string) (all_addrs : list string)
    (eth_balances bera_balances : gmap string F) : list ranked :=
  imap (finish checksum)
    (sort_by_balance (map (holder_of eth_balances bera_balances) all_addrs)).

(** an order in which the set [set(eth) | set(bera)] may be
    iterated *)
Definition iterates (all_addrs : list string)
    (eth_balances bera_balances : gmap string F) : Prop :=
  all_addrs ≡ₚ elements (dom eth_balances ∪ dom bera_balances).

End WithFloat.

Arguments holder F : clear implicits.
Arguments ranked F : clear implicits.

(** the addresses a list of transfers names, in lower case *)
Definition parties (txs : list obj) : list string :=
  txs ≫= (fun tx => [lower (get_str tx "from"); lower (get_str tx "to")]).

End DoloHolders.

(** ** Further concrete runs *)

Module Runs.
Import Py.

(** *** update_exercised_usd.py: what the two runs save *)

(** the file after the first run of [Scenarios.two_runs] *)
Definition first_saved : UpdateExercised.exercised Q :=
  Eval vm_compute in
    match UpdateExercised.main None [Scenarios.tx_a] Scenarios.small_payments
            "2026-01-01" with
    | Ok (Some d) => d
    | _ => UpdateExercised.load_existing None
    end.

(** the file after the second run *)
Definition second_saved : UpdateExercised.exercised Q :=
  Eval vm_compute in
    match UpdateExercised.main (Some first_saved) [Scenarios.tx_b]
            Scenarios.small_payments "2026-01-02" with
    | Ok (Some d) => d
    | _ => UpdateExercised.load_existing None
    end.

(** *** calculate_avg_lock.py: an exercise at 1750000000 that locks
    until 1760000000, and a transaction with a bare selector *)
Definition timed_exercise : obj :=
  <["input" := Durations.exercise_input "0xa88f8139" (Abi.encoded 1) (Abi.encoded 2)
                 1760000000 (Abi.encoded 0)]>
    (<["timeStamp" := "1750000000"]> ∅).

Definition bare_exercise : obj := <["input" := "0xa88f8139"]> ∅.

(** *** generate_dolo_holders.py: a mint of 5 DOLO and a transfer of 2,
    given in the reverse order; and the balances of two chains *)
Definition dolo_transfer (blk from_ to_ value : string) : obj :=
  <["blockNumber" := blk]> (<["logIndex" := "0"]> (<["from" := from_]>
    (<["to" := to_]> (<["value" := value]> ∅)))).

Definition two_transfers : list obj :=
  [ dolo_transfer "20" "0xAA" "0xBb" "2000000000000000000";
    dolo_transfer "10" DoloHolders.ZERO "0xAA" "5000000000000000000" ].

Definition eth_balances : gmap string Q := <["0xaa" := 3%Q]> (<["0xbb" := 2%Q]> ∅).
Definition bera_balances : gmap string Q := <["0xbb" := 7%Q]> (<["0xcc" := 1%Q]> ∅).

(** *** update_exercised_usd.get_usdc_from_receipt: a USDC.e approval,
    and a USDC.e payment of [raw] units to the vester *)
Definition approval_log : Receipt.log :=
  {| Receipt.address := "0x549943e04f40284185054145c6e4e9568c1d3241";
     Receipt.topics :=
       [ "0x8c5be1e5ebec7d5bd14f71427d1e84f3dd0314c0f7b2291e5b200ac8c7c3b925";
         "0x000000000000000000000000aaaaaaaaaaaaaaaaaaaaaaaaaaaaaaaaaaaaaaaa";
         "0x0000000000000000000000003e9b9a16743551da49b5e136c716bba7932d2cec" ];
     Receipt.data := Some "0x1" |}.

Definition payment_log (raw : string) : Receipt.log :=
  {| Receipt.address := "0x549943E04f40284185054145c6E4e9568C1D3241";
     Receipt.topics :=
       [ Receipt.TRANSFER_TOPIC;
         "0x000000000000000000000000aaaaaaaaaaaaaaaaaaaaaaaaaaaaaaaaaaaaaaaa";
         "0x0000000000000000000000003E9b9A16743551DA49b5e136C716bBa7932d2cEc" ];
     Receipt.data := Some raw |}.

(** *** fetch_early_exits.fetch_withdraw_events: a scan up to block
    25000 (0x61a8) whose second range fails *)
Definition second_fails (a b : Z) : option (list string) :=
  if (a =? 0)%Z then Some ["w1"; "w2"]
  else if (a =? 10000)%Z then None
  else Some ["w3"].

(** *** fetch_early_exits.decode_withdraw_event: the log of a
    withdrawal of 5 DOLO from lock 7, and a log without data *)
Definition withdraw_log : Withdraw.raw_log :=
  {| Withdraw.topics :=
       [ "0x02f25270a4d87bea75db541cdfe559334a275b4a233520ed6c0a2429667cca94";
         "0x0000000000000000000000001111111111111111111111111111111111AbCdEf" ];
     Withdraw.data :=
       Some (Withdraw.withdraw_data 7 (5 * 10 ^ 18) 1700000000);
     Withdraw.blockNumber := Some (Abi.hex 300);
     Withdraw.transactionHash := Some "0xabc" |}.

Definition bare_log : Withdraw.raw_log :=
  {| Withdraw.topics :=
       [ "0x02f25270a4d87bea75db541cdfe559334a275b4a233520ed6c0a2429667cca94";
         "0x0000000000000000000000001111111111111111111111111111111111abcdef" ];
     Withdraw.data := None;
     Withdraw.blockNumber := Some "0x12c";
     Withdraw.transactionHash := Some "0xdef" |}.

(** *** update_data.make_vote_batch_call: the first endpoint answers
    429 once, then with a weight of 1e18 for the second token and an
    element without id and weight *)
Definition slow_endpoint (url retry : nat) : Votes.http :=
  match url, retry with
  | 0, 0 => Votes.TooManyRequests
  | _, _ =>
      Votes.Results
        [ {| Votes.item_id := Some 1%Z;
             Votes.item_result := Some "0xde0b6b3a7640000" |};
          {| Votes.item_id := None; Votes.item_result := Some "0x" |} ]
  end.

(** a network on which every POST raises *)
Definition dead_endpoints (url retry : nat) : Votes.http := Votes.Broken.
Definition dead_network (chunk : list Z) : nat -> nat -> Votes.http := dead_endpoints.

(** *** update_data.main: two holders, the second with the greater
    total *)
Definition two_holders : list UpdateData.holder :=
  [ {| UpdateData.address := "0xaa"; UpdateData.nft_count := 1;
       UpdateData.token_ids := [1%Z] |};
    {| UpdateData.address := "0xbb"; UpdateData.nft_count := 2;
       UpdateData.token_ids := [2%Z; 3%Z] |} ].

Definition two_holders_stats : UpdateData.stats :=
  {| UpdateData.total_minted := 3; UpdateData.total_burned := 0;
     UpdateData.active_nfts := 3; UpdateData.unique_holders := 2 |}.

Definition three_locks : gmap string (UpdateData.locked Q) :=
  <["1" := {| UpdateData.amount := 10%Q; UpdateData.lock_end := 1800000000%Z;
              UpdateData.error := false |}]>
  (<["2" := {| UpdateData.amount := 25%Q; UpdateData.lock_end := 1750000000%Z;
               UpdateData.error := false |}]>
  (<["3" := {| UpdateData.amount := 5%Q; UpdateData.lock_end := 0%Z;
               UpdateData.error := true |}]> ∅)).

End Runs.


(** * Properties *)


Module PagedFacts.
Import Py Paged.

Lemma PAGE_SIZE_pos : 0 < PAGE_SIZE.
Proof. unfold PAGE_SIZE. lia. Qed.

Local Opaque PAGE_SIZE.

Lemma paged_source_stop items sb p :
  stop (paged_source items sb p)
  = bool_decide (take PAGE_SIZE (drop ((p - 1) * PAGE_SIZE) items) = []).
Proof.
  unfold stop, paged_source. cbn [status result].
  destruct (take PAGE_SIZE (drop ((p - 1) * PAGE_SIZE) items)); reflexivity.
Qed.

Lemma paged_source_result items sb p :
  result (paged_source items sb p) = take PAGE_SIZE (drop ((p - 1) * PAGE_SIZE) items).
Proof. reflexivity. Qed.

Lemma take_page_nil (rest : list obj) :
  take PAGE_SIZE rest = [] -> rest = [].
Proof.
  pose proof PAGE_SIZE_pos. destruct rest; [done|].
  destruct PAGE_SIZE; [lia|]. discriminate.
Qed.

(** the three cases of a page: nothing left, a last short page, a
    full page *)
Lemma page_cases (rest : list obj) :
  (rest = [] /\ length rest / PAGE_SIZE = 0)
  \/ (rest <> [] /\ length rest < PAGE_SIZE /\ length rest / PAGE_SIZE = 0
      /\ take PAGE_SIZE rest = rest)
  \/ (PAGE_SIZE <= length rest /\ length (take PAGE_SIZE rest) = PAGE_SIZE
      /\ length rest / PAGE_SIZE = S (length (drop PAGE_SIZE rest) / PAGE_SIZE)).
Proof.
  pose proof PAGE_SIZE_pos as Hp.
  destruct rest as [|x rest'] eqn:E.
  - left. split; [done|]. apply Nat.div_small. simpl. lia.
  - rewrite <- E. assert (rest <> []) by (subst; discriminate).
    destruct (decide (length rest < PAGE_SIZE)) as [Hlt|Hge].
    + right; left. repeat split; [done|done| |].
      * by apply Nat.div_small.
      * apply take_ge. lia.
    + right; right. repeat split; [lia| |].
      * rewrite length_take. lia.
      * rewrite length_drop.
        replace (length rest) with ((length rest - PAGE_SIZE) + 1 * PAGE_SIZE) at 1 by lia.
        rewrite Nat.div_add by lia. lia.
Qed.

Lemma get_new_transactions_loop_run items sb k :
  forall n p acc reqs,
    1 <= p ->
    length (drop ((p - 1) * PAGE_SIZE) items) / PAGE_SIZE = n ->
    get_new_transactions_loop (S n + k) (paged_source items) sb p acc reqs
    = Some (acc ++ drop ((p - 1) * PAGE_SIZE) items, reqs ++ seq p (S n)).
Proof.
  induction n as [|n IH]; intros p acc reqs Hp Hn;
    rewrite Nat.add_succ_l; cbn [get_new_transactions_loop];
    rewrite paged_source_stop, ?paged_source_result;
    set (rest := drop ((p - 1) * PAGE_SIZE) items) in *;
    destruct (page_cases rest) as [[E _]|[(Hne & Hlt & H0 & Ht)|(Hge & Hl & Hd)]].
  - rewrite E, take_nil, bool_decide_eq_true_2 by done. by rewrite app_nil_r.
  - rewrite Ht. rewrite bool_decide_eq_false_2 by done.
    apply Nat.ltb_lt in Hlt. rewrite Hlt. reflexivity.
  - rewrite Hn in Hd. discriminate.
  - rewrite E in Hn. cbn in Hn. rewrite Nat.div_small in Hn by (pose proof PAGE_SIZE_pos; lia). lia.
  - rewrite Hn in H0. discriminate.
  - rewrite bool_decide_eq_false_2.
    2:{ intros E. rewrite E in Hl. cbn in Hl. pose proof PAGE_SIZE_pos. lia. }
    rewrite Hl, Nat.ltb_irrefl.
    assert (Hrest : drop ((S p - 1) * PAGE_SIZE) items = drop PAGE_SIZE rest).
    { unfold rest. rewrite drop_drop. f_equal. nia. }
    rewrite (IH (S p)); [|lia|rewrite Hrest; lia].
    rewrite Hrest. f_equal. f_equal.
    + by rewrite <- app_assoc, take_drop.
    + rewrite <- app_assoc. reflexivity.
Qed.

Lemma get_all_exercise_txs_loop_run items k :
  forall n p acc reqs,
    1 <= p ->
    length (drop ((p - 1) * PAGE_SIZE) items) / PAGE_SIZE = n ->
    get_all_exercise_txs_loop (S n + k) (paged_source items) p acc reqs
    = Some (acc ++ List.filter is_exercise (drop ((p - 1) * PAGE_SIZE) items),
            reqs ++ seq p (S n)).
Proof.
  induction n as [|n IH]; intros p acc reqs Hp Hn;
    rewrite Nat.add_succ_l; cbn [get_all_exercise_txs_loop];
    rewrite paged_source_stop, ?paged_source_result;
    set (rest := drop ((p - 1) * PAGE_SIZE) items) in *;
    destruct (page_cases rest) as [[E _]|[(Hne & Hlt & H0 & Ht)|(Hge & Hl & Hd)]].
  - rewrite E, take_nil, bool_decide_eq_true_2 by done. by rewrite app_nil_r.
  - rewrite Ht. rewrite bool_decide_eq_false_2 by done.
    apply Nat.ltb_lt in Hlt. rewrite Hlt. reflexivity.
  - rewrite Hn in Hd. discriminate.
  - rewrite E in Hn. cbn in Hn. rewrite Nat.div_small in Hn by (pose proof PAGE_SIZE_pos; lia). lia.
  - rewrite Hn in H0. discriminate.
  - rewrite bool_decide_eq_false_2.
    2:{ intros E. rewrite E in Hl. cbn in Hl. pose proof PAGE_SIZE_pos. lia. }
    rewrite Hl, Nat.ltb_irrefl.
    assert (Hrest : drop ((S p - 1) * PAGE_SIZE) items = drop PAGE_SIZE rest).
    { unfold rest. rewrite drop_drop. f_equal. nia. }
    rewrite (IH (S p)); [|lia|rewrite Hrest; lia].
    rewrite Hrest. f_equal. f_equal.
    + rewrite <- app_assoc, <- List.filter_app, take_drop. reflexivity.
    + rewrite <- app_assoc. reflexivity.
Qed.

(** C4 (as amended): N items take N/P + 1 requests, one more than
    ceil(N/P) exactly when P divides N *)
Theorem page_number_fetchers_requests (items : list obj) (sb : Z) (k : nat) :
  let n := length items / PAGE_SIZE in
  get_new_transactions (S n + k) (paged_source items) sb
    = Some (items, seq 1 (S n))
  /\ get_all_exercise_txs (S n + k) (paged_source items)
    = Some (List.filter is_exercise items, seq 1 (S n))
  /\ length (seq 1 (S n))
     = ceil_div (length items) PAGE_SIZE
       + (if (length items mod PAGE_SIZE =? 0)%nat then 1 else 0).
Proof.
  intros n. pose proof PAGE_SIZE_pos as HP.
  split; [|split].
  - unfold get_new_transactions.
    rewrite (get_new_transactions_loop_run items sb k n 1 [] []); [done|lia|done].
  - unfold get_all_exercise_txs.
    rewrite (get_all_exercise_txs_loop_run items k n 1 [] []); [done|lia|done].
  - rewrite length_seq. unfold ceil_div, n.
    pose proof (Nat.div_mod_eq (length items) PAGE_SIZE) as E.
    pose proof (Nat.mod_upper_bound (length items) PAGE_SIZE ltac:(lia)) as B.
    destruct (Nat.eqb_spec (length items mod PAGE_SIZE) 0) as [Hm|Hm].
    + rewrite Nat.add_1_r. f_equal.
      apply Nat.div_unique with (r := PAGE_SIZE - 1); [lia|]. nia.
    + rewrite Nat.add_0_r.
      apply Nat.div_unique with (r := length items mod PAGE_SIZE - 1); [lia|]. nia.
Qed.

Local Transparent PAGE_SIZE.

(** C4, as stated, fails: one full page of items takes two requests,
    the second one for an empty page *)
Lemma page_number_extra_request :
  get_new_transactions 2 (paged_source Scenarios.one_full_page) 0
    = Some (Scenarios.one_full_page, [1; 2])
  /\ get_all_exercise_txs 2 (paged_source Scenarios.one_full_page)
    = Some ([], [1; 2])
  /\ ceil_div (length Scenarios.one_full_page) PAGE_SIZE = 1
  /\ length [1; 2] <> ceil_div (length Scenarios.one_full_page) PAGE_SIZE.
Proof. split_and!; [vm_compute; reflexivity..|vm_compute; discriminate]. Qed.

End PagedFacts.


Module BlockRangeFacts.
Import Py BlockRange.

Lemma absorb_spec sub rs : forall a s,
  absorb sub rs (a, s) = (a ++ first_by_key sub s rs, keys sub rs ∪ s).
Proof.
  unfold keys. induction rs as [|tx rs IH]; intros a s.
  - cbn. rewrite app_nil_r. f_equal. set_solver.
  - cbn [absorb fold_left first_by_key map list_to_set]. cbn [fst snd].
    destruct (decide (tx_key sub tx ∈ s)) as [Hin|Hout].
    + fold (absorb sub rs (a, s)). rewrite IH. f_equal. set_solver.
    + fold (absorb sub rs (a ++ [tx], {[tx_key sub tx]} ∪ s)).
      rewrite IH, <- app_assoc. f_equal. set_solver.
Qed.

Lemma first_by_key_app sub l2 : forall l1 s,
  first_by_key sub s (l1 ++ l2)
  = first_by_key sub s l1 ++ first_by_key sub (keys sub l1 ∪ s) l2.
Proof.
  unfold keys. induction l1 as [|tx l1 IH]; intros s.
  - cbn. f_equal. set_solver.
  - cbn [app first_by_key map list_to_set].
    destruct (decide (tx_key sub tx ∈ s)) as [Hin|Hout].
    + rewrite IH. f_equal. f_equal. set_solver.
    + rewrite IH. cbn. f_equal. f_equal. f_equal. set_solver.
Qed.




Lemma received_snoc tr sb r :
  received (tr ++ [(sb, r)])
  = received tr ++ match r with Page rs => rs | _ => [] end.
Proof.
  unfold received. rewrite omap_app, concat_app. f_equal.
  destruct r; cbn; by rewrite ?app_nil_r.
Qed.


Lemma inv_logged sub st r :
  (forall rs, r <> Page rs) -> inv sub st -> inv sub (logged st r).
Proof.
  intros Hr [H1 H2]. unfold inv, logged; cbn [all_txs seen trace].
  rewrite received_snoc. destruct r; rewrite ?app_nil_r; try done.
  by destruct (Hr results).
Qed.

Lemma inv_page sub st rs :
  inv sub st ->
  inv sub (with_txs (logged st (Page rs))
             (absorb sub rs (all_txs (logged st (Page rs)), seen (logged st (Page rs))))).
Proof.
  intros [H1 H2]. unfold inv. rewrite absorb_spec.
  cbn [with_txs logged all_txs seen trace fst snd].
  rewrite received_snoc, first_by_key_app, H1, H2. split.
  - f_equal. f_equal. set_solver.
  - unfold keys. rewrite map_app, list_to_set_app_L. set_solver.
Qed.

Lemma inv_with_start sub st b : inv sub st -> inv sub (with_start st b).
Proof. done. Qed.

Lemma inv_with_errors sub st n : inv sub st -> inv sub (with_errors st n).
Proof. done. Qed.

Lemma nft_attempts_inv src : forall retries st,
  inv "tokenID" st -> inv "tokenID" (control_state (nft_attempts retries src st)).
Proof.
  induction retries as [|r IH]; intros st Hst; [done|].
  cbn [nft_attempts].
  destruct (request src st) as [rs| | | |] eqn:E.
  - pose proof (inv_page "tokenID" st rs Hst) as Hp.
    set (st' := with_txs _ _) in *.
    destruct (Z.of_nat (length rs) <? PAGE_CAP)%Z; [done|].
    destruct (last_block_of rs (start_block st')); [|by apply IH].
    destruct (_ =? _)%Z; by apply inv_with_start.
  - apply IH, inv_logged; done.
  - apply inv_logged; done.
  - destruct (all_txs _); apply inv_logged; done.
  - apply IH, inv_logged; done.
Qed.

Lemma erc20_attempts_inv src : forall retries st,
  inv "logIndex" st -> inv "logIndex" (control_state (erc20_attempts retries src st)).
Proof.
  induction retries as [|r IH]; intros st Hst.
  - cbn [erc20_attempts]. destruct (3 <=? _)%nat; done.
  - cbn [erc20_attempts].
    destruct (request src st) as [rs| | | |] eqn:E.
    + pose proof (inv_page "logIndex" st rs Hst) as Hp.
      set (st' := with_txs _ _) in *.
      destruct (Z.of_nat (length rs) <? PAGE_CAP)%Z; [done|].
      destruct (last_block_of rs _); [done|].
      apply IH. done.
    + apply IH, inv_logged; done.
    + apply inv_logged; done.
    + destruct (3 <=? _)%nat.
      * apply inv_with_errors, inv_logged; done.
      * apply IH, inv_with_errors, inv_logged; done.
    + apply IH, inv_logged; done.
Qed.

Lemma iteration_inv f src st :
  inv (sub_index f) st -> inv (sub_index f) (control_state (iteration f src st)).
Proof. destruct f; [apply nft_attempts_inv|apply erc20_attempts_inv]. Qed.










(** *** Termination *)








Import Scenarios.













End BlockRangeFacts.


Lemma chunks_aux_concat {A} (n : nat) : 0 < n ->
  forall fuel (l : list A), length l <= fuel -> concat (chunks_aux fuel n l) = l.
Proof.
  intros Hn. induction fuel as [|fuel IH]; intros l Hl.
  - destruct l; [done|cbn in Hl; lia].
  - cbn [chunks_aux]. destruct l as [|x l]; [done|].
    cbn [concat]. rewrite IH.
    + apply take_drop.
    + rewrite length_drop. cbn [length] in *. lia.
Qed.

Lemma chunks_concat {A} (n : nat) (l : list A) : 0 < n -> concat (chunks n l) = l.
Proof. intros Hn. by apply chunks_aux_concat. Qed.

Module EarlyExitsFacts.
Import EarlyExits.

Section Resume.
Context `{PyFloat F}.
Variable resolver : string -> py (option (penalty F)).





Section Pool.
Variable completion : list string -> list string.
Hypothesis completion_perm : forall l, completion l ≡ₚ l.



End Pool.




End Resume.

End EarlyExitsFacts.


Module LockedFacts.
Import Py UpdateData.

(** *** [int(str(tid))] is [tid] *)

Lemma digit_of_char (d : N) :
  (d < 10)%N -> digit_of 10 (pretty_N_char d) = Some (Z.of_N d).
Proof.
  intros Hd.
  assert (Hc : d ∈ [0; 1; 2; 3; 4; 5; 6; 7; 8; 9]%N).
  { rewrite !elem_of_cons. lia. }
  rewrite !elem_of_cons, elem_of_nil in Hc.
  destruct Hc as [->|[->|[->|[->|[->|[->|[->|[->|[->|[->|[]]]]]]]]]]]; reflexivity.
Qed.

Lemma digits_pretty_go (x : N) :
  exists p : Z, forall acc s,
    digits 10 acc (pretty_N_go x s) = digits 10 (acc * p + Z.of_N x) s.
Proof.
  induction x as [x IH] using (well_founded_induction N.lt_wf_0).
  destruct (decide (0 < x)%N) as [Hpos|Hz].
  - destruct (IH (x / 10)%N) as [p Hp]; [by apply N.div_lt|].
    exists (p * 10)%Z. intros acc s.
    rewrite pretty_N_go_step, Hp by done. cbn [digits].
    rewrite digit_of_char by (by apply N.mod_lt).
    f_equal. pose proof (N.div_mod x 10 ltac:(done)) as E.
    apply (f_equal Z.of_N) in E. rewrite N2Z.inj_add, N2Z.inj_mul in E.
    change (Z.of_N 10) with 10%Z in E. lia.
  - assert (x = 0%N) as -> by lia. exists 1%Z. intros acc s.
    rewrite pretty_N_go_0. f_equal. lia.
Qed.

Lemma pretty_go_nonempty (x : N) : forall s,
  s <> EmptyString -> pretty_N_go x s <> EmptyString.
Proof.
  induction x as [x IH] using (well_founded_induction N.lt_wf_0). intros s Hs.
  destruct (decide (0 < x)%N) as [Hpos|Hz].
  - rewrite pretty_N_go_step by done. apply IH; [by apply N.div_lt|done].
  - assert (x = 0%N) as -> by lia. by rewrite pretty_N_go_0.
Qed.

Lemma int10_pretty_N (x : N) : int10 (pretty x) = Some (Z.of_N x).
Proof.
  unfold pretty, pretty_N. destruct (decide (x = 0%N)) as [->|Hx]; [reflexivity|].
  assert (Hne : pretty_N_go x "" <> EmptyString).
  { rewrite pretty_N_go_step by lia. by apply pretty_go_nonempty. }
  unfold int10. destruct (pretty_N_go x "") eqn:E; [done|]. rewrite <- E.
  destruct (digits_pretty_go x) as [p Hp]. rewrite Hp. reflexivity.
Qed.

Lemma int10_str (tid : Z) : (0 <= tid)%Z -> int10 (str tid) = Some tid.
Proof.
  intros Hz. unfold str, pretty, pretty_Z. destruct tid as [|q|q]; [done| |lia].
  apply (int10_pretty_N (N.pos q)).
Qed.

#[local] Instance str_inj : Inj (=) (=) str.
Proof. unfold str. apply _. Qed.

Lemma Forall2_elem_r {A B} (P : A -> B -> Prop) l k y :
  Forall2 P l k -> y ∈ k -> exists x, x ∈ l /\ P x y.
Proof.
  induction 1 as [|x y' l k Hxy _ IH]; [by intros ?%elem_of_nil|].
  intros [->|Hin]%elem_of_cons.
  - exists x. split; [left|done].
  - destruct (IH Hin) as (x' & ? & ?). exists x'. split; [by right|done].
Qed.

Lemma Forall2_elem_l {A B} (P : A -> B -> Prop) l k x :
  Forall2 P l k -> x ∈ l -> exists y, y ∈ k /\ P x y.
Proof.
  induction 1 as [|x' y l k Hxy _ IH]; [by intros ?%elem_of_nil|].
  intros [->|Hin]%elem_of_cons.
  - exists y. split; [left|done].
  - destruct (IH Hin) as (y' & ? & ?). exists y'. split; [by right|done].
Qed.

Section Resume.
Context `{PyFloat F}.
Variable record : Z -> option (locked F).

Lemma cached_ids_spec (c : gmap string (locked F)) (ids : list Z) :
  populated record c ids -> (forall tid, tid ∈ ids -> (0 <= tid)%Z) ->
  exists S, cached_ids c = Ok S
    /\ forall tid, (0 <= tid)%Z -> tid ∈ S <-> is_Some (c !! str tid).
Proof.
  intros Hpop Hnn. unfold cached_ids.
  assert (Hkeys : forall k, k ∈ map fst (map_to_list c) ->
            exists tid, (0 <= tid)%Z /\ k = str tid).
  { intros k Hk. apply list_elem_of_fmap in Hk as ([k' v] & -> & Hin).
    apply elem_of_map_to_list in Hin. destruct (Hpop _ _ Hin) as (tid & Ht & -> & _).
    exists tid. split; [by apply Hnn|done]. }
  destruct (mapM int10 (map fst (map_to_list c))) as [l|] eqn:E.
  - eexists. split; [done|]. intros tid Htid. rewrite elem_of_list_to_set.
    apply mapM_Some in E. split.
    + intros Hin. destruct (Forall2_elem_r _ _ _ _ E Hin) as (k & Hk & Hi).
      destruct (Hkeys k Hk) as (t & Ht & ->). rewrite int10_str in Hi by done.
      injection Hi as ->. apply list_elem_of_fmap in Hk as ([k' v] & Ek & Hin').
      cbn in Ek. subst k'. apply elem_of_map_to_list in Hin'. eauto.
    + intros [v Hv]. apply elem_of_map_to_list in Hv.
      apply (list_elem_of_fmap_2 fst) in Hv. cbn in Hv.
      destruct (Forall2_elem_l _ _ _ _ E Hv) as (t & Ht & Hi).
      rewrite int10_str in Hi by done. by injection Hi as <-.
  - exfalso. assert (Hs : is_Some (mapM int10 (map fst (map_to_list c)))).
    { apply mapM_is_Some, Forall_forall. intros k Hk.
      destruct (Hkeys k Hk) as (t & Ht & ->). cbn. rewrite int10_str by done. eauto. }
    rewrite E in Hs. by destruct Hs.
Qed.

Section Run.
Variable call : list Z -> gmap Z (locked F).
Hypothesis call_answers : answers record call.
Variable completion : list (list Z) -> list (list Z).
Hypothesis completion_perm : forall l, completion l ≡ₚ l.

Lemma store_batch_stored p chunk :
  stored record p (store_batch call p chunk) chunk.
Proof.
  unfold store_batch. split; cbn [cache].
  - intros tid v Hin Hv. apply lookup_union_Some_raw. left.
    rewrite lookup_kmap, call_answers; [by rewrite decide_True|apply str_inj].
  - intros k Hk. apply lookup_union_r. apply lookup_kmap_None; [apply str_inj|].
    intros tid ->. rewrite call_answers.
    destruct (decide (tid ∈ chunk)); [by apply Hk|done].
Qed.

Lemma stored_trans p1 p2 p3 L1 L2 :
  stored record p1 p2 L1 -> stored record p2 p3 L2 ->
  stored record p1 p3 (L1 ++ L2).
Proof.
  intros [Ha1 Hb1] [Ha2 Hb2]. split.
  - intros tid v Hin Hv.
    destruct (decide (tid ∈ L2)) as [H2|H2]; [by apply Ha2|].
    rewrite Hb2.
    + apply Ha1; [|done]. apply elem_of_app in Hin as [?|?]; done.
    + intros t Ht E. apply (inj str) in E. by subst.
  - intros k Hk. rewrite Hb2, Hb1; [done|..];
      intros t Ht; apply Hk; rewrite elem_of_app; tauto.
Qed.

Lemma stored_refl p : stored record p p [].
Proof. split; [by intros tid v ?%elem_of_nil|done]. Qed.

Lemma stored_perm p p' L L' :
  L ≡ₚ L' -> stored record p p' L -> stored record p p' L'.
Proof.
  intros HP [Ha Hb]. split.
  - intros tid v Hin. apply Ha. by rewrite HP.
  - intros k Hk. apply Hb. intros tid Hin. apply Hk. by rewrite <- HP.
Qed.

Lemma stored_same_cache p p' q L :
  cache q = cache p' -> stored record p p' L -> stored record p q L.
Proof. intros E [Ha Hb]. split; intros; rewrite E; auto. Qed.

Lemma fold_store_batch cs : forall p,
  let p' := fold_left (store_batch call) cs p in
  stored record p p' (concat cs) /\ batches p' = batches p.
Proof.
  induction cs as [|chunk cs IH]; intros p; cbn zeta.
  - split; [apply stored_refl|done].
  - cbn [fold_left concat]. destruct (IH (store_batch call p chunk)) as [Hs Hb].
    split; [|by rewrite Hb].
    eapply stored_trans; [apply store_batch_stored|exact Hs].
Qed.

Lemma run_windows_stored n ws : forall idx p,
  let p' := run_windows call completion n idx ws p in
  stored record p p' (concat (concat ws))
  /\ batches p' = batches p ++ concat ws.
Proof.
  induction ws as [|window ws IH]; intros idx p; cbn zeta.
  - cbn. rewrite app_nil_r. split; [apply stored_refl|done].
  - cbn [run_windows concat].
    match goal with |- context [fold_left (store_batch call) ?cs ?q] =>
      destruct (fold_store_batch cs q) as [Hs Hb];
      set (p1 := fold_left (store_batch call) cs q) in * end.
    match goal with |- context [run_windows call completion n ?i ws ?q] =>
      destruct (IH i q) as [Hs' Hb']; set (p2 := q) in * end.
    assert (E2 : cache p2 = cache p1 /\ batches p2 = batches p1)
      by (unfold p2; destruct (_ || _); done).
    destruct E2 as [Ec Eb]. split.
    + rewrite concat_app. eapply stored_trans; [|exact Hs'].
      apply (stored_same_cache _ p1); [done|].
      eapply stored_perm; [|exact Hs].
      by rewrite (completion_perm window).
    + rewrite Hb', Eb, Hb. cbn [batches]. by rewrite app_assoc.
Qed.

Lemma BATCH_SIZE_pos : 0 < BATCH_SIZE.
Proof. unfold BATCH_SIZE. lia. Qed.
Lemma LOCK_WORKERS_pos : 0 < MAX_WORKERS.
Proof. unfold MAX_WORKERS. lia. Qed.

Lemma fetch_locked_dolo_spec file ids :
  populated record (default ∅ file) ids ->
  (forall tid, tid ∈ ids -> (0 <= tid)%Z) ->
  exists p missing,
    fetch_locked_dolo call completion file ids = Ok p
    /\ (forall tid, tid ∈ missing <-> tid ∈ ids /\ default ∅ file !! str tid = None)
    /\ concat (batches p) = missing
    /\ stored record {| cache := default ∅ file; errors := 0; batches := [];
                        saves := [] |} p missing.
Proof.
  intros Hpop Hnn. unfold fetch_locked_dolo.
  destruct (cached_ids_spec _ _ Hpop Hnn) as (S & -> & HS).
  cbn [mbind py_mbind py_bind].
  set (missing := List.filter _ ids).
  assert (Hmissing : forall tid, tid ∈ missing
            <-> tid ∈ ids /\ default ∅ file !! str tid = None).
  { intros tid. unfold missing.
    rewrite list_elem_of_In, List.filter_In, bool_decide_eq_true, <- list_elem_of_In.
    split; intros [Hin Hc]; (split; [done|]).
    - rewrite HS in Hc by (by apply Hnn). by apply eq_None_not_Some.
    - rewrite HS by (by apply Hnn). by apply eq_None_not_Some. }
  destruct missing as [|m0 missing0] eqn:Em.
  - eexists _, []. split_and!; [done|done|done|apply stored_refl].
  - rewrite <- Em in *. clear Em m0 missing0.
    set (cs := chunks BATCH_SIZE missing).
    match goal with |- context [run_windows call completion ?n ?i ?ws ?q] =>
      destruct (run_windows_stored n ws i q) as [Hs Hb];
      set (p := run_windows call completion n i ws q) in * end.
    assert (Hcc : concat (chunks MAX_WORKERS cs) = cs)
      by apply chunks_concat, LOCK_WORKERS_pos.
    assert (Hc : concat cs = missing) by apply chunks_concat, BATCH_SIZE_pos.
    rewrite Hcc, Hc in Hs. rewrite Hcc in Hb. cbn [batches app] in Hb.
    eexists _, missing. split_and!; [done|done|..]; cbn [batches cache].
    + by rewrite Hb.
    + by apply (stored_same_cache _ p).
Qed.
End Run.

End Resume.


End LockedFacts.

Module ResumeFacts.
Import Py.


Import Scenarios.


(** the two runs of the scenario, evaluated *)
Example resumable_calls :
  EarlyExits.resolver_calls
    (EarlyExits.main known_receipts reverse warm_cache withdrawals "") = ["0xbb"; "0xcc"]
  /\ EarlyExits.resolver_calls
       (EarlyExits.main known_receipts id ∅ withdrawals "")
     = ["0xaa"; "0xbb"; "0xcc"; "0xaa"]
  /\ UpdateData.batches
       <$> UpdateData.fetch_locked_dolo (UpdateData.call_of lock_of) reverse
             (Some warm_locks) tokens = Ok [[2; 3]%Z]
  /\ UpdateData.batches
       <$> UpdateData.fetch_locked_dolo (UpdateData.call_of lock_of) id None tokens
     = Ok [[1; 2; 3]%Z].
Proof. split_and!; vm_compute; reflexivity. Qed.

End ResumeFacts.


Module AggregateFacts.
Import Py Receipt.

Section Scratch.
Import EarlyExits.
Context `{PyFloat F}.

Lemma resolved_cons (c : gmap string (penalty F)) ev events :
  resolved c (ev :: events)
  = match c !! tx_hash ev with
    | Some pen => (ev, pen) :: resolved c events
    | None => resolved c events
    end.
Proof. unfold resolved. cbn. by destruct (c !! tx_hash ev). Qed.

(** the invariant of the [for ev in events] loop *)
Lemma tally_fold (c : gmap string (penalty F)) events : forall t,
  let early := List.filter (fun e : entry => is_early_exit e.2) (resolved c events) in
  let normal := List.filter (fun e : entry => negb (is_early_exit e.2))
                  (resolved c events) in
  fold_left (tally c) events t
  = {| early_exits := early_exits t ++ early;
       normal_exits := normal_exits t ++ normal;
       total_burn := sum_from burn_fee early (total_burn t);
       total_recoup := sum_from recoup_fee early (total_recoup t);
       total_penalty_sum := sum_from total_penalty early (total_penalty_sum t);
       total_original := sum_from original_locked early (total_original t) |}.
Proof.
  induction events as [|ev events IH]; intros t; cbn zeta.
  - cbn. rewrite !app_nil_r. by destruct t.
  - cbn [fold_left]. rewrite IH. rewrite resolved_cons. unfold tally.
    destruct (c !! tx_hash ev) as [pen|]; [|done].
    cbn [List.filter snd]. destruct (is_early_exit pen); cbn [negb].
    + cbn [early_exits normal_exits total_burn total_recoup total_penalty_sum
           total_original]. rewrite <- !app_assoc. reflexivity.
    + cbn [early_exits normal_exits total_burn total_recoup total_penalty_sum
           total_original]. rewrite <- !app_assoc. reflexivity.
Qed.

Lemma phase4_from_scratch (c : gmap string (penalty F)) events now :
  phase4 c events now = aggregate_from_scratch c events now.
Proof.
  unfold phase4, aggregate_from_scratch. rewrite tally_fold. reflexivity.
Qed.
End Scratch.

Section Incremental.
Import UpdateExercised.
Context `{PyFloat F}.
Variable receipts : string -> option receipt.



End Incremental.



End AggregateFacts.


Module ResolverFacts.
Import Py Receipt.

Section WithFloat.
Context `{PyFloat F}.






End WithFloat.

Import Scenarios.




End ResolverFacts.

Module AvgLockFacts.
Import AvgLock.

(** C8 (as amended): lock durations of 5, 45, 200 and 400 days fall
    into the buckets "< 1 month", "1-3 months", "6-12 months" and
    "1-2 years", one each; "3-6 months" stays at 0. *)
Theorem distribution_scenario :
  distribution (F:=Q) (map days [5; 45; 200; 400]%Z) = expected 1 1 0 1 1.
Proof. vm_compute. reflexivity. Qed.

(** C8, as stated, fails: the counts are not 1, 0, 1, 0, 1, and the
    first key is "< 1 month" *)
Lemma distribution_scenario_differs :
  distribution (F:=Q) (map days [5; 45; 200; 400]%Z) <> expected 1 0 1 0 1
  /\ distribution (F:=Q) (map days [5; 45; 200; 400]%Z) !! "1-3 months" = Some 1
  /\ distribution (F:=Q) (map days [5; 45; 200; 400]%Z) !! "3-6 months" = Some 0
  /\ distribution (F:=Q) (map days [5; 45; 200; 400]%Z) !! "6-12 months" = Some 1
  /\ distribution (F:=Q) (map days [5; 45; 200; 400]%Z) !! "<1 month" = None.
Proof.
  split_and!; try (vm_compute; reflexivity).
  intros E. apply (f_equal (fun m => m !! "1-3 months")) in E.
  vm_compute in E. discriminate.
Qed.
End AvgLockFacts.

Module CacheFileFacts.
Import CacheFile.

Lemma length_append (s t : string) :
  String.length (String.append s t) = String.length s + String.length t.
Proof. induction s as [|c s IH]; simpl; [done|]. by rewrite IH. Qed.

Lemma append_ne (s t : string) : t <> EmptyString -> String.append s t <> s.
Proof.
  intros Ht E. assert (Hl := f_equal String.length E).
  rewrite length_append in Hl. destruct t; [done|]. cbn in Hl. lia.
Qed.

Lemma prefixes_empty s : EmptyString ∈ prefixes s.
Proof. destruct s; cbn; left. Qed.

Section Flush.
Context {C : Type}.
Variable dump : C -> string.

(** update_data.save_cache: whatever state a crash leaves behind,
    the cache file holds its previous content or the whole new one *)
Lemma save_cache_atomic cache_file (cache : C) (files st : fs) :
  st ∈ save_cache dump cache_file cache files ->
  st !! cache_file = files !! cache_file
  \/ st !! cache_file = Some (dump cache).
Proof.
  unfold save_cache. rewrite elem_of_cons, elem_of_app.
  intros [->|[Hin|Hin]].
  - by left.
  - apply list_elem_of_fmap in Hin as (p & -> & _). left.
    apply lookup_insert_ne. by apply append_ne.
  - apply list_elem_of_singleton in Hin as ->. right. apply lookup_insert_eq.
Qed.

(** C6 fails in fetch_early_exits.main: the flush writes the cache
    file in place, so a crash right after [open(CACHE_FILE, "w")]
    leaves it empty, whatever it held and whatever is written *)
Theorem write_cache_truncates cache_file (cache : C) (files : fs) :
  exists st, st ∈ write_cache dump cache_file cache files
             /\ st !! cache_file = Some EmptyString.
Proof.
  exists (<[cache_file := EmptyString]> files). split.
  - unfold write_cache. right. apply list_elem_of_fmap.
    exists EmptyString. split; [done|apply prefixes_empty].
  - apply lookup_insert_eq.
Qed.
End Flush.
End CacheFileFacts.


Module OwnershipFacts.
Import Py UpdateData.

(** *** Insertion-ordered dictionaries *)

Section Dict.
Context {K V : Type} `{EqDecision K}.
Implicit Types (d : list (K * V)).

Lemma dict_get_set k k' v d :
  dict_get k (dict_set k' v d) = if decide (k = k') then Some v else dict_get k d.
Proof.
  induction d as [|[k0 v0] d IH]; cbn.
  - by destruct (decide (k = k')).
  - destruct (decide (k' = k0)) as [->|Hne]; cbn.
    + destruct (decide (k = k0)); done.
    + rewrite IH. destruct (decide (k = k0)) as [->|]; [|done].
      by rewrite decide_False by done.
Qed.

Lemma dict_set_keys k v d :
  map fst (dict_set k v d)
  = if decide (k ∈ map fst d) then map fst d else map fst d ++ [k].
Proof.
  induction d as [|[k0 v0] d IH]; cbn.
  - by rewrite decide_False by apply not_elem_of_nil.
  - destruct (decide (k = k0)) as [->|Hne]; cbn.
    + by rewrite decide_True by left.
    + rewrite IH. destruct (decide (k ∈ map fst d)).
      * by rewrite decide_True by (by right).
      * rewrite decide_False; [done|]. rewrite elem_of_cons. tauto.
Qed.

Lemma dict_set_NoDup k v d :
  NoDup (map fst d) -> NoDup (map fst (dict_set k v d)).
Proof.
  intros Hd. rewrite dict_set_keys. destruct (decide _); [done|].
  apply NoDup_app. split_and!; [done| |apply NoDup_singleton].
  intros x Hx ->%list_elem_of_singleton. done.
Qed.

Lemma dict_get_elem d k v :
  NoDup (map fst d) -> (k, v) ∈ d <-> dict_get k d = Some v.
Proof.
  induction d as [|[k0 v0] d IH]; cbn; intros Hd.
  - rewrite elem_of_nil. split; [done|discriminate].
  - apply NoDup_cons in Hd as [Hk0 Hd]. rewrite elem_of_cons.
    destruct (decide (k = k0)) as [->|Hne].
    + split.
      * intros [[= ->]|Hin]; [done|]. exfalso. apply Hk0.
        by apply (list_elem_of_fmap_2 fst) in Hin.
      * intros [= ->]. by left.
    + rewrite <- IH by done. split; [|by right].
      intros [[= -> _]|Hin]; done.
Qed.
End Dict.

(** *** The transfer loop *)

Lemma current_owner_cons tid tx l :
  current_owner tid (tx :: l)
  = match current_owner tid l with
    | Some o => Some o
    | None => if bool_decide (int_field tx "tokenID" 0 = Ok tid)
              then Some (lower (get_str tx "to")) else None
    end.
Proof.
  unfold current_owner, transfers_of. cbn [List.filter].
  destruct (bool_decide _); [rewrite last_cons|]; by destruct (last _).
Qed.

Lemma record_transfers_owner l : forall st st',
  record_transfers st l = Ok st' ->
  NoDup (map fst st.1) ->
  NoDup (map fst st'.1)
  /\ forall tid, dict_get tid st'.1
                 = match current_owner tid l with
                   | Some o => Some o
                   | None => dict_get tid st.1
                   end.
Proof.
  induction l as [|tx l IH]; intros st st'.
  - intros [= <-] Hnd. done.
  - cbn [record_transfers]. unfold record_transfer at 1.
    destruct (int_field tx "tokenID" 0) as [token_id|] eqn:Et; [|done].
    cbn [mbind py_mbind py_bind]. intros Hrun Hnd.
    apply IH in Hrun as [Hnd' Hget]; [|by apply dict_set_NoDup].
    split; [done|]. intros tid. rewrite Hget, current_owner_cons.
    destruct (current_owner tid l); [done|]. cbn [fst].
    rewrite dict_get_set, Et.
    destruct (decide (tid = token_id)) as [->|Hne].
    + by rewrite bool_decide_eq_true_2.
    + rewrite bool_decide_eq_false_2; [done|]. intros [= ->]. done.
Qed.


(** *** Grouping by owner *)

Lemma add_owner_fold P : forall A,
  NoDup (map fst A) ->
  NoDup (map fst (fold_left add_owner P A))
  /\ forall addr,
       dict_get addr (fold_left add_owner P A)
       = if String.eqb addr zero then dict_get addr A
         else match owned P addr with
              | [] => dict_get addr A
              | l => Some (default [] (dict_get addr A) ++ l)
              end.
Proof.
  induction P as [|[tid o] P IH]; intros A HA.
  - split; [done|]. intros addr.
    change (fold_left add_owner [] A) with A. change (owned [] addr) with (@nil Z).
    by destruct (String.eqb addr zero).
  - cbn [fold_left]. unfold add_owner at 2 4. cbn [fst snd]. fold zero.
    destruct (String.eqb_spec o zero) as [->|Ho].
    + destruct (IH A HA) as [Hnd Hget]. split; [done|].
      intros addr. rewrite Hget. unfold owned. cbn [List.filter snd].
      destruct (String.eqb_spec addr zero) as [->|Ha]; [done|].
      destruct (String.eqb_spec zero addr) as [<-|_]; done.
    + destruct (IH (dict_set o (default [] (dict_get o A) ++ [tid]) A)
                  (dict_set_NoDup _ _ _ HA)) as [Hnd Hget].
      split; [done|]. intros addr. rewrite Hget, dict_get_set.
      unfold owned. cbn [List.filter snd].
      destruct (String.eqb_spec addr zero) as [->|Ha].
      * by rewrite decide_False by done.
      * destruct (String.eqb_spec o addr) as [<-|Hne].
        -- rewrite decide_True by done. cbn [map fst default].
           fold (owned P o). destruct (owned P o); unfold id;
             by rewrite <- ?app_assoc.
        -- by rewrite decide_False by done.
Qed.



(** *** Sorting *)

Lemma insert_key_perm x l : insert_key x l ≡ₚ x :: l.
Proof.
  induction l as [|y l IH]; cbn; [done|].
  destruct (key_le x.1 y.1); [done|]. rewrite IH. apply Permutation_swap.
Qed.

Lemma sort_perm ks : fold_right insert_key [] ks ≡ₚ ks.
Proof.
  induction ks as [|x ks IH]; cbn; [done|]. by rewrite insert_key_perm, IH.
Qed.










(** the run on the scenario: bob holds token 1, token 2 is burned *)
Example build_ownership_history :
  build_ownership Scenarios.nft_history
  = Ok ([ {| address := Scenarios.bob; nft_count := 1; token_ids := [1%Z] |} ],
        {| total_minted := 2; total_burned := 1; active_nfts := 1;
           unique_holders := 1 |}).
Proof. vm_compute. reflexivity. Qed.



End OwnershipFacts.

(** * Further properties of the code *)

Module AbiFacts.
Import Py Abi.

(** *** Strings *)

Lemma length_app (s t : string) :
  String.length (String.append s t) = String.length s + String.length t.
Proof. induction s as [|c s IH]; simpl; [done|]. by rewrite IH. Qed.

Lemma substring_all (s : string) : substring 0 (String.length s) s = s.
Proof. induction s as [|c s IH]; simpl; [done|]. by rewrite IH. Qed.

Lemma substring_head (s t : string) :
  substring 0 (String.length s) (String.append s t) = s.
Proof.
  induction s as [|c s IH]; simpl; [by destruct t|]. by rewrite IH.
Qed.

Lemma substring_skip (s t : string) n m :
  String.length s = n -> substring n m (String.append s t) = substring 0 m t.
Proof.
  revert n. induction s as [|c s IH]; intros n Hn; cbn in Hn; subst n; [done|].
  cbn. by apply IH.
Qed.

Lemma substring_past (s : string) n m :
  String.length s <= n -> substring n m s = EmptyString.
Proof.
  revert n m. induction s as [|c s IH]; intros n m Hn.
  - by destruct n, m.
  - destruct n as [|n]; cbn in Hn; [lia|]. cbn. apply IH. lia.
Qed.

Lemma slice_from_app (s t : string) n :
  String.length s = n -> slice_from n (String.append s t) = t.
Proof.
  intros Hn. unfold slice_from. rewrite length_app, Hn.
  replace (n + String.length t - n) with (String.length t) by lia.
  rewrite (substring_skip s t n) by done. apply substring_all.
Qed.

Lemma slice_head (s t : string) n :
  String.length s = n -> slice 0 n (String.append s t) = s.
Proof.
  intros <-. unfold slice. rewrite Nat.sub_0_r. apply substring_head.
Qed.

Lemma slice_skip (s t : string) a b :
  String.length s = a -> slice a b (String.append s t) = slice 0 (b - a) t.
Proof.
  intros Ha. unfold slice. rewrite Nat.sub_0_r. by apply substring_skip.
Qed.

(** *** Digits *)

Lemma digits_app base (s t : string) : forall acc,
  digits base acc (String.append s t) = digits base acc s ≫= fun v => digits base v t.
Proof.
  induction s as [|c s IH]; intros acc; simpl; [done|].
  destruct (digit_of base c); [apply IH|done].
Qed.

Lemma hex_digit_value (d : Z) :
  (0 <= d < 16)%Z -> digit_of 16 (hex_digit d) = Some d.
Proof.
  intros Hd.
  assert (Hc : d ∈ [0; 1; 2; 3; 4; 5; 6; 7; 8; 9; 10; 11; 12; 13; 14; 15]%Z).
  { rewrite !elem_of_cons. lia. }
  rewrite !elem_of_cons, elem_of_nil in Hc.
  repeat (destruct Hc as [->|Hc]; [reflexivity|]). done.
Qed.

Lemma hex_digits_value (fuel : nat) : forall n : Z,
  (0 <= n < 16 ^ Z.of_nat fuel)%Z ->
  exists p : Z, forall acc s,
    digits 16 acc (hex_digits fuel n s) = digits 16 (acc * p + n) s.
Proof.
  induction fuel as [|fuel IH]; intros n Hn.
  - exists 1%Z. intros acc s. cbn. f_equal. cbn in Hn. lia.
  - rewrite Nat2Z.inj_succ, Z.pow_succ_r in Hn by lia.
    pose proof (Z.div_mod n 16 ltac:(done)) as E.
    pose proof (Z.mod_pos_bound n 16 ltac:(done)) as B.
    cbn [hex_digits]. destruct (Z.eqb_spec (n / 16) 0) as [Hz|Hz].
    + exists 16%Z. intros acc s. cbn [digits].
      rewrite hex_digit_value by done. f_equal. lia.
    + destruct (IH (n / 16)%Z) as [p Hp].
      { split; [apply Z.div_pos; lia|]. apply Z.div_lt_upper_bound; lia. }
      exists (p * 16)%Z. intros acc s. rewrite Hp. cbn [digits].
      rewrite hex_digit_value by done. f_equal. lia.
Qed.

Lemma hex_digits_length (fuel : nat) : forall (n : Z) (k : nat) s,
  (0 <= n < 16 ^ Z.of_nat (S k))%Z ->
  String.length s < String.length (hex_digits (S fuel) n s) <= S k + String.length s.
Proof.
  induction fuel as [|fuel IH]; intros n k s Hn.
  - cbn [hex_digits]. destruct (n / 16 =? 0)%Z; cbn; lia.
  - change (hex_digits (S (S fuel)) n s)
      with (let acc := String (hex_digit (n mod 16)) s in
            if (n / 16 =? 0)%Z then acc else hex_digits (S fuel) (n / 16) acc).
    cbv zeta. destruct (Z.eqb_spec (n / 16) 0) as [Hz|Hz]; [cbn; lia|].
    rewrite Nat2Z.inj_succ, Z.pow_succ_r in Hn by lia.
    assert (Hq : (0 < n / 16)%Z).
    { pose proof (Z.div_pos n 16 ltac:(lia) ltac:(lia)). lia. }
    destruct k as [|k].
    { exfalso. change (16 ^ Z.of_nat 0)%Z with 1%Z in Hn.
      assert (n / 16 = 0)%Z by (apply Z.div_small; lia). lia. }
    specialize (IH (n / 16)%Z k (String (hex_digit (n mod 16)) s)).
    cbn [String.length] in IH.
    assert (0 <= n / 16 < 16 ^ Z.of_nat (S k))%Z as Hb.
    { split; [lia|]. apply Z.div_lt_upper_bound; lia. }
    specialize (IH Hb). lia.
Qed.

Lemma hex_fuel (n : Z) :
  (0 <= n)%Z -> (n < 16 ^ Z.of_nat (S (Z.to_nat (Z.log2 n))))%Z.
Proof.
  intros Hn. pose proof (Z.log2_nonneg n) as Hl.
  rewrite Nat2Z.inj_succ, Z2Nat.id by done.
  destruct (Z.eq_dec n 0%Z) as [->|Hz]; [done|].
  destruct (Z.log2_spec n ltac:(lia)) as [_ Hu].
  eapply Z.lt_le_trans; [exact Hu|].
  change 16%Z with (2 ^ 4)%Z. rewrite <- Z.pow_mul_r by lia.
  apply Z.pow_le_mono_r; lia.
Qed.

Lemma prefix_cons a s1 b s2 :
  String.prefix (String a s1) (String b s2)
  = if ascii_dec a b then String.prefix s1 s2 else false.
Proof. reflexivity. Qed.

Lemma prefix_two a b (s : string) :
  String.prefix (String a (String b "")) s = true ->
  exists t, s = String a (String b t).
Proof.
  destruct s as [|c1 [|c2 s]]; [done| |].
  - rewrite prefix_cons. by destruct (ascii_dec a c1).
  - rewrite !prefix_cons.
    destruct (ascii_dec a c1) as [<-|]; [|done].
    destruct (ascii_dec b c2) as [<-|]; [|done]. eauto.
Qed.

Lemma int16_of_digits (s : string) (n : Z) :
  s <> EmptyString -> digits 16 0 s = Some n -> int16 s = Some n.
Proof.
  intros Hs Hd. unfold int16.
  destruct (String.prefix "0x" s) eqn:E1.
  { apply prefix_two in E1 as [t ->]. by cbn in Hd. }
  destruct (String.prefix "0X" s) eqn:E2.
  { apply prefix_two in E2 as [t ->]. by cbn in Hd. }
  cbn. by destruct s.
Qed.

Lemma zeros_S (k : nat) : zeros (S k) = String "0" (zeros k).
Proof. by destruct k. Qed.

Lemma zeros_length (k : nat) : String.length (zeros k) = k.
Proof.
  induction k as [|k IH]; [done|]. rewrite zeros_S. cbn. by rewrite IH.
Qed.

Lemma digits_zeros (k : nat) (s : string) :
  digits 16 0 (String.append (zeros k) s) = digits 16 0 s.
Proof.
  induction k as [|k IH]; [done|]. rewrite zeros_S. cbn. apply IH.
Qed.

(** *** [hex(tid)[2:].zfill(64)] *)

Lemma hex_digits_head (fuel : nat) : forall (n : Z) s,
  (0 <= n)%Z ->
  exists d t, (0 <= d < 16)%Z /\ hex_digits (S fuel) n s = String (hex_digit d) t.
Proof.
  induction fuel as [|fuel IH]; intros n s Hn.
  - pose proof (Z.mod_pos_bound n 16 ltac:(done)).
    cbn [hex_digits]. destruct (n / 16 =? 0)%Z; eauto.
  - change (hex_digits (S (S fuel)) n s)
      with (let acc := String (hex_digit (n mod 16)) s in
            if (n / 16 =? 0)%Z then acc else hex_digits (S fuel) (n / 16) acc).
    cbv zeta. pose proof (Z.mod_pos_bound n 16 ltac:(done)).
    destruct (n / 16 =? 0)%Z; [eauto|]. apply IH. apply Z.div_pos; lia.
Qed.

Lemma hex_digit_no_sign (d : Z) :
  (0 <= d < 16)%Z ->
  Ascii.eqb (hex_digit d) "+" || Ascii.eqb (hex_digit d) "-" = false.
Proof.
  intros Hd.
  assert (Hc : d ∈ [0; 1; 2; 3; 4; 5; 6; 7; 8; 9; 10; 11; 12; 13; 14; 15]%Z).
  { rewrite !elem_of_cons. lia. }
  rewrite !elem_of_cons, elem_of_nil in Hc.
  repeat (destruct Hc as [->|Hc]; [reflexivity|]). done.
Qed.

Lemma encoded_unfold (tid : Z) :
  (0 <= tid)%Z ->
  let ds := hex_digits (S (Z.to_nat (Z.log2 tid))) tid "" in
  encoded tid = String.append (zeros (64 - String.length ds)) ds.
Proof.
  intros Hn. cbv zeta. unfold encoded, hex.
  destruct (Z.ltb_spec tid 0) as [?|_]; [lia|].
  destruct (hex_digits_head (Z.to_nat (Z.log2 tid)) tid "" Hn) as (d & t & Hd & E).
  set (ds := hex_digits _ _ _) in *. clearbody ds. subst ds.
  rewrite (slice_from_app "0x" _ 2) by done.
  unfold zfill. by rewrite (hex_digit_no_sign d Hd).
Qed.

Lemma encoded_value (tid : Z) : (0 <= tid)%Z -> digits 16 0 (encoded tid) = Some tid.
Proof.
  intros Hn. rewrite encoded_unfold by done. cbv zeta. rewrite digits_zeros.
  destruct (hex_digits_value _ tid (conj Hn (hex_fuel tid Hn))) as [p Hp].
  by rewrite Hp.
Qed.

Lemma encoded_length (tid : Z) :
  (0 <= tid < 2 ^ 256)%Z -> String.length (encoded tid) = 64.
Proof.
  intros [Hn Hu]. rewrite encoded_unfold by done. cbv zeta.
  rewrite length_app, zeros_length.
  pose proof (hex_digits_length (Z.to_nat (Z.log2 tid)) tid 63 "") as Hl.
  cbn [String.length] in Hl.
  assert (0 <= tid < 16 ^ Z.of_nat 64)%Z as Hb.
  { split; [done|]. change (16 ^ Z.of_nat 64)%Z with (2 ^ 256)%Z. done. }
  specialize (Hl Hb). lia.
Qed.

Lemma encoded_int16 (tid : Z) : (0 <= tid)%Z -> int16 (encoded tid) = Some tid.
Proof.
  intros Hn. apply int16_of_digits; [|by apply encoded_value].
  rewrite encoded_unfold by done. cbv zeta. intros E.
  apply (f_equal String.length) in E. rewrite length_app in E.
  change (String.length "") with 0 in E.
  pose proof (hex_digits_length (Z.to_nat (Z.log2 tid)) tid
                (Z.to_nat (Z.log2 tid)) "" (conj Hn (hex_fuel tid Hn))) as Hl.
  cbn [String.length] in Hl. lia.
Qed.

(** the call data of the [i]-th element of a batch is the selector
    followed by 64 hexadecimal digits, which [int(_, 16)] reads back
    as the [i]-th token id; the element carries [i] as its id *)
Theorem batch_argument_round_trip (selector : string) (token_ids : list Z)
    (i : nat) (tid : Z) :
  String.length selector = 10 ->
  token_ids !! i = Some tid ->
  (0 <= tid < 2 ^ 256)%Z ->
  length (batch selector token_ids) = length token_ids
  /\ exists c, batch selector token_ids !! i = Some c
       /\ call_id c = i
       /\ call_data c = String.append selector (argument c)
       /\ String.length (argument c) = 64
       /\ int16 (argument c) = Some tid.
Proof.
  intros Hsel Hi Ht. unfold batch. rewrite length_imap. split; [done|].
  eexists. rewrite list_lookup_imap, Hi. cbn. split; [done|]. split; [done|].
  unfold argument. cbn [call_data]. rewrite (slice_from_app selector _ 10) by done.
  split; [done|]. split; [by apply encoded_length|]. apply encoded_int16. lia.
Qed.

Lemma batch_argument_round_trip_witness :
  length (batch LOCKED_SELECTOR [7; 255]%Z) = 2
  /\ exists c, batch LOCKED_SELECTOR [7; 255]%Z !! 1 = Some c
       /\ call_id c = 1
       /\ call_data c = String.append LOCKED_SELECTOR (argument c)
       /\ String.length (argument c) = 64
       /\ int16 (argument c) = Some 255%Z.
Proof.
  apply (batch_argument_round_trip LOCKED_SELECTOR [7; 255]%Z 1 255%Z);
    [reflexivity|reflexivity|lia].
Defined.

End AbiFacts.

Module WithdrawFacts.
Import Py Withdraw.

(** *** rpc_call *)

Section Call.
Context {V : Type}.
Variable post : nat -> nat -> answer V.

Lemma try_provider_find rpc_idx : forall left attempt reqs,
  let l := (fun a => (rpc_idx, a)) <$> seq attempt left in
  try_provider post rpc_idx left attempt reqs
  = match list_find (fun p => is_result (post p.1 p.2) = true) l with
    | Some (i, p) => (Some (payload (post p.1 p.2)), reqs ++ take (S i) l)
    | None => (None, reqs ++ l)
    end.
Proof.
  induction left as [|left IH]; intros attempt reqs l; subst l.
  - cbn. by rewrite app_nil_r.
  - cbn [seq fmap list_fmap try_provider list_find]. rewrite IH. cbv zeta.
    destruct (post rpc_idx attempt) eqn:E.
    + rewrite decide_True by (cbn; by rewrite E). cbn. by rewrite E.
    + rewrite decide_False by (cbn; by rewrite E).
      destruct (list_find _ _) as [[i p]|]; cbn; by rewrite <- app_assoc.
    + rewrite decide_False by (cbn; by rewrite E).
      destruct (list_find _ _) as [[i p]|]; cbn; by rewrite <- app_assoc.
    + rewrite decide_False by (cbn; by rewrite E).
      destruct (list_find _ _) as [[i p]|]; cbn; by rewrite <- app_assoc.
Qed.

Lemma try_providers_find retries : forall urls reqs,
  let l := rpc_idx ← urls; (fun a => (rpc_idx, a)) <$> seq 0 retries in
  try_providers post retries urls reqs
  = match list_find (fun p => is_result (post p.1 p.2) = true) l with
    | Some (i, p) => (payload (post p.1 p.2), reqs ++ take (S i) l)
    | None => (None, reqs ++ l)
    end.
Proof.
  induction urls as [|u urls IH]; intros reqs l; subst l.
  - cbn. by rewrite app_nil_r.
  - cbn [try_providers mbind list_bind]. rewrite try_provider_find. cbv zeta.
    set (l1 := (fun a => (u, a)) <$> seq 0 retries).
    destruct (list_find _ l1) as [[i p]|] eqn:E.
    + rewrite (list_find_app_l _ _ _ _ _ E).
      apply list_find_Some in E as (Hi%lookup_lt_Some & _).
      by rewrite take_app_le by lia.
    + rewrite (list_find_app_r _ _ _ E), IH. cbv zeta.
      destruct (list_find _ (urls ≫= _)) as [[j p]|]; cbn.
      * rewrite <- app_assoc. do 2 f_equal.
        replace (S (j + length l1)) with (length l1 + S j) by lia.
        by rewrite take_app_add.
      * by rewrite <- app_assoc.
Qed.

End Call.

(** The providers are asked in the order of RPC_URLS, each up to
    [retries] times in a row; the first answer that carries a "result"
    ends the call and is what it returns (a null result as well), and
    no request is made after it; when no answer carries one, every
    request of the schedule is made and the call returns None. *)
Theorem rpc_call_first_result {V} (post : nat -> nat -> answer V) (retries : nat) :
  rpc_call post retries
  = match list_find (fun p => is_result (post p.1 p.2) = true) (schedule retries) with
    | Some (i, p) => (payload (post p.1 p.2), take (S i) (schedule retries))
    | None => (None, schedule retries)
    end.
Proof. unfold rpc_call. by rewrite try_providers_find. Qed.

(** *** fetch_withdraw_events *)

Lemma digits_nonneg base (s : string) : forall acc n,
  (0 <= base)%Z -> (0 <= acc)%Z -> digits base acc s = Some n -> (0 <= n)%Z.
Proof.
  induction s as [|c s IH]; intros acc n Hb Hacc Hd; cbn in Hd.
  - injection Hd as <-. done.
  - destruct (digit_of base c) as [d|] eqn:E; [|done].
    apply IH in Hd; [done|done|].
    assert (0 <= d)%Z; [|nia].
    unfold digit_of in E. repeat case_match; simplify_eq; lia.
Qed.

Lemma int16_nonneg (s : string) (n : Z) : int16 s = Some n -> (0 <= n)%Z.
Proof.
  unfold int16. intros Hd. destruct (if _ : bool then _ else _); [done|].
  by eapply digits_nonneg in Hd.
Qed.

Section Scan.
Context {L : Type}.
Variable get_logs : Z -> Z -> option (list L).
Variable latest_block : Z.
Hypothesis latest_nonneg : (0 <= latest_block)%Z.

Lemma full_range (i : nat) :
  (Z.of_nat i < latest_block / STEP)%Z ->
  range latest_block i = (Z.of_nat i * STEP, Z.of_nat i * STEP + STEP - 1)%Z.
Proof.
  intros Hi. unfold range. f_equal. unfold STEP in *.
  pose proof (Z.mul_div_le latest_block 10000 ltac:(done)). lia.
Qed.

Lemma last_range :
  let q := Z.to_nat (latest_block / STEP) in
  range latest_block q = (Z.of_nat q * STEP, latest_block)%Z
  /\ (Z.of_nat q * STEP <= latest_block)%Z.
Proof.
  intros q. subst q. unfold range, STEP.
  pose proof (Z.div_pos latest_block 10000 latest_nonneg ltac:(done)).
  rewrite Z2Nat.id by done.
  pose proof (Z.mul_div_le latest_block 10000 ltac:(done)).
  pose proof (Z.mul_succ_div_gt latest_block 10000 ltac:(done)).
  split; [f_equal|]; lia.
Qed.

Lemma withdraw_loop_step fuel block all_logs ranges :
  (block <= latest_block)%Z ->
  let r := (block, Z.min (block + STEP - 1) latest_block) in
  withdraw_loop (S fuel) get_logs latest_block block all_logs ranges
  = withdraw_loop fuel get_logs latest_block (r.2 + 1) (all_logs ++ found get_logs r)
      (ranges ++ [r]).
Proof.
  intros Hb r. cbn [withdraw_loop]. rewrite (proj2 (Z.leb_le _ _)) by done.
  subst r. unfold found. cbn [fst snd].
  destruct (get_logs _ _) as [[|x l]|]; cbn [default]; by rewrite ?app_nil_r.
Qed.

Lemma withdraw_loop_full fuel : forall (m i : nat) all_logs ranges,
  (Z.of_nat (i + m) <= latest_block / STEP)%Z ->
  withdraw_loop (m + fuel) get_logs latest_block (Z.of_nat i * STEP) all_logs ranges
  = withdraw_loop fuel get_logs latest_block (Z.of_nat (i + m) * STEP)
      (all_logs ++ concat (found get_logs <$> (range latest_block <$> seq i m)))
      (ranges ++ (range latest_block <$> seq i m)).
Proof.
  induction m as [|m IH]; intros i all_logs ranges Hm.
  - cbn. by rewrite Nat.add_0_r, !app_nil_r.
  - assert (Z.of_nat i * STEP <= latest_block)%Z as Hb.
    { pose proof (Z.mul_div_le latest_block STEP ltac:(done)).
      unfold STEP in *. lia. }
    rewrite Nat.add_succ_l, withdraw_loop_step by done. cbv zeta.
    change (Z.of_nat i * STEP, Z.min (Z.of_nat i * STEP + STEP - 1) latest_block)%Z
      with (range latest_block i).
    replace ((range latest_block i).2 + 1)%Z with (Z.of_nat (S i) * STEP)%Z
      by (rewrite full_range by lia; cbn [snd]; lia).
    rewrite IH by lia. cbn [seq fmap list_fmap concat].
    replace (S i + m) with (i + S m) by lia.
    by rewrite <- !app_assoc.
Qed.

Lemma withdraw_loop_run (k : nat) :
  let n := S (Z.to_nat (latest_block / STEP)) in
  let ranges := range latest_block <$> seq 0 n in
  withdraw_loop (S n + k) get_logs latest_block 0 [] []
  = Some (concat (found get_logs <$> ranges), ranges).
Proof.
  intros n ranges. subst n ranges. set (q := Z.to_nat (latest_block / STEP)).
  pose proof (Z.div_pos latest_block STEP latest_nonneg ltac:(done)) as Hq.
  destruct last_range as [Hlast Hle]. fold q in Hlast, Hle.
  replace (S (S q) + k) with (q + (S (S k))) by lia.
  change 0%Z with (Z.of_nat 0 * STEP)%Z at 1.
  rewrite withdraw_loop_full by (subst q; lia).
  cbn [Nat.add app]. rewrite withdraw_loop_step by done. cbv zeta.
  fold (range latest_block q). rewrite Hlast. cbn [snd].
  cbn [withdraw_loop]. rewrite (proj2 (Z.leb_gt _ _)) by lia.
  replace (S q) with (q + 1) by lia.
  rewrite seq_app, !fmap_app, concat_app. cbn [seq fmap list_fmap concat Nat.add].
  by rewrite Hlast, app_nil_r.
Qed.

End Scan.

(** With the latest block number read, the scan ends after
    latest_block/10000 + 1 requests; its ranges start at block 0, are
    10000 blocks wide except the last, which ends at the latest block,
    and every block up to the latest lies in exactly one of them; the
    result is the concatenation of what the calls returned, range by
    range, a range whose call fails contributing nothing. *)
Theorem withdraw_ranges_tile {L} (get_logs : Z -> Z -> option (list L))
    (block_number : string) (latest_block : Z) (k : nat) :
  int16 block_number = Some latest_block ->
  let n := S (Z.to_nat (latest_block / STEP)) in
  let ranges := range latest_block <$> seq 0 n in
  fetch_withdraw_events (S n + k) (Some block_number) get_logs
  = Some (Ok (concat (found get_logs <$> ranges), ranges))
  /\ forall b, (0 <= b <= latest_block)%Z ->
       exists i, i < n
         /\ ((range latest_block i).1 <= b <= (range latest_block i).2)%Z
         /\ forall j, j < n ->
              ((range latest_block j).1 <= b <= (range latest_block j).2)%Z -> j = i.
Proof.
  intros Hs n ranges. pose proof (int16_nonneg _ _ Hs) as Hn. split.
  - unfold fetch_withdraw_events. cbn [mbind option_bind]. rewrite Hs.
    subst n ranges. by rewrite withdraw_loop_run.
  - intros b Hb.
    pose proof (Z.div_pos b STEP ltac:(lia) ltac:(done)) as Hq.
    pose proof (Z.div_le_mono b latest_block STEP ltac:(done) ltac:(lia)) as Hm.
    pose proof (Z.mul_div_le b STEP ltac:(done)) as H1.
    pose proof (Z.mul_succ_div_gt b STEP ltac:(done)) as H2.
    exists (Z.to_nat (b / STEP)). split; [subst n; lia|]. split.
    + unfold range. cbn [fst snd]. rewrite Z2Nat.id by done. unfold STEP in *. lia.
    + intros j Hj. unfold range. cbn [fst snd]. intros [Hl Hu].
      assert (b / STEP = Z.of_nat j)%Z as E; [|lia].
      symmetry. apply Z.div_unique with (r := (b - Z.of_nat j * STEP)%Z);
        unfold STEP in *; lia.
Qed.

Import Runs.

Lemma withdraw_ranges_tile_witness :
  fetch_withdraw_events 4 (Some "0x61a8") second_fails
  = Some (Ok (["w1"; "w2"; "w3"], [(0, 9999); (10000, 19999); (20000, 25000)]%Z))
  /\ forall b, (0 <= b <= 25000)%Z ->
       exists i, i < 3
         /\ ((range 25000 i).1 <= b <= (range 25000 i).2)%Z
         /\ forall j, j < 3 ->
              ((range 25000 j).1 <= b <= (range 25000 j).2)%Z -> j = i.
Proof.
  exact (withdraw_ranges_tile second_fails "0x61a8" 25000 0 eq_refl).
Defined.

(** *** decode_withdraw_event *)

Lemma int16_0x (ds : string) :
  ds <> EmptyString -> int16 (String.append "0x" ds) = digits 16 0 ds.
Proof.
  intros Hds. unfold int16.
  assert (String.prefix "0x" (String.append "0x" ds) = true) as ->.
  { change (String.append "0x" ds) with (String "0" (String "x" ds)).
    rewrite !AbiFacts.prefix_cons.
    destruct (ascii_dec "0" "0"); [|done]. destruct (ascii_dec "x" "x"); [|done].
    by destruct ds. }
  cbn [orb]. rewrite (AbiFacts.slice_from_app "0x" ds 2) by done. by destruct ds.
Qed.

Lemma hex_int16 (n : Z) : (0 <= n)%Z -> int16 (Abi.hex n) = Some n.
Proof.
  intros Hn. unfold Abi.hex. destruct (Z.ltb_spec n 0) as [?|_]; [lia|].
  destruct (AbiFacts.hex_digits_value _ n (conj Hn (AbiFacts.hex_fuel n Hn))) as [p Hp].
  destruct (AbiFacts.hex_digits_head (Z.to_nat (Z.log2 n)) n "" Hn) as (d & t & _ & E).
  rewrite int16_0x by (by rewrite E). by rewrite Hp.
Qed.

Lemma substring_length (s : string) : forall n m,
  String.length (substring n m s) <= String.length s - n.
Proof.
  induction s as [|c s IH]; intros n m.
  - by destruct n, m.
  - destruct n as [|n]; [destruct m as [|m]|]; cbn; [lia| |apply IH].
    specialize (IH 0 m). lia.
Qed.

Lemma substring_add (s t : string) n m :
  substring (String.length s + n) m (String.append s t) = substring n m t.
Proof. induction s as [|c s IH]; [done|]. simpl. apply IH. Qed.

Lemma three_words (w1 w2 w3 : string) :
  String.length w1 = 64 -> String.length w2 = 64 -> String.length w3 = 64 ->
  let body := String.append w1 (String.append w2 w3) in
  slice 0 64 body = w1 /\ slice 64 128 body = w2 /\ slice 128 192 body = w3.
Proof.
  intros H1 H2 H3 body. subst body. split; [|split].
  - by apply AbiFacts.slice_head.
  - rewrite (AbiFacts.slice_skip w1 _ 64 128) by done.
    by apply AbiFacts.slice_head.
  - unfold slice. change 128 with (64 + 64) at 1. rewrite <- H1 at 1.
    rewrite substring_add, (AbiFacts.substring_skip w2 w3 64) by done.
    change (192 - 128) with 64. rewrite <- H3. apply AbiFacts.substring_all.
Qed.

Section Decode.
Context `{PyFloat F}.

(** A log whose data holds the three words of the event, sixty-four
    hexadecimal digits each, decodes to the numbers the words
    encode: the token id, the value scaled by 1e18 and the
    timestamp; the block comes from the hexadecimal block number and
    the provider is the lower-cased tail of the second topic. *)
Theorem decode_withdraw_event_round_trip (sig t h : string) (more : list string)
    (token_id value ts b : Z) :
  (0 <= token_id < 2 ^ 256)%Z -> (0 <= value < 2 ^ 256)%Z ->
  (0 <= ts < 2 ^ 256)%Z -> (0 <= b)%Z ->
  decode_withdraw_event
    {| topics := sig :: t :: more;
       data := Some (withdraw_data token_id value ts);
       blockNumber := Some (Abi.hex b);
       transactionHash := Some h |}
  = Ok {| EarlyExits.provider := lower (String.append "0x" (slice_from 26 t));
          EarlyExits.token_id := token_id;
          EarlyExits.value := fdiv (of_int value) (of_int (10 ^ 18));
          EarlyExits.timestamp := ts;
          EarlyExits.block := b;
          EarlyExits.tx_hash := h |}.
Proof.
  intros Ht Hv Hs Hb. unfold decode_withdraw_event, withdraw_data.
  cbn [topics data blockNumber transactionHash lookup list_lookup default
       of_option mbind py_mbind py_bind option_bind].
  unfold id. rewrite (AbiFacts.slice_from_app "0x" _ 2) by done.
  destruct (three_words (Abi.encoded token_id) (Abi.encoded value) (Abi.encoded ts))
    as (-> & -> & ->); [by apply AbiFacts.encoded_length..|].
  rewrite !AbiFacts.encoded_int16, hex_int16 by lia. reflexivity.
Qed.

(** A log whose data is absent, or holds fewer than 129 characters
    after its 0x, cannot be decoded: the third word is empty and
    [int] raises; the decoding loop of main, which has no handler,
    raises with it. *)
Theorem decode_withdraw_event_short_data (log : raw_log)
    (before after : list raw_log) :
  String.length (default "0x" (data log)) <= 130 ->
  decode_withdraw_event log = Raised
  /\ decode_all (before ++ log :: after) = Raised.
Proof.
  intros Hlen.
  assert (decode_withdraw_event log = Raised) as Hraise.
  { unfold decode_withdraw_event.
    assert (slice 128 192 (slice_from 2 (default "0x" (data log))) = EmptyString)
      as Hempty.
    { unfold slice. apply AbiFacts.substring_past. unfold slice_from.
      etrans; [apply substring_length|]. lia. }
    rewrite Hempty.
    destruct (topics log !! 1); [|done]. cbn [of_option mbind py_mbind py_bind].
    destruct (int16 (slice 0 64 _)); [|done]. cbn [of_option py_bind].
    by destruct (int16 (slice 64 128 _)). }
  split; [done|].
  induction before as [|l before IH]; cbn [app decode_all].
  - by rewrite Hraise.
  - destruct (decode_withdraw_event l); [|done].
    cbn [mbind py_mbind py_bind]. by rewrite IH.
Qed.

End Decode.

Lemma decode_withdraw_event_round_trip_witness :
  decode_withdraw_event (F := Q) withdraw_log
  = Ok {| EarlyExits.provider := "0x1111111111111111111111111111111111abcdef";
          EarlyExits.token_id := 7;
          EarlyExits.value := fdiv (of_int (5 * 10 ^ 18)) (of_int (10 ^ 18));
          EarlyExits.timestamp := 1700000000;
          EarlyExits.block := 300;
          EarlyExits.tx_hash := "0xabc" |}.
Proof.
  apply (decode_withdraw_event_round_trip (F := Q)); lia.
Defined.

Lemma decode_withdraw_event_short_data_witness :
  decode_withdraw_event (F := Q) bare_log = Raised
  /\ decode_all (F := Q) ([withdraw_log] ++ bare_log :: []) = Raised.
Proof.
  apply (decode_withdraw_event_short_data (F := Q) bare_log [withdraw_log] []).
  cbn. lia.
Defined.

End WithdrawFacts.

(** *** [[l[i:i+n] for i in range(0, len(l), n)]] *)

Lemma chunks_aux_lengths {A} (n : nat) : 0 < n ->
  forall fuel (l : list A), length l <= fuel ->
    Forall (fun c => 0 < length c <= n) (chunks_aux fuel n l)
    /\ length (chunks_aux fuel n l) = Paged.ceil_div (length l) n.
Proof.
  intros Hn. unfold Paged.ceil_div.
  induction fuel as [fuel IH] using lt_wf_ind. intros l Hl.
  destruct fuel as [|fuel].
  - destruct l; [|cbn in Hl; lia]. cbn. split; [constructor|].
    symmetry. apply Nat.div_small. lia.
  - cbn [chunks_aux]. destruct l as [|x l].
    + cbn. split; [constructor|]. symmetry. apply Nat.div_small. lia.
    + set (l' := x :: l) in *.
      assert (0 < length l') as Hpos by (subst l'; cbn; lia).
      destruct (IH fuel ltac:(lia) (drop n l')) as [Hall Hlen].
      { rewrite length_drop. lia. }
      split.
      * constructor; [|done]. rewrite length_take. lia.
      * cbn [length]. rewrite Hlen, length_drop.
        destruct (Nat.le_gt_cases n (length l')) as [Hge|Hlt].
        -- replace (length l' + n - 1) with (length l' - n + n - 1 + 1 * n) by lia.
           rewrite Nat.div_add by lia. lia.
        -- replace (length l' - n) with 0 by lia.
           rewrite (Nat.div_small (0 + n - 1)) by lia.
           apply Nat.div_unique with (r := length l' - 1); lia.
Qed.

(** The batches the three pools work on partition the list they are cut
    from: concatenated in order they give it back, none is empty, none
    is longer than the batch size, and there are ceil(len/n) of them. *)
Theorem chunks_partition {A} (n : nat) (l : list A) :
  0 < n ->
  concat (chunks n l) = l
  /\ Forall (fun c => 0 < length c <= n) (chunks n l)
  /\ length (chunks n l) = Paged.ceil_div (length l) n.
Proof.
  intros Hn. split; [by apply chunks_concat|].
  by apply chunks_aux_lengths.
Qed.

Lemma chunks_partition_witness :
  concat (chunks UpdateData.BATCH_SIZE (seq 0 120)) = seq 0 120
  /\ Forall (fun c => 0 < length c <= UpdateData.BATCH_SIZE)
       (chunks UpdateData.BATCH_SIZE (seq 0 120))
  /\ length (chunks UpdateData.BATCH_SIZE (seq 0 120))
     = Paged.ceil_div (length (seq 0 120)) UpdateData.BATCH_SIZE.
Proof.
  apply (chunks_partition UpdateData.BATCH_SIZE (seq 0 120)).
  unfold UpdateData.BATCH_SIZE. lia.
Defined.

Module BatchFacts.
Import Py UpdateData Batches.

Section WithFloat.
Context `{PyFloat F}.

Lemma fill_errors_lookup (token_ids : list Z) : forall (out : gmap Z (locked F)) tid,
  fill_errors token_ids out !! tid
  = match out !! tid with
    | Some v => Some v
    | None => if decide (tid ∈ token_ids) then Some error_locked else None
    end.
Proof.
  unfold fill_errors.
  induction token_ids as [|t token_ids IH]; intros out tid; cbn [fold_left].
  - destruct (out !! tid); [done|]. by rewrite decide_False by apply not_elem_of_nil.
  - rewrite IH.
    destruct (out !! t) eqn:Et.
    + destruct (out !! tid) eqn:E; [done|].
      destruct (decide (tid ∈ token_ids)).
      * by rewrite decide_True by (by right).
      * rewrite decide_False; [done|]. rewrite elem_of_cons. intros [->|?]; congruence.
    + destruct (decide (tid = t)) as [->|Hne].
      * rewrite lookup_insert_eq, Et. by rewrite decide_True by left.
      * rewrite lookup_insert_ne by done. destruct (out !! tid); [done|].
        destruct (decide (tid ∈ token_ids)).
        -- by rewrite decide_True by (by right).
        -- rewrite decide_False; [done|]. rewrite elem_of_cons. tauto.
Qed.

Lemma store_results_dom (token_ids : list Z) (rs : list rpc_item) :
  forall out : gmap Z (locked F),
    dom out ⊆ list_to_set token_ids ->
    dom (store_results token_ids rs out).1 ⊆ list_to_set (C := gset Z) token_ids.
Proof.
  induction rs as [|r rs IH]; intros out Hout; cbn [store_results]; [done|].
  destruct (token_ids !! rpc_id r) as [tid|] eqn:E; [|done].
  apply list_elem_of_lookup_2 in E.
  assert (forall e : locked F, dom (<[tid := e]> out) ⊆ list_to_set (C := gset Z) token_ids).
  { intros e. rewrite dom_insert. set_solver. }
  destruct (usable r); [destruct (decode_locked _)|]; auto.
Qed.

Lemma batch_attempts_dom (post : nat -> http) (token_ids : list Z) :
  forall retries retry (out : gmap Z (locked F)),
    dom out ⊆ list_to_set token_ids ->
    dom (batch_attempts retries retry post token_ids out)
      ⊆ list_to_set (C := gset Z) token_ids.
Proof.
  induction retries as [|retries IH]; intros retry out Hout; cbn [batch_attempts].
  - intros tid [v Hv]%elem_of_dom. rewrite fill_errors_lookup in Hv.
    destruct (out !! tid) eqn:E.
    + apply Hout, elem_of_dom. eauto.
    + destruct (decide (tid ∈ token_ids)); [set_solver|done].
  - destruct (post retry) as [| |rs]; [by apply IH..|].
    pose proof (store_results_dom token_ids rs out Hout).
    destruct (store_results token_ids rs out).2; [done|by apply IH].
Qed.

(** Whatever the endpoint answers, the map make_batch_call returns
    has no key outside the batch it was given. *)
Theorem batch_call_keys (post : nat -> http) (token_ids : list Z) :
  dom (make_batch_call post token_ids) ⊆ list_to_set (C := gset Z) token_ids.
Proof. apply batch_attempts_dom. set_solver. Qed.

Lemma batch_attempts_fail (post : nat -> http) (token_ids : list Z) :
  (forall retry, unanswered (post retry) = true) ->
  forall retries retry (out : gmap Z (locked F)),
    batch_attempts retries retry post token_ids out = fill_errors token_ids out.
Proof.
  intros Hpost. induction retries as [|retries IH]; intros retry out; [done|].
  cbn [batch_attempts]. specialize (Hpost retry).
  destruct (post retry); [apply IH..|done].
Qed.

(** When none of the three POSTs brings a result list (429s or
    exceptions), make_batch_call returns the error record, amount 0
    and end 0 flagged "error", for every token of the batch and
    nothing else. *)
Theorem batch_call_all_fail (post : nat -> http) (token_ids : list Z) (tid : Z) :
  (forall retry, unanswered (post retry) = true) ->
  make_batch_call post token_ids !! tid
  = if decide (tid ∈ token_ids) then Some error_locked else None.
Proof.
  intros Hpost. unfold make_batch_call.
  rewrite batch_attempts_fail, fill_errors_lookup by done.
  by rewrite lookup_empty.
Qed.

Lemma call_over_fails (net : list Z -> nat -> http) :
  (forall chunk retry, unanswered (net chunk retry) = true) ->
  answers (fun _ => Some error_locked) (call_over net).
Proof.
  intros Hnet chunk tid. unfold call_over, make_batch_call.
  rewrite batch_attempts_fail, fill_errors_lookup by done.
  by rewrite lookup_empty.
Qed.

Lemma filter_none {A} (f : A -> bool) (l : list A) :
  (forall x, x ∈ l -> f x = false) -> List.filter f l = [].
Proof.
  induction l as [|x l IH]; intros Hf; [done|]. cbn.
  rewrite (Hf x) by left. apply IH. intros y Hy. apply Hf. by right.
Qed.

Lemma fetch_locked_dolo_flushed (call : list Z -> gmap Z (locked F))
    (completion : list (list Z) -> list (list Z)) file ids p :
  fetch_locked_dolo call completion file ids = Ok p ->
  (saves p = [] /\ batches p = [] /\ cache p = default ∅ file)
  \/ on_disk p = Some (cache p).
Proof.
  unfold fetch_locked_dolo. destruct (cached_ids _) as [S|]; [|done].
  cbn [mbind py_mbind py_bind]. destruct (List.filter _ ids).
  - intros [= <-]. by left.
  - intros [= <-]. right. unfold on_disk. cbn [saves cache]. apply last_snoc.
Qed.

(** A batch that fails is cached as it is: when no POST of a run
    brings a result list, the run ends with the error record stored
    for every token, flushed to the cache file; and a later run over
    this file finds every token cached, hands nothing to
    make_batch_call and saves nothing, whatever the endpoint would
    answer then. *)
Theorem failed_batches_stay_cached (net : list Z -> nat -> http)
    (completion : list (list Z) -> list (list Z)) (ids : list Z) :
  (forall chunk retry, unanswered (net chunk retry) = true) ->
  (forall l, completion l ≡ₚ l) ->
  (forall tid, tid ∈ ids -> (0 <= tid)%Z) ->
  exists p,
    fetch_locked_dolo (call_over net) completion None ids = Ok p
    /\ (forall tid, tid ∈ ids -> cache p !! str tid = Some error_locked)
    /\ (ids <> [] -> on_disk p = Some (cache p))
    /\ forall (call' : list Z -> gmap Z (locked F)) completion',
         fetch_locked_dolo call' completion' (Some (cache p)) ids
         = Ok {| cache := cache p; errors := 0; batches := []; saves := [] |}.
Proof.
  intros Hnet Hperm Hnn. set (record := fun _ : Z => Some (error_locked (F := F))).
  destruct (LockedFacts.fetch_locked_dolo_spec record (call_over net)
              (call_over_fails net Hnet) completion Hperm None ids)
    as (p & missing & Hp & Hmissing & _ & [Hin Hout]); [by intros k v ?|done|].
  cbn [default cache] in Hmissing, Hin, Hout.
  assert (Hm : forall tid, tid ∈ missing <-> tid ∈ ids).
  { intros tid. rewrite Hmissing, lookup_empty. tauto. }
  assert (Hcache : forall tid, tid ∈ ids -> cache p !! str tid = Some error_locked).
  { intros tid Ht. apply Hin; [by apply Hm|done]. }
  assert (Hpop : populated record (cache p) ids).
  { intros k v Hk. destruct (decide (k ∈ map str ids)) as [Hkin|Hkout].
    - apply list_elem_of_fmap in Hkin as (tid & -> & Ht).
      exists tid. rewrite Hcache in Hk by done. by injection Hk as <-.
    - rewrite Hout, lookup_empty in Hk; [done|].
      intros tid Ht ->. exfalso. apply Hkout, list_elem_of_fmap_2. by apply Hm. }
  exists p. split_and!; [done|done|..].
  - intros Hne. destruct (fetch_locked_dolo_flushed _ _ _ _ _ Hp) as [(_ & _ & E)|E];
      [|done].
    destruct ids as [|tid ids]; [done|].
    specialize (Hcache tid ltac:(left)). rewrite E in Hcache. by cbn in Hcache.
  - intros call' completion'. unfold fetch_locked_dolo. cbn [default]. unfold id.
    destruct (LockedFacts.cached_ids_spec record (cache p) ids Hpop Hnn)
      as (S & -> & HS).
    cbn [mbind py_mbind py_bind]. rewrite filter_none; [done|].
    intros tid Ht. apply bool_decide_eq_false. intros Hno. apply Hno.
    apply HS; [by apply Hnn|]. rewrite Hcache by done. eauto.
Qed.

End WithFloat.

Import Scenarios.

Lemma batch_call_all_fail_witness :
  make_batch_call (F := Q) (fun _ => TooManyRequests) [4; 9]%Z !! 9%Z
  = if decide (9%Z ∈ [4; 9]%Z) then Some error_locked else None.
Proof.
  apply (batch_call_all_fail (F := Q) (fun _ => TooManyRequests) [4; 9]%Z 9%Z).
  reflexivity.
Defined.

Lemma failed_batches_stay_cached_witness :
  exists p,
    fetch_locked_dolo (F := Q) (call_over (fun _ _ => Broken)) reverse None tokens = Ok p
    /\ (forall tid, tid ∈ tokens -> cache p !! str tid = Some error_locked)
    /\ (tokens <> [] -> on_disk p = Some (cache p))
    /\ forall (call' : list Z -> gmap Z (locked Q)) completion',
         fetch_locked_dolo call' completion' (Some (cache p)) tokens
         = Ok {| cache := cache p; errors := 0; batches := []; saves := [] |}.
Proof.
  apply (failed_batches_stay_cached (F := Q) (fun _ _ => Broken) reverse tokens).
  - reflexivity.
  - intros l. apply reverse_Permutation.
  - intros tid Ht. unfold tokens in Ht. rewrite !elem_of_cons, elem_of_nil in Ht. lia.
Defined.

End BatchFacts.

Module VoteFacts.
Import Py Votes.

Lemma index_elem {A} (l : list A) (i : Z) (x : A) : index l i = Some x -> x ∈ l.
Proof.
  unfold index. repeat case_match; try done; apply list_elem_of_lookup_2.
Qed.

Lemma index_is_Some {A} (l : list A) (i : Z) :
  (- Z.of_nat (length l) <= i < Z.of_nat (length l))%Z -> is_Some (index l i).
Proof.
  intros Hi. unfold index.
  destruct (Z.leb_spec 0 i); [apply lookup_lt_is_Some; lia|].
  destruct (Z.leb_spec (- Z.of_nat (length l)) i); [|lia].
  apply lookup_lt_is_Some. lia.
Qed.

Section WithFloat.
Context `{PyFloat F}.

Lemma fill_zeros_lookup (token_ids : list Z) : forall (out : gmap Z F) tid,
  fill_zeros token_ids out !! tid
  = match out !! tid with
    | Some v => Some v
    | None => if decide (tid ∈ token_ids) then Some (of_int 0) else None
    end.
Proof.
  unfold fill_zeros.
  induction token_ids as [|t token_ids IH]; intros out tid; cbn [fold_left].
  - destruct (out !! tid); [done|]. by rewrite decide_False by apply not_elem_of_nil.
  - rewrite IH. destruct (out !! t) eqn:Et.
    + destruct (out !! tid) eqn:E; [done|].
      destruct (decide (tid ∈ token_ids)).
      * by rewrite decide_True by (by right).
      * rewrite decide_False; [done|]. rewrite elem_of_cons. intros [->|?]; congruence.
    + destruct (decide (tid = t)) as [->|Hne].
      * rewrite lookup_insert_eq, Et. by rewrite decide_True by left.
      * rewrite lookup_insert_ne by done. destruct (out !! tid); [done|].
        destruct (decide (tid ∈ token_ids)).
        -- by rewrite decide_True by (by right).
        -- rewrite decide_False; [done|]. rewrite elem_of_cons. tauto.
Qed.

Lemma fill_zeros_dom (token_ids : list Z) (out : gmap Z F) :
  dom (fill_zeros token_ids out) = dom out ∪ list_to_set token_ids.
Proof.
  apply set_eq. intros tid.
  rewrite elem_of_union, !elem_of_dom, elem_of_list_to_set, fill_zeros_lookup.
  unfold is_Some. destruct (out !! tid), (decide (tid ∈ token_ids)); naive_solver.
Qed.

Lemma store_votes_dom (token_ids : list Z) (rs : list item) :
  forall out : gmap Z F,
    dom out ⊆ list_to_set token_ids ->
    dom (store_votes token_ids rs out).1 ⊆ list_to_set (C := gset Z) token_ids.
Proof.
  induction rs as [|r rs IH]; intros out Hout; cbn [store_votes]; [done|].
  cbv zeta. destruct (_ <? _)%Z; [|by apply IH].
  destruct (index token_ids _) as [tid|] eqn:E; [|done].
  apply index_elem in E.
  destruct (weight_of r); [|done]. apply IH. rewrite dom_insert. set_solver.
Qed.

Lemma store_votes_readable (token_ids : list Z) (rs : list item) :
  Forall (readable token_ids) rs ->
  forall out : gmap Z F, (store_votes token_ids rs out).2 = true.
Proof.
  induction 1 as [|r rs [Hid [w Hw]] _ IH]; intros out; cbn [store_votes]; [done|].
  cbv zeta. destruct (Z.ltb_spec (default 0%Z (item_id r)) (Z.of_nat (length token_ids)));
    [|apply IH].
  destruct (index_is_Some token_ids (default 0%Z (item_id r))) as [tid ->]; [lia|].
  rewrite Hw. apply IH.
Qed.

Lemma vote_attempts_dom (post : nat -> http) (token_ids : list Z) :
  forall retries retry (out : gmap Z F),
    dom out ⊆ list_to_set token_ids ->
    dom (vote_attempts retries retry post token_ids out).1
      ⊆ list_to_set (C := gset Z) token_ids.
Proof.
  induction retries as [|retries IH]; intros retry out Hout; cbn [vote_attempts]; [done|].
  destruct (post retry) as [| | |rs]; [by apply IH..|].
  pose proof (store_votes_dom token_ids rs out Hout) as Hs.
  destruct (store_votes token_ids rs out).2; [|by apply IH].
  cbn [fst]. rewrite fill_zeros_dom. set_solver.
Qed.

Lemma vote_endpoints_dom (post : nat -> nat -> http) (token_ids : list Z) :
  forall urls (out : gmap Z F),
    dom out ⊆ list_to_set token_ids ->
    dom (vote_endpoints post urls token_ids out) ⊆ list_to_set (C := gset Z) token_ids.
Proof.
  induction urls as [|url urls IH]; intros out Hout; cbn [vote_endpoints].
  - rewrite fill_zeros_dom. set_solver.
  - cbv zeta. pose proof (vote_attempts_dom (post url) token_ids 3 0 out Hout) as Ha.
    destruct (vote_attempts 3 0 (post url) token_ids out).2; [done|].
    destruct (decide _); [by apply IH|done].
Qed.

(** Whatever the endpoints answer, the map make_vote_batch_call
    returns has no key outside the batch it was given. *)
Theorem vote_call_keys (post : nat -> nat -> http) (token_ids : list Z) :
  dom (make_vote_batch_call post token_ids) ⊆ list_to_set (C := gset Z) token_ids.
Proof. apply vote_endpoints_dom. set_solver. Qed.

Lemma vote_attempts_orderly (post : nat -> http) (token_ids : list Z) :
  (forall retry rs, post retry = Results rs -> Forall (readable token_ids) rs) ->
  forall retries retry (out : gmap Z F),
    dom out ⊆ list_to_set token_ids ->
    let r := vote_attempts retries retry post token_ids out in
    (r.2 = true /\ dom r.1 = list_to_set token_ids) \/ r = (out, false).
Proof.
  intros Hpost. induction retries as [|retries IH]; intros retry out Hout r; subst r;
    cbn [vote_attempts]; [by right|].
  destruct (post retry) as [| | |rs] eqn:E; [by apply IH..|].
  rewrite store_votes_readable by eauto. left. split; [done|].
  cbn [fst]. rewrite fill_zeros_dom.
  pose proof (store_votes_dom token_ids rs out Hout). set_solver.
Qed.

Lemma vote_endpoints_orderly (post : nat -> nat -> http) (token_ids : list Z) :
  orderly post token_ids ->
  forall urls,
    dom (vote_endpoints post urls token_ids (∅ : gmap Z F)) = list_to_set token_ids.
Proof.
  intros Hpost. induction urls as [|url urls IH]; cbn [vote_endpoints].
  - rewrite fill_zeros_dom. set_solver.
  - cbv zeta.
    destruct (vote_attempts_orderly (post url) token_ids (Hpost url) 3 0 ∅)
      as [[-> Hd]| ->]; [set_solver|done|].
    cbn [fst snd]. by rewrite decide_True.
Qed.

(** When every list the endpoints answer with holds readable
    elements, every token of the batch has a weight in the map
    make_vote_batch_call returns, and no other key has. *)
Theorem vote_call_covers (post : nat -> nat -> http) (token_ids : list Z) :
  orderly post token_ids ->
  dom (make_vote_batch_call post token_ids) = list_to_set (C := gset Z) token_ids.
Proof. intros Hpost. by apply vote_endpoints_orderly. Qed.

Lemma vote_attempts_fail (post : nat -> http) (token_ids : list Z) :
  (forall retry, is_results (post retry) = false) ->
  forall retries retry (out : gmap Z F),
    vote_attempts retries retry post token_ids out = (out, false).
Proof.
  intros Hpost. induction retries as [|retries IH]; intros retry out; [done|].
  cbn [vote_attempts]. specialize (Hpost retry).
  destruct (post retry); [apply IH..|done].
Qed.

Lemma vote_endpoints_fail (post : nat -> nat -> http) (token_ids : list Z) :
  (forall url retry, is_results (post url retry) = false) ->
  forall urls,
    vote_endpoints post urls token_ids (∅ : gmap Z F) = fill_zeros token_ids ∅.
Proof.
  intros Hpost. induction urls as [|url urls IH]; cbn [vote_endpoints]; [done|].
  cbv zeta. rewrite vote_attempts_fail by done. cbn [fst snd].
  by rewrite decide_True.
Qed.

(** When no POST to any endpoint brings a result list, every token
    of the batch gets the weight 0.0, unflagged: the map is the one
    an endpoint gives that answers with an empty list. *)
Theorem vote_call_all_fail (post : nat -> nat -> http) (token_ids : list Z) :
  (forall url retry, is_results (post url retry) = false) ->
  (forall tid, make_vote_batch_call post token_ids !! tid
               = if decide (tid ∈ token_ids) then Some (of_int 0) else None)
  /\ make_vote_batch_call post token_ids
     = make_vote_batch_call (F := F) (fun _ _ => Results []) token_ids.
Proof.
  intros Hpost. unfold make_vote_batch_call. rewrite vote_endpoints_fail by done.
  split; [|done].
  intros tid. by rewrite fill_zeros_lookup, lookup_empty.
Qed.

(** *** fetch_vote_weights *)

Section Weigh.
Variable call : list Z -> gmap Z F.
Hypothesis call_covers : forall chunk, dom (call chunk) = list_to_set chunk.
Variable completion : list (list Z) -> list (list Z).
Hypothesis completion_perm : forall l, completion l ≡ₚ l.

Lemma fold_store_weights (cs : list (list Z)) : forall w,
  let w' := fold_left (store_weights call) cs w in
  dom (vote_weights w') = dom (vote_weights w) ∪ list_to_set (concat cs)
  /\ vote_batches w' = vote_batches w.
Proof.
  induction cs as [|c cs IH]; intros w w'; subst w'; cbn [fold_left concat].
  - split; [set_solver|done].
  - destruct (IH (store_weights call w c)) as [-> ->]. cbn [store_weights vote_weights
      vote_batches]. split; [|done].
    rewrite dom_union_L, call_covers, list_to_set_app_L. set_solver.
Qed.

Lemma weigh_windows_spec (ws : list (list (list Z))) : forall w,
  let w' := weigh_windows call completion ws w in
  dom (vote_weights w') = dom (vote_weights w) ∪ list_to_set (concat (concat ws))
  /\ vote_batches w' = vote_batches w ++ concat ws.
Proof.
  induction ws as [|window ws IH]; intros w w'; subst w'; cbn [weigh_windows concat].
  - rewrite app_nil_r. split; [set_solver|done].
  - match goal with |- context [fold_left _ _ ?q] =>
      destruct (fold_store_weights (completion window) q) as [Hd Hb];
      destruct (IH (fold_left (store_weights call) (completion window) q))
        as [-> ->] end.
    rewrite Hd, Hb. cbn [vote_weights vote_batches].
    split; [|by rewrite app_assoc].
    rewrite concat_app, list_to_set_app_L.
    assert (list_to_set (C := gset Z) (concat (completion window))
            = list_to_set (concat window)) as ->; [|set_solver].
    apply set_eq. intros tid. rewrite !elem_of_list_to_set.
    by rewrite (completion_perm window).
Qed.

End Weigh.

(** With a batch call that returns a weight for every token it is
    given, fetch_vote_weights returns a weight for every token of
    the list and for nothing else; the batches it hands out are the
    list cut into consecutive pieces of at most BATCH_SIZE tokens,
    whatever the order in which the pool finishes them. *)
Theorem vote_weights_cover (call : list Z -> gmap Z F)
    (completion : list (list Z) -> list (list Z)) (all_token_ids : list Z) :
  (forall chunk, dom (call chunk) = list_to_set chunk) ->
  (forall l, completion l ≡ₚ l) ->
  let w := fetch_vote_weights call completion all_token_ids in
  dom (vote_weights w) = list_to_set all_token_ids
  /\ concat (vote_batches w) = all_token_ids
  /\ Forall (fun b => 0 < length b <= UpdateData.BATCH_SIZE) (vote_batches w).
Proof.
  intros Hcall Hperm w. subst w. unfold fetch_vote_weights.
  match goal with |- context [weigh_windows call completion ?ws ?q] =>
    destruct (weigh_windows_spec call Hcall completion Hperm ws q) as [Hd Hb] end.
  cbv zeta in Hd, Hb. rewrite Hd, Hb. cbn [vote_weights vote_batches app].
  assert (0 < UpdateData.MAX_WORKERS) as Hw by (unfold UpdateData.MAX_WORKERS; lia).
  assert (0 < UpdateData.BATCH_SIZE) as Hs by (unfold UpdateData.BATCH_SIZE; lia).
  rewrite !chunks_concat by done. split_and!; [set_solver|done|].
  by apply chunks_aux_lengths.
Qed.

End WithFloat.

Import Runs.

Lemma vote_call_covers_witness :
  dom (make_vote_batch_call (F := Q) slow_endpoint [7; 8]%Z)
  = list_to_set (C := gset Z) [7; 8]%Z.
Proof.
  apply (vote_call_covers (F := Q) slow_endpoint [7; 8]%Z).
  intros url retry rs E.
  assert (rs = [ {| item_id := Some 1%Z; item_result := Some "0xde0b6b3a7640000" |};
                 {| item_id := None; item_result := Some "0x" |} ]) as ->.
  { unfold slow_endpoint in E. destruct url as [|url], retry as [|retry];
      by inversion E. }
  repeat constructor; cbn; try lia; eauto.
Defined.

Lemma vote_call_all_fail_witness :
  (forall tid, make_vote_batch_call (F := Q) dead_endpoints [7; 8]%Z !! tid
               = if decide (tid ∈ [7; 8]%Z) then Some (of_int 0) else None)
  /\ make_vote_batch_call (F := Q) dead_endpoints [7; 8]%Z
     = make_vote_batch_call (F := Q) (fun _ _ => Results []) [7; 8]%Z.
Proof.
  apply (vote_call_all_fail (F := Q) dead_endpoints [7; 8]%Z). reflexivity.
Defined.

Lemma vote_weights_cover_witness :
  let w := fetch_vote_weights (F := Q) (call_over dead_network) reverse [3; 1; 2]%Z in
  dom (vote_weights w) = list_to_set [3; 1; 2]%Z
  /\ concat (vote_batches w) = [3; 1; 2]%Z
  /\ Forall (fun b => 0 < length b <= UpdateData.BATCH_SIZE) (vote_batches w).
Proof.
  apply (vote_weights_cover (F := Q) (call_over dead_network) reverse [3; 1; 2]%Z).
  - intros chunk. apply vote_endpoints_orderly. by intros url retry rs E.
  - intros l. apply reverse_Permutation.
Defined.

End VoteFacts.

Module MergeFacts.
Import Py UpdateData Merge.

Section WithFloat.
Context `{PyFloat F}.
Variable cache : gmap string (locked F).
Variable vote_weights : gmap Z F.

Lemma summary_step (s : sums) (ends : list Z) (tid : Z) :
  summary s ends ->
  summary (add_token cache vote_weights s tid) (ends ++ counted_ends cache [tid]).
Proof.
  intros Hs. unfold counted_ends, add_token. cbn [map List.filter].
  fold (end_of cache tid).
  destruct (Z.ltb_spec 0 (end_of cache tid)) as [Hpos|Hneg].
  - destruct ends as [|x ends]; cbn [app summary earliest_end latest_end] in *.
    + destruct Hs as [-> ->]. exists (end_of cache tid).
      rewrite (proj2 (Z.ltb_lt _ _)) by done.
      split_and!; [done|by left|by left|]. constructor; [lia|constructor].
    + destruct Hs as (e & -> & He & Hl & Hall).
      set (z := end_of cache tid) in *. set (l := latest_end s) in *.
      exists (if (z <? e)%Z then z else e). split; [done|].
      assert (Hz : z ∈ x :: ends ++ [z]).
      { right. apply elem_of_app. right. by left. }
      assert (Hsub : forall y, y ∈ x :: ends -> y ∈ x :: ends ++ [z]).
      { intros y [->|Hy]%elem_of_cons; [by left|].
        right. apply elem_of_app. by left. }
      split; [by destruct (z <? e)%Z; auto|].
      split; [by destruct (l <? z)%Z; auto|].
      change (x :: ends ++ [z]) with ((x :: ends) ++ [z]).
      apply Forall_app. split.
      * eapply Forall_impl; [exact Hall|]. cbn. intros y Hy.
        destruct (Z.ltb_spec z e), (Z.ltb_spec l z); lia.
      * constructor; [|constructor].
        destruct (Z.ltb_spec z e), (Z.ltb_spec l z); try lia.
        all: apply Forall_cons in Hall as [? _]; lia.
  - rewrite app_nil_r. by destruct ends.
Qed.

Lemma summary_fold (tids : list Z) : forall s ends,
  summary s ends ->
  summary (fold_left (add_token cache vote_weights) tids s)
    (ends ++ counted_ends cache tids).
Proof.
  induction tids as [|tid tids IH]; intros s ends Hs; cbn [fold_left].
  - unfold counted_ends. cbn. by rewrite app_nil_r.
  - apply (summary_step s ends tid) in Hs. apply IH in Hs.
    rewrite <- app_assoc in Hs. unfold counted_ends in *.
    cbn [map List.filter app] in *.
    by destruct (0 <? end_of cache tid)%Z.
Qed.

(** The two lock ends main gives a holder summarise the ends of its
    tokens that are above zero: both are 0 when no token has one;
    otherwise the earliest is the least and the latest the greatest
    of them, so the earliest is never after the latest.  A token
    missing from the cache counts as end 0. *)
Theorem lock_end_summary (h : holder) :
  let m := (merge_holder cache vote_weights h).1 in
  match counted_ends cache (token_ids h) with
  | [] => earliest_lock_end m = 0%Z /\ latest_lock_end m = 0%Z
  | ends =>
      earliest_lock_end m ∈ ends /\ latest_lock_end m ∈ ends
      /\ Forall (fun e => (earliest_lock_end m <= e <= latest_lock_end m)%Z) ends
  end.
Proof.
  intros m. subst m. unfold merge_holder. cbn [fst earliest_lock_end latest_lock_end].
  pose proof (summary_fold (token_ids h) sums0 [] (conj eq_refl eq_refl)) as Hs.
  cbn [app] in Hs. destruct (counted_ends cache (token_ids h)) as [|x ends].
  - destruct Hs as [-> ->]. done.
  - destruct Hs as (e & -> & He & Hl & Hall). cbn [default]. unfold id.
    split_and!; [done..|]. eapply Forall_impl; [exact Hall|]. cbn. lia.
Qed.

(** *** The order of the holders *)

Hypothesis fltb_asym : forall a b : F, fltb a b = true -> fltb b a = false.

Lemma insert_by_dolo_perm (x : merged F) (l : list (merged F)) :
  insert_by_dolo x l ≡ₚ x :: l.
Proof.
  induction l as [|y l IH]; cbn [insert_by_dolo]; [done|].
  destruct (fltb _ _); [|done]. rewrite IH. apply perm_swap.
Qed.

Lemma sort_by_dolo_perm (l : list (merged F)) : sort_by_dolo l ≡ₚ l.
Proof.
  induction l as [|x l IH]; cbn; [done|].
  fold (sort_by_dolo l). by rewrite insert_by_dolo_perm, IH.
Qed.

Lemma insert_by_dolo_sorted (x : merged F) (l : list (merged F)) :
  Sorted descending l -> Sorted descending (insert_by_dolo x l).
Proof.
  induction 1 as [|y l Hl IH Hhd]; cbn [insert_by_dolo].
  - by repeat constructor.
  - destruct (fltb (total_dolo x) (total_dolo y)) eqn:E.
    + constructor; [done|]. destruct l as [|z l]; cbn [insert_by_dolo].
      * constructor. by apply fltb_asym.
      * destruct (fltb (total_dolo x) (total_dolo z)).
        -- constructor. by inversion Hhd.
        -- constructor. by apply fltb_asym.
    + constructor; [by constructor|]. by constructor.
Qed.

Lemma sort_by_dolo_sorted (l : list (merged F)) : Sorted descending (sort_by_dolo l).
Proof.
  induction l as [|x l IH]; cbn; [constructor|].
  by apply insert_by_dolo_sorted.
Qed.

End WithFloat.

Lemma Sorted_fmap_inv {A B} (R : relation B) (f : A -> B) (l : list A) :
  Sorted R (f <$> l) -> Sorted (fun x y => R (f x) (f y)) l.
Proof.
  induction l as [|x l IH]; [constructor|]. cbn. intros Hs.
  apply Sorted_inv in Hs as [Hs Hhd]. constructor; [by apply IH|].
  destruct l as [|y l]; [constructor|]. constructor. by inversion Hhd.
Qed.

(** The holders main writes are the merged holders, each once, in an
    order in which none is directly followed by a holder with a
    greater total_dolo, and their ranks count up from 1 in that
    order. *)
Theorem holders_ranked `{PyFloat F} (checksum : string -> string)
    (holders : list holder) (st : stats)
    (cache : gmap string (locked F)) (vote_weights : gmap Z F) :
  (forall a b : F, fltb a b = true -> fltb b a = false) ->
  let out := out_holders (merge checksum holders st cache vote_weights) in
  map rank out = seq 1 (length holders)
  /\ map (fun r => m_token_ids (ranked_holder r)) out ≡ₚ map token_ids holders
  /\ Sorted (fun a b => fltb (total_dolo (ranked_holder a))
                          (total_dolo (ranked_holder b)) = false) out.
Proof.
  intros Hasym out. subst out. unfold merge. cbn [out_holders].
  set (ms := map fst (map (merge_holder cache vote_weights) holders)).
  pose proof (sort_by_dolo_perm ms) as Hperm.
  pose proof (sort_by_dolo_sorted Hasym ms) as Hsorted.
  set (sorted := sort_by_dolo ms) in *.
  assert (Hlen : length sorted = length holders).
  { rewrite Hperm. unfold ms. by rewrite !length_map. }
  assert (Hfield : forall {A} (f : merged F -> A),
            (forall m, f (ranked_holder (with_address checksum
                            {| rank := 0; ranked_holder := m |})) = f m) ->
            map (fun r => f (ranked_holder r))
                (map (with_address checksum) (assign_ranks sorted))
            = map f sorted).
  { intros A f Hf. apply list_eq. intros i. unfold assign_ranks.
    rewrite !list_lookup_fmap, list_lookup_imap.
    destruct (sorted !! i) as [m|]; [|done]. cbn. f_equal. apply (Hf m). }
  split_and!.
  - rewrite <- Hlen. apply list_eq. intros i. unfold assign_ranks.
    rewrite !list_lookup_fmap, list_lookup_imap.
    destruct (sorted !! i) as [m|] eqn:E; cbn.
    + apply lookup_lt_Some in E. by rewrite lookup_seq_lt.
    + apply lookup_ge_None in E. by rewrite lookup_seq_ge.
  - rewrite (Hfield _ m_token_ids) by done.
    rewrite Hperm. unfold ms. by rewrite !map_map.
  - apply Sorted_fmap_inv with (f := fun r => total_dolo (ranked_holder r))
                               (R := fun a b : F => fltb a b = false).
    change (Sorted (fun a b : F => fltb a b = false)
              (map (fun r => total_dolo (ranked_holder r))
                 (map (with_address checksum) (assign_ranks sorted)))).
    rewrite (Hfield _ total_dolo) by done. clear -Hsorted.
    induction Hsorted as [|x l Hl IH Hhd]; [constructor|].
    cbn. constructor; [done|]. destruct Hhd; constructor. done.
Qed.

Lemma exact_lt_asym (a b : Q) : fltb a b = true -> fltb b a = false.
Proof.
  cbn. unfold Exact.lt. rewrite <- (Qcompare_antisym a b).
  by destruct (a ?= b)%Q.
Qed.

Import Runs.

Lemma holders_ranked_witness :
  let out := out_holders (merge (F := Q) id two_holders two_holders_stats
                            three_locks ∅) in
  map rank out = seq 1 (length two_holders)
  /\ map (fun r => m_token_ids (ranked_holder r)) out ≡ₚ map token_ids two_holders
  /\ Sorted (fun a b => fltb (total_dolo (ranked_holder a))
                          (total_dolo (ranked_holder b)) = false) out.
Proof.
  apply (holders_ranked (F := Q) id two_holders two_holders_stats three_locks ∅).
  exact exact_lt_asym.
Defined.

Example merge_two_holders :
  map (fun r => (rank r, m_token_ids (ranked_holder r),
                 earliest_lock_end (ranked_holder r),
                 latest_lock_end (ranked_holder r)))
      (out_holders (merge (F := Q) id two_holders two_holders_stats three_locks ∅))
  = [ (1, [2; 3]%Z, 1750000000%Z, 1750000000%Z);
      (2, [1%Z], 1800000000%Z, 1800000000%Z) ].
Proof. vm_compute. reflexivity. Qed.

End MergeFacts.

Module ExitFacts.
Import EarlyExits Exits.

Section WithFloat.
Context `{PyFloat F}.

Lemma filter_split {A} (f : A -> bool) (l : list A) :
  length (List.filter f l) + length (List.filter (fun x => negb (f x)) l) = length l.
Proof.
  induction l as [|x l IH]; [done|]. cbn. destruct (f x); cbn; lia.
Qed.

Lemma resolved_length (c : gmap string (penalty F)) (events : list (event F)) :
  length (resolved c events) <= length events.
Proof.
  induction events as [|ev events IH]; [done|].
  rewrite AggregateFacts.resolved_cons. destruct (c !! tx_hash ev); cbn; lia.
Qed.

Lemma insert_desc_perm (x : entry) (l : list (entry (F := F))) :
  insert_desc x l ≡ₚ x :: l.
Proof.
  induction l as [|y l IH]; cbn [insert_desc]; [done|].
  destruct (_ <=? _)%Z; [done|]. rewrite IH. apply perm_swap.
Qed.

Lemma sort_desc_perm (l : list (entry (F := F))) : sort_desc l ≡ₚ l.
Proof.
  induction l as [|x l IH]; cbn; [done|].
  fold (sort_desc l). by rewrite insert_desc_perm, IH.
Qed.

Lemma insert_desc_sorted (x : entry) (l : list (entry (F := F))) :
  StronglySorted not_earlier l -> StronglySorted not_earlier (insert_desc x l).
Proof.
  induction 1 as [|y l Hl IH Hall]; cbn [insert_desc].
  - by repeat constructor.
  - destruct (Z.leb_spec (timestamp y.1) (timestamp x.1)) as [Hle|Hgt].
    + constructor; [by constructor|]. constructor; [done|].
      eapply Forall_impl; [exact Hall|]. unfold not_earlier. cbn. lia.
    + constructor; [done|]. rewrite insert_desc_perm.
      constructor; [unfold not_earlier; lia|done].
Qed.

Lemma sort_desc_sorted (l : list (entry (F := F))) :
  StronglySorted not_earlier (sort_desc l).
Proof.
  induction l as [|x l IH]; cbn; [constructor|]. by apply insert_desc_sorted.
Qed.

Lemma insert_desc_at_time (t : Z) (x : entry) (l : list (entry (F := F))) :
  at_time t (insert_desc x l) = at_time t (x :: l).
Proof.
  unfold at_time. induction l as [|y l IH]; cbn [insert_desc]; [done|].
  destruct (Z.leb_spec (timestamp y.1) (timestamp x.1)) as [Hle|Hgt]; [done|].
  cbn [List.filter] in *. rewrite IH.
  destruct (Z.eqb_spec (timestamp x.1) t), (Z.eqb_spec (timestamp y.1) t);
    try done. lia.
Qed.

Lemma sort_desc_at_time (t : Z) (l : list (entry (F := F))) :
  at_time t (sort_desc l) = at_time t l.
Proof.
  induction l as [|x l IH]; [done|].
  change (sort_desc (x :: l)) with (insert_desc x (sort_desc l)).
  rewrite insert_desc_at_time. unfold at_time in *. cbn. by rewrite IH.
Qed.

(** In the statistics of a run, the early and the normal exits are
    exactly the events whose receipt is in the cache: their counts
    add up to the number of those events, which is at most
    total_withdrawals, the number of all events; an event whose
    receipt could not be fetched is in total_withdrawals only.  The
    list of early exits has total_early_exits entries. *)
Theorem exit_counts (c : gmap string (penalty F)) (events : list (event F))
    (now : string) :
  let o := phase4 c events now in
  total_early_exits (out_stats o) + total_normal_exits (out_stats o)
    = length (resolved c events)
  /\ length (resolved c events) <= total_withdrawals (out_stats o)
  /\ total_withdrawals (out_stats o) = length events
  /\ length (out_early_exits o) = total_early_exits (out_stats o).
Proof.
  intros o. subst o. rewrite AggregateFacts.phase4_from_scratch.
  unfold aggregate_from_scratch, make_stats.
  cbn [out_stats out_early_exits total_early_exits total_normal_exits
       total_withdrawals early_exits normal_exits].
  split_and!.
  - apply (filter_split (fun e : entry => is_early_exit e.2)).
  - apply resolved_length.
  - done.
  - by rewrite sort_desc_perm.
Qed.

(** The early exits a run writes are the early exits of the events,
    each once, latest first; exits of the same timestamp keep the
    order of their events. *)
Theorem early_exits_order (c : gmap string (penalty F)) (events : list (event F))
    (now : string) :
  let out := out_early_exits (phase4 c events now) in
  out ≡ₚ early c events
  /\ StronglySorted not_earlier out
  /\ forall t, at_time t out = at_time t (early c events).
Proof.
  intros out. subst out. rewrite AggregateFacts.phase4_from_scratch.
  unfold aggregate_from_scratch. cbn [out_early_exits]. fold (early c events).
  split_and!.
  - apply sort_desc_perm.
  - apply sort_desc_sorted.
  - intros t. apply sort_desc_at_time.
Qed.

End WithFloat.

End ExitFacts.

Module ExercisedFacts.
Import Py Receipt UpdateExercised Exercised.






Section WithFloat.
Context `{PyFloat F}.
Variable receipts : string -> option receipt.












(** *** The period *)





End WithFloat.

Import Scenarios Runs.

Lemma first_run_saves :
  main None [tx_a] small_payments "2026-01-01" = Ok (Some first_saved).
Proof. vm_compute. reflexivity. Qed.

Lemma second_run_saves :
  main (Some first_saved) [tx_b] small_payments "2026-01-02" = Ok (Some second_saved).
Proof. vm_compute. reflexivity. Qed.





End ExercisedFacts.

Module DurationFacts.
Import Py AvgLock Durations.

(** *** The distribution *)

Section WithFloat.
Context `{PyFloat F}.

Lemma bucket_of_known (d : Z) : bucket_of (F := F) d ∈ BUCKETS.
Proof.
  unfold bucket_of, BUCKETS. cbv zeta.
  repeat (destruct (fltb _ _); [set_solver|]). set_solver.
Qed.

Lemma incr_count (k k' : string) (b : gmap string nat) :
  count (incr k b) k' = if decide (k = k') then S (count b k) else count b k'.
Proof.
  unfold count, incr. destruct (decide (k = k')) as [<-|Hne].
  - by rewrite lookup_insert_eq.
  - by rewrite lookup_insert_ne.
Qed.

Lemma incr_counted (k : string) (b : gmap string nat) :
  k ∈ BUCKETS -> counted (incr k b) = S (counted b).
Proof.
  unfold BUCKETS, counted. rewrite !elem_of_cons, elem_of_nil.
  intros [->|[->|[->|[->|[->|[]]]]]]; rewrite !incr_count;
    repeat case_decide; try congruence; lia.
Qed.

Lemma incr_dom (k : string) (b : gmap string nat) :
  k ∈ dom b -> dom (incr k b) = dom b.
Proof. intros Hk. unfold incr. rewrite dom_insert_L. set_solver. Qed.

Lemma distribution_fold (durations : list Z) : forall b : gmap string nat,
  dom b = list_to_set BUCKETS ->
  let r := fold_left (fun b d => incr (bucket_of (F := F) d) b) durations b in
  dom r = list_to_set BUCKETS /\ counted r = counted b + length durations.
Proof.
  induction durations as [|d durations IH]; intros b Hb r; subst r; cbn [fold_left].
  - split; [done|]. cbn. lia.
  - pose proof (bucket_of_known d) as Hk.
    destruct (IH (incr (bucket_of d) b)) as [Hdom Hcount].
    { rewrite incr_dom; [done|]. rewrite Hb. by apply elem_of_list_to_set. }
    split; [done|]. rewrite Hcount, incr_counted by done. cbn [length]. lia.
Qed.

(** Whatever the durations, the distribution main saves has the five
    keys and no other, and its five counts add up to the number of
    durations: every duration is counted in one bucket, once. *)
Theorem bucket_counts_add_up (durations : list Z) :
  let b := distribution (F := F) durations in
  dom b = list_to_set BUCKETS
  /\ count b "< 1 month" + count b "1-3 months" + count b "3-6 months"
     + count b "6-12 months" + count b "1-2 years" = length durations.
Proof.
  intros b. subst b. unfold distribution.
  destruct (distribution_fold durations empty_buckets) as [Hdom Hcount].
  - unfold empty_buckets, BUCKETS. rewrite !dom_insert_L, dom_empty_L. set_solver.
  - split; [done|]. exact Hcount.
Qed.

End WithFloat.

(** *** The durations *)

Lemma extract_in_window (tx : obj) (d : Z) :
  extract_lock_duration tx = Ok (Some d) -> in_window d.
Proof.
  unfold extract_lock_duration, in_window.
  destruct (tx !! "input") as [inp|]; [|done]. cbn [of_option mbind py_mbind py_bind].
  destruct (String.length inp <? 266)%nat; [done|].
  destruct (int16 _) as [lock_end|]; [|done]. cbn [of_option mbind py_mbind py_bind].
  destruct ((tx !! "timeStamp") ≫= int10) as [tx_time|]; [|done].
  cbn [of_option mbind py_mbind py_bind]. cbv zeta.
  destruct (Z.leb_spec (lock_end - tx_time) 0); cbn [orb]; [done|].
  destruct (Z.ltb_spec MAX_DURATION (lock_end - tx_time)); [done|].
  intros [= <-]. lia.
Qed.

Lemma collect_in_window (txs : list obj) : forall acc ds,
  collect acc txs = Ok ds ->
  Forall in_window acc ->
  Forall in_window ds /\ length acc <= length ds <= length acc + length txs.
Proof.
  induction txs as [|tx txs IH]; intros acc ds Hds Hacc; cbn [collect] in Hds.
  - injection Hds as <-. split; [done|]. cbn. lia.
  - destruct (extract_lock_duration tx) as [[d|]|] eqn:E; [| |done];
      cbn [mbind py_mbind py_bind] in Hds.
    + apply IH in Hds as [Hall Hlen].
      * split; [done|]. rewrite length_app in Hlen. cbn [length] in *. lia.
      * apply Forall_app. split; [done|]. constructor; [|constructor].
        by apply extract_in_window in E.
    + apply IH in Hds as [Hall Hlen]; [|done]. split; [done|]. cbn [length]. lia.
Qed.

(** Every duration main keeps lies in the window extract_lock_duration
    accepts, above 0 and at most three years of 365 days in seconds,
    and main keeps at most one duration per transaction. *)
Theorem kept_durations_in_window (txs : list obj) (ds : list Z) :
  collect [] txs = Ok ds ->
  Forall in_window ds /\ length ds <= length txs.
Proof.
  intros Hds. apply collect_in_window in Hds as [Hall Hlen]; [|constructor].
  split; [done|]. cbn [length] in Hlen. lia.
Qed.

Lemma third_word (selector w0 w1 w2 rest : string) :
  String.length selector = 10 -> String.length w0 = 64 -> String.length w1 = 64 ->
  String.length w2 = 64 ->
  let inp := String.append selector
               (String.append w0 (String.append w1 (String.append w2 rest))) in
  slice (2 * 64) (3 * 64) (slice_from 10 inp) = w2
  /\ String.length inp = 202 + String.length rest.
Proof.
  intros Hs H0 H1 H2 inp. subst inp. split.
  - rewrite AbiFacts.slice_from_app by done. unfold slice.
    change (2 * 64) with (64 + 64) at 1. rewrite <- H0 at 1.
    rewrite WithdrawFacts.substring_add.
    replace 64 with (String.length w1 + 0) at 1 by lia.
    rewrite WithdrawFacts.substring_add.
    replace (3 * 64 - 2 * 64) with (String.length w2) by lia.
    apply AbiFacts.substring_head.
  - rewrite !AbiFacts.length_app. lia.
Qed.

(** extract_lock_duration reads the end of the lock from the third
    word of the call data: for an input made of a selector of ten
    characters, two words, the encoding of lock_end and at least one
    more word, and a decimal timeStamp, it returns lock_end minus the
    time stamp when that lies in the window, and None otherwise. *)
Theorem extract_lock_duration_round_trip (tx : obj) (selector w0 w1 rest : string)
    (lock_end ts : Z) :
  String.length selector = 10 -> String.length w0 = 64 -> String.length w1 = 64 ->
  64 <= String.length rest ->
  (0 <= lock_end < 2 ^ 256)%Z -> (0 <= ts)%Z ->
  tx !! "input" = Some (exercise_input selector w0 w1 lock_end rest) ->
  tx !! "timeStamp" = Some (UpdateData.str ts) ->
  extract_lock_duration tx
  = Ok (if (0 <? lock_end - ts)%Z && (lock_end - ts <=? MAX_DURATION)%Z
        then Some (lock_end - ts)%Z else None).
Proof.
  intros Hs H0 H1 Hrest Hend Hts Hinp Htime. unfold extract_lock_duration.
  rewrite Hinp, Htime. cbn [of_option mbind py_mbind py_bind option_bind].
  destruct (third_word selector w0 w1 (Abi.encoded lock_end) rest) as [Hword Hlen];
    [done..|by apply AbiFacts.encoded_length|].
  cbv zeta in Hword, Hlen. unfold exercise_input. rewrite Hlen, Hword.
  destruct (Nat.ltb_spec (202 + String.length rest) 266) as [?|_]; [lia|].
  rewrite AbiFacts.encoded_int16 by lia. cbn [of_option mbind py_mbind py_bind].
  rewrite LockedFacts.int10_str by done. cbn [of_option mbind py_mbind py_bind].
  destruct (Z.leb_spec (lock_end - ts) 0), (Z.ltb_spec 0 (lock_end - ts)); try lia;
    destruct (Z.ltb_spec MAX_DURATION (lock_end - ts)),
             (Z.leb_spec (lock_end - ts) MAX_DURATION); try lia; reflexivity.
Qed.

Import Runs.

Lemma kept_durations_in_window_witness :
  Forall in_window [10000000%Z]
  /\ length [10000000%Z] <= length [timed_exercise; bare_exercise].
Proof.
  apply (kept_durations_in_window [timed_exercise; bare_exercise] [10000000%Z]).
  vm_compute. reflexivity.
Defined.

Lemma extract_lock_duration_round_trip_witness :
  extract_lock_duration timed_exercise
  = Ok (if (0 <? 1760000000 - 1750000000)%Z
           && (1760000000 - 1750000000 <=? MAX_DURATION)%Z
        then Some (1760000000 - 1750000000)%Z else None).
Proof.
  apply (extract_lock_duration_round_trip timed_exercise "0xa88f8139"
           (Abi.encoded 1) (Abi.encoded 2) (Abi.encoded 0) 1760000000 1750000000).
  - reflexivity.
  - vm_compute. reflexivity.
  - vm_compute. reflexivity.
  - vm_compute. lia.
  - lia.
  - lia.
  - vm_compute. reflexivity.
  - vm_compute. reflexivity.
Defined.

End DurationFacts.

Module HolderFacts.
Import Py DoloHolders.

Lemma keyed_snd (txs : list obj) : forall ks, keyed txs = Ok ks -> map snd ks = txs.
Proof.
  induction txs as [|t txs IH]; intros ks Hks; cbn [keyed] in Hks.
  - by injection Hks as <-.
  - destruct (sort_key t) as [k|]; [|done]. cbn [mbind py_mbind py_bind] in Hks.
    destruct (keyed txs) as [r|]; [|done]. cbn [py_bind] in Hks.
    injection Hks as <-. cbn. by rewrite (IH r).
Qed.

Lemma sort_txs_perm (txs sorted : list obj) : sort_txs txs = Ok sorted -> sorted ≡ₚ txs.
Proof.
  unfold sort_txs. destruct (keyed txs) as [ks|] eqn:E; [|done].
  cbn [mbind py_mbind py_bind]. intros [= <-].
  rewrite OwnershipFacts.sort_perm. by rewrite (keyed_snd txs ks).
Qed.

Lemma parties_perm (l k : list obj) (addr : string) :
  l ≡ₚ k -> addr ∈ parties l -> addr ∈ parties k.
Proof.
  unfold parties. intros Hperm. rewrite !list_elem_of_bind.
  intros (tx & Haddr & Htx). exists tx. split; [done|]. by rewrite <- Hperm.
Qed.

Section WithFloat.
Context `{PyFloatOrd F}.

Lemma apply_transfer_dom (b b' : gmap string F) (tx : obj) (addr : string) :
  apply_transfer b tx = Ok b' ->
  addr ∈ dom b' ->
  addr ∈ dom b \/ (addr <> lower ZERO /\ addr ∈ parties [tx]).
Proof.
  unfold apply_transfer, parties. cbv zeta. generalize (lower ZERO). intros zero.
  destruct (UpdateData.int_field tx "value" 0) as [value_raw|]; [|done].
  cbn [mbind py_mbind py_bind]. intros [= <-].
  destruct (String.eqb_spec (lower (get_str tx "from")) zero) as [Ef|Ef],
           (String.eqb_spec (lower (get_str tx "to")) zero) as [Et|Et];
    rewrite ?dom_insert, ?elem_of_union, ?elem_of_singleton; cbn; set_solver.
Qed.

Lemma apply_transfers_dom (txs : list obj) : forall (b b' : gmap string F) addr,
  apply_transfers b txs = Ok b' ->
  addr ∈ dom b' ->
  addr ∈ dom b \/ (addr <> lower ZERO /\ addr ∈ parties txs).
Proof.
  induction txs as [|tx txs IH]; intros b b' addr Hb Haddr; cbn [apply_transfers] in Hb.
  - injection Hb as <-. by left.
  - destruct (apply_transfer b tx) as [b1|] eqn:E; [|done].
    cbn [mbind py_mbind py_bind] in Hb.
    destruct (IH _ _ _ Hb Haddr) as [Hin|[Hne Hin]].
    + destruct (apply_transfer_dom _ _ _ _ E Hin) as [?|[Hne Hp]]; [by left|].
      right. split; [done|]. unfold parties in *. cbn in *. set_solver.
    + right. split; [done|]. unfold parties in *. cbn. set_solver.
Qed.

(** Every address build_balances gives a balance is the lower-cased
    sender or receiver of one of the transfers, and it is never the
    zero address: mints and burns leave no holder behind. *)
Theorem balances_name_parties (txs : list obj) (result : gmap string F)
    (addr : string) (v : F) :
  build_balances txs = Ok result ->
  result !! addr = Some v ->
  addr <> lower ZERO /\ addr ∈ parties txs.
Proof.
  unfold build_balances. intros Hb Hv.
  destruct (sort_txs txs) as [sorted|] eqn:Es; [|done].
  cbn [mbind py_mbind py_bind] in Hb.
  destruct (apply_transfers ∅ sorted) as [balances|] eqn:Ea; [|done].
  cbn [py_bind] in Hb. injection Hb as <-.
  assert (addr ∈ dom balances) as Hin.
  { unfold above_minimum in Hv. apply (elem_of_dom_2 (D := gset string)) in Hv.
    rewrite dom_fmap in Hv. by apply dom_filter_subseteq in Hv. }
  destruct (apply_transfers_dom _ _ _ _ Ea Hin) as [Hin'|[Hne Hp]].
  - rewrite dom_empty in Hin'. set_solver.
  - split; [done|]. eapply parties_perm; [|exact Hp]. by apply sort_txs_perm.
Qed.

(** *** The holders *)

Hypothesis fltb_asym : forall a b : F, fltb a b = true -> fltb b a = false.

Lemma insert_by_balance_perm (x : holder F) (l : list (holder F)) :
  insert_by_balance x l ≡ₚ x :: l.
Proof.
  induction l as [|y l IH]; cbn [insert_by_balance]; [done|].
  destruct (fltb _ _); [|done]. rewrite IH. apply perm_swap.
Qed.

Lemma sort_by_balance_perm (l : list (holder F)) : sort_by_balance l ≡ₚ l.
Proof.
  induction l as [|x l IH]; cbn; [done|].
  fold (sort_by_balance l). by rewrite insert_by_balance_perm, IH.
Qed.

Lemma insert_by_balance_sorted (x : holder F) (l : list (holder F)) :
  Sorted (fun a b => fltb (balance a) (balance b) = false) l ->
  Sorted (fun a b => fltb (balance a) (balance b) = false) (insert_by_balance x l).
Proof.
  induction 1 as [|y l Hl IH Hhd]; cbn [insert_by_balance].
  - by repeat constructor.
  - destruct (fltb (balance x) (balance y)) eqn:E.
    + constructor; [done|]. destruct l as [|z l]; cbn [insert_by_balance].
      * constructor. by apply fltb_asym.
      * destruct (fltb (balance x) (balance z)).
        -- constructor. by inversion Hhd.
        -- constructor. by apply fltb_asym.
    + constructor; [by constructor|]. by constructor.
Qed.

Lemma sort_by_balance_sorted (l : list (holder F)) :
  Sorted (fun a b => fltb (balance a) (balance b) = false) (sort_by_balance l).
Proof.
  induction l as [|x l IH]; cbn; [constructor|].
  by apply insert_by_balance_sorted.
Qed.

End WithFloat.

(** merge_holders gives one holder to every address that has a
    balance on either chain, whatever the order in which the set of
    addresses is iterated: the ranks count up from 1 to the number of
    these addresses, the addresses are theirs after the checksum, and
    no holder is directly followed by one with a greater balance. *)
Theorem dolo_holders_ranked `{PyFloatOrd F} (checksum : string -> string)
    (all_addrs : list string) (eth_balances bera_balances : gmap string F) :
  iterates all_addrs eth_balances bera_balances ->
  (forall a b : F, fltb a b = true -> fltb b a = false) ->
  let out := merge_holders checksum all_addrs eth_balances bera_balances in
  map rank out = seq 1 (size (dom eth_balances ∪ dom bera_balances))
  /\ map (fun r => address (ranked_holder r)) out
     ≡ₚ map checksum (elements (dom eth_balances ∪ dom bera_balances))
  /\ Sorted (fun a b => fltb (balance (ranked_holder a))
                          (balance (ranked_holder b)) = false) out.
Proof.
  intros Hiter Hasym out. subst out. unfold merge_holders, iterates in *.
  set (hs := map (holder_of eth_balances bera_balances) all_addrs).
  pose proof (sort_by_balance_perm hs) as Hperm.
  pose proof (sort_by_balance_sorted Hasym hs) as Hsorted.
  set (sorted := sort_by_balance hs) in *.
  assert (Hlen : length sorted = size (dom eth_balances ∪ dom bera_balances)).
  { rewrite Hperm. unfold hs. rewrite length_map, Hiter. reflexivity. }
  assert (Hfield : forall {A} (f : holder F -> A) (g : holder F -> A),
            (forall i h, f (ranked_holder (finish checksum i h)) = g h) ->
            map (fun r => f (ranked_holder r)) (imap (finish checksum) sorted)
            = map g sorted).
  { intros A f g Hf. apply list_eq. intros i.
    rewrite !list_lookup_fmap, list_lookup_imap.
    destruct (sorted !! i) as [m|]; [|done]. cbn. f_equal. apply (Hf i m). }
  split_and!.
  - rewrite <- Hlen. apply list_eq. intros i.
    rewrite !list_lookup_fmap, list_lookup_imap.
    destruct (sorted !! i) as [m|] eqn:E; cbn.
    + apply lookup_lt_Some in E. by rewrite lookup_seq_lt.
    + apply lookup_ge_None in E. by rewrite lookup_seq_ge.
  - rewrite (Hfield _ address (fun h => checksum (address h))) by done.
    rewrite Hperm. unfold hs. rewrite map_map. cbn [holder_of address].
    by rewrite <- Hiter.
  - apply MergeFacts.Sorted_fmap_inv with (f := fun r => balance (ranked_holder r))
                                          (R := fun a b : F => fltb a b = false).
    change (Sorted (fun a b : F => fltb a b = false)
              (map (fun r => balance (ranked_holder r)) (imap (finish checksum) sorted))).
    rewrite (Hfield _ balance balance) by done. clear -Hsorted.
    induction Hsorted as [|x l Hl IH Hhd]; [constructor|].
    cbn. constructor; [done|]. destruct Hhd; constructor. done.
Qed.

Import Runs.

Lemma balances_name_parties_witness :
  "0xaa" <> lower ZERO /\ "0xaa" ∈ parties two_transfers.
Proof.
  eapply (balances_name_parties (F := Q) two_transfers _ "0xaa" _).
  - vm_compute. reflexivity.
  - vm_compute. reflexivity.
Defined.

Lemma dolo_holders_ranked_witness :
  let out := merge_holders (F := Q) id
               (elements (dom eth_balances ∪ dom bera_balances))
               eth_balances bera_balances in
  map rank out = seq 1 (size (dom eth_balances ∪ dom bera_balances))
  /\ map (fun r => address (ranked_holder r)) out
     ≡ₚ map id (elements (dom eth_balances ∪ dom bera_balances))
  /\ Sorted (fun a b => fltb (balance (ranked_holder a))
                          (balance (ranked_holder b)) = false) out.
Proof.
  apply (dolo_holders_ranked (F := Q) id
           (elements (dom eth_balances ∪ dom bera_balances))
           eth_balances bera_balances).
  - unfold iterates. reflexivity.
  - exact MergeFacts.exact_lt_asym.
Defined.

Example merge_three_holders :
  map (fun r => (rank r, address (ranked_holder r), balance (ranked_holder r),
                 chains (ranked_holder r)))
      (merge_holders (F := Q) id ["0xaa"; "0xbb"; "0xcc"] eth_balances bera_balances)
  = [ (1, "0xbb", 9%Q, ["eth"; "bera"]);
      (2, "0xaa", 3%Q, ["eth"]);
      (3, "0xcc", 1%Q, ["bera"]) ].
Proof. vm_compute. reflexivity. Qed.

End HolderFacts.

Module ReceiptFacts.
Import Py Receipt.

Section WithFloat.
Context `{PyFloat F}.

Lemma scan_log_other (acc : EarlyExits.sums (F := F)) (l : log) :
  EarlyExits.dolo_transfer l = false -> EarlyExits.scan_log acc l = Ok acc.
Proof.
  unfold EarlyExits.dolo_transfer, EarlyExits.scan_log. intros Hd.
  destruct (String.eqb _ _); [|done]. cbn [negb andb] in *.
  destruct (bool_decide _); [|done]. cbn [negb andb] in *.
  apply Nat.leb_gt in Hd. apply Nat.ltb_lt in Hd. by rewrite Hd.
Qed.

Lemma scan_logs_filter (ls : list log) : forall acc : EarlyExits.sums (F := F),
  EarlyExits.scan_logs acc ls
  = EarlyExits.scan_logs acc (List.filter EarlyExits.dolo_transfer ls).
Proof.
  induction ls as [|l ls IH]; intros acc; [done|].
  cbn [List.filter EarlyExits.scan_logs].
  destruct (EarlyExits.dolo_transfer l) eqn:E.
  - cbn [EarlyExits.scan_logs]. destruct (EarlyExits.scan_log acc l); [|done].
    cbn [mbind py_mbind py_bind]. apply IH.
  - rewrite scan_log_other by done. cbn [mbind py_mbind py_bind]. apply IH.
Qed.

(** The penalty of a receipt depends on its DOLO Transfer logs
    only: the logs of another contract, of another event or with
    fewer than three topics can be dropped from the receipt without
    changing what fetch_receipt_and_calc_penalty returns, be it a
    record or an exception. *)
Theorem penalty_ignores_other_logs (rpc : string -> option receipt)
    (tx_hash : string) (ls : list log) :
  rpc tx_hash = Some {| logs := ls |} ->
  EarlyExits.fetch_receipt_and_calc_penalty (F := F) rpc tx_hash
  = EarlyExits.calc_penalty
      (Some {| logs := List.filter EarlyExits.dolo_transfer ls |}).
Proof.
  intros Hrpc. unfold EarlyExits.fetch_receipt_and_calc_penalty. rewrite Hrpc.
  unfold EarlyExits.calc_penalty. cbn [logs]. by rewrite scan_logs_filter.
Qed.

Lemma find_payment_skip (l : log) (ls : list log) :
  UpdateExercised.usdc_payment l = false ->
  UpdateExercised.find_payment (F := F) (l :: ls) = UpdateExercised.find_payment ls.
Proof.
  intros Hd. cbn [UpdateExercised.find_payment].
  unfold UpdateExercised.usdc_payment in Hd.
  destruct (String.eqb (lower (address l)) _); [|done].
  destruct (3 <=? _)%nat eqn:Hlen; [|done].
  destruct (bool_decide _); [|done]. cbn [andb] in *.
  apply Nat.leb_le in Hlen.
  destruct (lookup_lt_is_Some_2 (topics l) 2 ltac:(lia)) as [t Ht].
  rewrite Ht in *. cbn [of_option mbind py_mbind py_bind]. by rewrite Hd.
Qed.

(** get_usdc_from_receipt returns at the first USDC.e Transfer to
    the vester: the logs before it that are none are skipped, its
    data divided by 10^6 is the amount (an exception when the data
    is missing or no hexadecimal number), and the logs after it are
    not looked at, further payments included. *)
Theorem first_payment_counts (before after : list log) (l : log) :
  Forall (fun l' => UpdateExercised.usdc_payment l' = false) before ->
  UpdateExercised.usdc_payment l = true ->
  UpdateExercised.get_usdc_from_receipt (F := F)
    (Some {| logs := before ++ l :: after |})
  = (d ← of_option (data l);
     raw ← of_option (int16 d);
     Ok (Some (fdiv (of_int raw) (of_int (10 ^ UpdateExercised.USDC_DECIMALS))))).
Proof.
  intros Hbefore Hl. unfold UpdateExercised.get_usdc_from_receipt. cbn [logs].
  induction Hbefore as [|l' before Hl' _ IH]; cbn [app].
  - cbn [UpdateExercised.find_payment].
    unfold UpdateExercised.usdc_payment in Hl.
    destruct (String.eqb (lower (address l)) _); [|done].
    destruct (3 <=? _)%nat; [|done].
    destruct (bool_decide _); [|done]. cbn [andb] in *.
    destruct (topics l !! 2) as [t|]; [|done].
    cbn [of_option mbind py_mbind py_bind]. rewrite Hl.
    destruct (data l) as [d|]; [|done]. cbn [of_option py_bind].
    by destruct (int16 d).
  - by rewrite find_payment_skip.
Qed.

End WithFloat.

Import Runs.

Lemma penalty_ignores_other_logs_witness :
  EarlyExits.fetch_receipt_and_calc_penalty (F := Q)
    (fun _ => Some {| logs := [approval_log] |}) "0xabc"
  = EarlyExits.calc_penalty
      (Some {| logs := List.filter EarlyExits.dolo_transfer [approval_log] |}).
Proof.
  apply (penalty_ignores_other_logs (F := Q)
           (fun _ => Some {| logs := [approval_log] |}) "0xabc" [approval_log]).
  reflexivity.
Defined.

Lemma first_payment_counts_witness :
  UpdateExercised.get_usdc_from_receipt (F := Q)
    (Some {| logs := [approval_log] ++ payment_log "0xfa0" :: [payment_log "0x1"] |})
  = (d ← of_option (data (payment_log "0xfa0"));
     raw ← of_option (int16 d);
     Ok (Some (fdiv (of_int raw) (of_int (10 ^ UpdateExercised.USDC_DECIMALS))))).
Proof.
  apply (first_payment_counts (F := Q) [approval_log] [payment_log "0x1"]
           (payment_log "0xfa0")).
  - repeat constructor.
  - vm_compute. reflexivity.
Defined.

Example first_payment_amount :
  UpdateExercised.get_usdc_from_receipt (F := Q)
    (Some {| logs := [approval_log; payment_log "0xfa0"; payment_log "0x1"] |})
  = Ok (Some (1 # 250)%Q).
Proof. vm_compute. reflexivity. Qed.

End ReceiptFacts.

Module HolderListFacts.
Import Py UpdateData.

(** build_ownership returns well-formed holders: none carries the
    zero address, each has at least one token, its nft_count is the
    number of its token_ids, and these are in ascending order;
    unique_holders is the number of holders. *)
Theorem holders_well_formed (txs : list obj) (holders : list holder) (st : stats) :
  build_ownership txs = Ok (holders, st) ->
  unique_holders st = length holders
  /\ Forall (fun h => address h <> lower ZERO
                      /\ 0 < nft_count h
                      /\ nft_count h = length (token_ids h)
                      /\ StronglySorted Z.le (token_ids h)) holders.
Proof.
  unfold build_ownership. intros Hb.
  destruct (sort_txs txs) as [sorted|]; [|done]. cbn [mbind py_mbind py_bind] in Hb.
  destruct (record_transfers ([], ∅) sorted) as [s|] eqn:Es; [|done].
  cbn [py_bind] in Hb. cbv zeta in Hb. injection Hb as <- <-.
  cbn [unique_holders]. split; [by rewrite length_map|].
  destruct (OwnershipFacts.record_transfers_owner sorted _ _ Es (NoDup_nil_2)) as [Hnd _].
  destruct (OwnershipFacts.add_owner_fold s.1 [] (NoDup_nil_2)) as [HndA HgetA].
  cbn [dict_get default app] in HgetA.
  set (A := fold_left add_owner s.1 []) in *.
  apply Forall_forall. intros h [[addr tids] [-> Hin]]%list_elem_of_fmap.
  cbn [address nft_count token_ids fst snd].
  apply OwnershipFacts.dict_get_elem in Hin; [|done].
  rewrite HgetA in Hin. fold zero.
  destruct (String.eqb_spec addr zero) as [|Hne]; [done|].
  assert (tids <> []) as Htids.
  { destruct (owned s.1 addr); [done|]. by injection Hin as <-. }
  split_and!.
  - done.
  - destruct tids; [done|]. cbn. lia.
  - by rewrite (merge_sort_Permutation Z.le tids).
  - apply StronglySorted_merge_sort; apply _.
Qed.

Lemma holders_well_formed_witness :
  exists holders st,
    build_ownership Scenarios.nft_history = Ok (holders, st)
    /\ unique_holders st = length holders
    /\ Forall (fun h => address h <> lower ZERO
                        /\ 0 < nft_count h
                        /\ nft_count h = length (token_ids h)
                        /\ StronglySorted Z.le (token_ids h)) holders.
Proof.
  eexists _, _. split; [vm_compute; reflexivity|].
  apply (holders_well_formed Scenarios.nft_history). vm_compute. reflexivity.
Defined.

End HolderListFacts.
